(** * Orange_system: checkpointed bulk copy and KPI aggregation

  A shallow embedding of the extractor (table selection, batch copy with
  checkpoints) and of the transformer (suffix aggregation, KPI formulas,
  detail-row insertion), followed by the properties proved about them.

  Conventions of the embedding:
  - Python [str] is [string] (ASCII); [str.lower] is ASCII lower-casing.
  - Python [int] is [Z] or [nat] (row counts and offsets are [nat]).
  - Python [float] is binary64 ([SpecFloat], precision 53, [emax] 1024).
  - The KPI formulas are lambdas over whatever numbers they are given;
    they are written once over an arithmetic interface, with two
    instances: binary64, which is what the column type FLOAT of the
    intermediate tables feeds them, and exact rationals [Q]. Statements
    about which rows and counters are combined use the exact instance;
    statements about the numbers that come out use binary64. Division
    by zero raises [ZeroDivisionError] in both.
  - A Python [dict] is a [gmap] when only lookups matter and an
    association list when iteration order matters.
  - Databases, files and the clock are explicit state; what the outside
    world answers is supplied by an environment record. *)

From Stdlib Require Import ZArith QArith Qround List String Ascii Bool Lia.
From Stdlib Require Import Permutation Sorted SpecFloat.
From stdpp Require Import base gmap strings list.

Local Open Scope string_scope.
Local Open Scope list_scope.

(** ** Python-level preliminaries *)

Module Py.

(** Exceptions that the modelled code can raise or let through. *)
Inductive exn : Type :=
| KeyError (key : string)
| IndexError
| AttributeError
| ValueError
| TypeError
| ZeroDivisionError
| MySQLError          (* any subclass of MySQLdb.Error *)
| OtherException.     (* an Exception outside the classes above *)

Inductive result (A : Type) : Type :=
| Ok (a : A)
| Raise (e : exn).
Arguments Ok {A} a.
Arguments Raise {A} e.

Definition is_Ok {A} (r : result A) : bool :=
  match r with Ok _ => true | Raise _ => false end.

(** Values that occur in database rows. Floats keep the IEEE classes so
    that NaN can be told apart from every other float. *)
Inductive pyval : Type :=
| PyNone
| PyInt (n : Z)
| PyFloat (f : SpecFloat.spec_float)
| PyStr (s : string)
| PyDatetime (ordinal : Z) (microsecond : Z).

(** [isinstance(val, float) and math.isnan(val)] *)
Definition isnan_float (v : pyval) : bool :=
  match v with
  | PyFloat (SpecFloat.S754_nan) => true
  | _ => false
  end.

Definition chars (s : string) : list ascii := list_ascii_of_string s.

Definition is_upper (c : ascii) : bool :=
  (65 <=? nat_of_ascii c)%nat && (nat_of_ascii c <=? 90)%nat.
Definition is_lower (c : ascii) : bool :=
  (97 <=? nat_of_ascii c)%nat && (nat_of_ascii c <=? 122)%nat.
Definition is_digit (c : ascii) : bool :=
  (48 <=? nat_of_ascii c)%nat && (nat_of_ascii c <=? 57)%nat.

Definition to_lower (c : ascii) : ascii :=
  if is_upper c then ascii_of_nat (nat_of_ascii c + 32) else c.
Definition to_upper (c : ascii) : ascii :=
  if is_lower c then ascii_of_nat (nat_of_ascii c - 32) else c.

(** [s.lower()] *)
Definition lower (s : list ascii) : list ascii := map to_lower s.

(** [int(digits)] for a string of decimal digits. *)
Definition digit_val (c : ascii) : Z := Z.of_nat (nat_of_ascii c) - 48.
Definition int_of_digits (ds : list ascii) : Z :=
  fold_left (fun acc c => 10 * acc + digit_val c)%Z ds 0%Z.

(** [k in s] on strings: [k] occurs as a contiguous substring of [s]. *)
Fixpoint starts_with (k s : list ascii) : bool :=
  match k, s with
  | [], _ => true
  | _ :: _, [] => false
  | a :: k', b :: s' => Ascii.eqb a b && starts_with k' s'
  end.
Fixpoint contains (k s : list ascii) : bool :=
  starts_with k s ||
  match s with
  | [] => false
  | _ :: s' => contains k s'
  end.

Definition rbind {A B} (r : result A) (k : A -> result B) : result B :=
  match r with
  | Ok a => k a
  | Raise e => Raise e
  end.

(** [sum(l)], [a / b] and [l[i]] on exact numbers. *)
Definition py_sum (l : list Q) : Q := fold_left Qplus l 0%Q.
Definition py_div (a b : Q) : result Q :=
  if Qeq_bool b 0 then Raise ZeroDivisionError else Ok (a / b)%Q.
Definition py_index {A : Type} (l : list A) (i : nat) : result A :=
  match nth_error l i with
  | Some x => Ok x
  | None => Raise IndexError
  end.

(** *** Floats

  Python's [float] is binary64; the operations are those of
  [SpecFloat], which round to nearest, ties to even. *)
Definition float : Type := SpecFloat.spec_float.
Definition prec : Z := 53.
Definition emax : Z := 1024.

(** [float(n)] for an int below 2^1024, also the conversion of an int
    operand in [x * n]. *)
Definition float_of_int (n : Z) : float :=
  SpecFloat.binary_normalize prec emax n 0 false.

Definition float_add : float -> float -> float := SpecFloat.SFadd prec emax.
Definition float_sub : float -> float -> float := SpecFloat.SFsub prec emax.
Definition float_mul : float -> float -> float := SpecFloat.SFmul prec emax.

(** [a / b] on floats raises for a zero divisor of either sign. *)
Definition float_div (a b : float) : result float :=
  match b with
  | SpecFloat.S754_zero _ => Raise ZeroDivisionError
  | _ => Ok (SpecFloat.SFdiv prec emax a b)
  end.

(** [x != 0]: true also for NaN. *)
Definition float_nonzero (x : float) : bool :=
  negb (SpecFloat.SFeqb x (SpecFloat.S754_zero false)).

(** [a / b] on two positive ints: the exact quotient rounded once,
    whatever the size of the operands. *)
Definition int_true_divide (a b : positive) : float :=
  SpecFloat.SFdiv prec emax (SpecFloat.S754_finite false a 0)
                            (SpecFloat.S754_finite false b 0).

(** A float literal [n/d] written in decimal, as [1.2] is [12/10]. *)
Definition float_literal (n d : positive) : float := int_true_divide n d.

(** The number a finite float stands for. *)
Definition float_value (x : float) : option Q :=
  match x with
  | SpecFloat.S754_zero _ => Some 0%Q
  | SpecFloat.S754_finite s m e =>
      let m := if s then Zneg m else Zpos m in
      Some (match e with
            | Zneg k => Qmake m (2 ^ k)
            | _ => inject_Z (m * 2 ^ e)
            end)
  | _ => None
  end.

(** The int a float is equal to ([x == n]), if there is one. *)
Definition float_int (x : float) : option Z :=
  match x with
  | SpecFloat.S754_zero _ => Some 0%Z
  | SpecFloat.S754_finite s m e =>
      let m := if s then Zneg m else Zpos m in
      match e with
      | Zneg k => if (m mod Zpos (2 ^ k) =? 0)%Z then Some (m / Zpos (2 ^ k))%Z else None
      | _ => Some (m * 2 ^ e)%Z
      end
  | _ => None
  end.

(** Rounding half to even to an integer, and [round(x, 2)] for a float
    [x]: the decimal with two places nearest to the number [x] stands
    for, a tie going to the even last digit. The float that [round]
    returns is the one nearest to that decimal, which its [repr] prints. *)
Definition round_half_even (q : Q) : Z :=
  let f := Qfloor q in
  match Qcompare (q - inject_Z f) (1 # 2) with
  | Lt => f
  | Gt => (f + 1)%Z
  | Eq => if Z.even f then f else (f + 1)%Z
  end.
Definition round2 (q : Q) : Q := Qmake (round_half_even (q * 100)) 100.
Definition float_round2 (x : float) : Q := round2 (default 0%Q (float_value x)).

(** *** The arithmetic a formula is run on *)
Record arith (N : Type) : Type := {
  of_int : Z -> N;                    (* an int literal or operand *)
  of_literal : positive -> positive -> N;   (* a float literal, [n/d] in decimal *)
  add : N -> N -> N;
  sub : N -> N -> N;
  mul : N -> N -> N;
  div : N -> N -> result N;
  nonzero : N -> bool                 (* [x != 0] *)
}.
Arguments of_int {N} _ _.
Arguments of_literal {N} _ _ _.
Arguments add {N} _ _ _.
Arguments sub {N} _ _ _.
Arguments mul {N} _ _ _.
Arguments div {N} _ _ _.
Arguments nonzero {N} _ _.

Definition rational : arith Q :=
  {| of_int := inject_Z;
     of_literal := fun n d => Qmake (Zpos n) d;
     add := Qplus; sub := Qminus; mul := Qmult;
     div := py_div;
     nonzero := fun q => negb (Qeq_bool q 0) |}.

Definition binary64 : arith float :=
  {| of_int := float_of_int;
     of_literal := float_literal;
     add := float_add; sub := float_sub; mul := float_mul;
     div := float_div;
     nonzero := float_nonzero |}.

(** [sum(l)]: the items added from left to right, starting from the int
    0. On floats this is what CPython's [sum] returns up to version 3.11
    for every list, and in every version for a list of one or two items
    (later versions carry a correction term along, which changes nothing
    for so few items). *)
Definition sum_in {N : Type} (A : arith N) (l : list N) : N :=
  fold_left (add A) l (of_int A 0).

End Py.
Import Py.

Notation "'let?' x ':=' r 'in' k" := (rbind r (fun x => k))
  (at level 10, x name, r at level 100, k at level 200).

(** ** A backtracking matcher for the regular expressions of the source

  The matcher enumerates, in the priority order of a backtracking
  engine, every way a pattern can consume a prefix of the input; the
  first element is the match Python's [re] reports. *)

Module Re.

Inductive regex : Type :=
| Eps
| Lit (c : ascii)                    (* a literal character *)
| Class (p : ascii -> bool)          (* \d or [...] *)
| Seq (r1 r2 : regex)
| Alt (r1 r2 : regex)                (* r1|r2 *)
| Plus (p : ascii -> bool)           (* c+ for a character class c, greedy *)
| Group (n : nat) (r : regex)        (* the n-th capturing group *)
| Bol                                (* ^ *)
| Eol.                               (* $ *)

Definition seqs (rs : list regex) : regex := fold_right Seq Eps rs.
Definition lits (s : string) : list regex := map Lit (chars s).
Definition one_of (s : string) (c : ascii) : bool :=
  existsb (Ascii.eqb c) (chars s).
Definition alnum (c : ascii) : bool := is_upper c || is_lower c || is_digit c.

Definition captures : Type := list (nat * list ascii).

Definition lit_match (ignorecase : bool) (c x : ascii) : bool :=
  Ascii.eqb c x || (ignorecase && Ascii.eqb (to_lower c) (to_lower x)).
Definition class_match (ignorecase : bool) (p : ascii -> bool) (x : ascii) : bool :=
  p x || (ignorecase && (p (to_lower x) || p (to_upper x))).

(** Remainders left by [c+], longest run first. *)
Fixpoint plus_runs (p : ascii -> bool) (s : list ascii) : list (list ascii) :=
  match s with
  | [] => []
  | x :: s' => if p x then plus_runs p s' ++ [s'] else []
  end.

Definition consumed (s s' : list ascii) : list ascii :=
  firstn (length s - length s') s.

Section Run.
Variable ignorecase : bool.
Variable whole : list ascii.        (* the string being searched *)

Fixpoint run (r : regex) (s : list ascii) (caps : captures)
  : list (list ascii * captures) :=
  match r with
  | Eps => [(s, caps)]
  | Lit c =>
      match s with
      | x :: s' => if lit_match ignorecase c x then [(s', caps)] else []
      | [] => []
      end
  | Class p =>
      match s with
      | x :: s' => if class_match ignorecase p x then [(s', caps)] else []
      | [] => []
      end
  | Seq r1 r2 =>
      flat_map (fun st => run r2 (fst st) (snd st)) (run r1 s caps)
  | Alt r1 r2 => run r1 s caps ++ run r2 s caps
  | Plus p =>
      map (fun s' => (s', caps)) (plus_runs (class_match ignorecase p) s)
  | Group n r1 =>
      map (fun st => (fst st, (n, consumed s (fst st)) :: snd st))
          (run r1 s caps)
  | Bol => if (length s =? length whole)%nat then [(s, caps)] else []
  | Eol =>
      match s with
      | [] => [(s, caps)]
      | [x] => if Ascii.eqb x "010"%char then [(s, caps)] else []
      | _ => []
      end
  end.

(** The match starting exactly at the suffix [s] of [whole]. *)
Definition match_at (r : regex) (s : list ascii) : option captures :=
  match run r s [] with
  | [] => None
  | st :: _ => Some (snd st)
  end.

(** Leftmost match over the start positions of [s] and its suffixes. *)
Fixpoint search_from (r : regex) (s : list ascii) : option captures :=
  match match_at r s with
  | Some c => Some c
  | None =>
      match s with
      | [] => None
      | _ :: s' => search_from r s'
      end
  end.
End Run.

Record pattern : Type := { source : regex; IGNORECASE : bool }.

(** [re.match(pattern, text)] *)
Definition re_match (p : pattern) (text : string) : option captures :=
  match_at (IGNORECASE p) (chars text) (source p) (chars text).

(** [re.search(pattern, text)] *)
Definition re_search (p : pattern) (text : string) : option captures :=
  search_from (IGNORECASE p) (chars text) (source p) (chars text).

(** [m.group(n)] *)
Fixpoint group (n : nat) (c : captures) : option (list ascii) :=
  match c with
  | [] => None
  | (k, v) :: c' => if (k =? n)%nat then Some v else group n c'
  end.

End Re.

(** ** The proleptic Gregorian calendar of Python's [datetime] *)

Module Calendar.
Local Open Scope Z_scope.

Record datetime : Type := { ordinal : Z; microsecond : Z }.

Definition isleap (y : Z) : bool :=
  (y mod 4 =? 0) && (negb (y mod 100 =? 0) || (y mod 400 =? 0)).

Definition days_before_year (y : Z) : Z :=
  let y' := y - 1 in y' * 365 + y' / 4 - y' / 100 + y' / 400.

Definition days_in_month (y m : Z) : Z :=
  if m =? 2 then (if isleap y then 29 else 28)
  else if (m =? 4) || (m =? 6) || (m =? 9) || (m =? 11) then 30 else 31.

Definition days_before_month (y m : Z) : Z :=
  fold_right Z.add 0 (map (days_in_month y) (map Z.of_nat (seq 1 (Z.to_nat (m - 1))))).

(** [date(y, m, d).toordinal()] *)
Definition ymd2ord (y m d : Z) : Z :=
  days_before_year y + days_before_month y m + d.

(** [date.fromordinal(n).weekday()], Monday is 0 *)
Definition weekday (ord : Z) : Z := (ord + 6) mod 7.

Definition MAXORDINAL : Z := 3652059.     (* date(9999, 12, 31).toordinal() *)

(** [datetime(y, m, d)] at midnight *)
Definition mk_datetime (y m d : Z) : datetime :=
  {| ordinal := ymd2ord y m d; microsecond := 0 |}.

(** [a >= b] on datetimes *)
Definition datetime_ge (a b : datetime) : bool :=
  (ordinal b <? ordinal a) ||
  ((ordinal a =? ordinal b) && (microsecond b <=? microsecond a)).

(** [_strptime._calc_julian_from_U_or_W(year, week, day_of_week, True)] *)
Definition calc_julian_from_W (year week_of_year day_of_week : Z) : Z :=
  let first_weekday := weekday (ymd2ord year 1 1) in
  let week_0_length := (7 - first_weekday) mod 7 in
  if week_of_year =? 0 then 1 + day_of_week - first_weekday
  else 1 + (week_0_length + 7 * (week_of_year - 1)) + day_of_week.

(** [datetime.strptime(f"{year}-W{week}-1", "%Y-W%W-%w")] for integers
    [year] and [week]: [%Y] wants exactly four digits, [%W] a week
    number from 0 to 53, and the resulting day must be a valid date;
    anything else is a [ValueError]. The result is the Monday of that
    week, weeks starting on Monday and week 1 on the first Monday. *)
Definition strptime_year_week_monday (year week : Z) : result datetime :=
  if (1000 <=? year) && (year <=? 9999) && (0 <=? week) && (week <=? 53) then
    let julian := calc_julian_from_W year week 0 in
    let ord := (julian - 1) + ymd2ord year 1 1 in
    if (1 <=? ord) && (ord <=? MAXORDINAL)
    then Ok {| ordinal := ord; microsecond := 0 |}
    else Raise ValueError
  else Raise ValueError.

End Calendar.

(** ** The extractor: state, environment and effects *)

Module Extract.

(** A row of a fetched or loaded batch is a Python tuple. *)
Abbreviation row := (list pyval).

(** The value stored for a table in [last_extracted.json]. The key
    ["completed"] is either absent or [True]; [completed = false] stands
    for the absent key, which [.get("completed", False)] reads as false. *)
Record Entry : Type := {
  offset : nat;
  total_extracted : nat;
  total_rows : nat;
  percentage : Q;
  completed : bool
}.

Inductive log_record : Type :=
| InfoIncluding (table : string) (d : Calendar.datetime)
| InfoSkippingBefore (table : string) (d : Calendar.datetime)
| WarningInvalidDate (table : string)
| WarningNoWeekYear (table : string).



(** What the program does to the outside world, in order. *)
Inductive event : Type :=
| ShowTables
| SelectCount (table : string)
| SelectBatch (table : string) (offset limit : nat)
| Sleep (seconds : nat)
| CreateTable (table : string)
| InsertRows (table : string) (rows : list row)
| Rollback (table : string)
| SaveLastExtracted (content : gmap string Entry)
| StoreTxt (path : string) (lines : list string)
| Log (l : log_record).

Record World : Type := {
  clock : nat;                                  (* statements sent so far *)
  last_extracted_json : gmap string Entry;      (* ./data/last_extracted.json *)
  dest_tables : gmap string (list row);         (* destination database *)
  txt_files : gmap string (list string);        (* manifests written by store_txt *)
  trace : list event                            (* oldest first *)
}.

(** What [cursor.execute] followed by [cursor.fetchall] can do. *)
Inductive fetch_outcome : Type :=
| Fetched (rows : list (pyval * pyval * pyval))
| FetchMySQLError                                (* raises MySQLdb.Error *)
| FetchOtherError.                               (* raises another Exception *)

(** The answers of the outside world. Source and destination may answer
    differently each time they are asked: answers depend on the clock. *)
Record Env : Type := {
  show_tables : result (list string);
  select_count : nat -> string -> result nat;
  select_batch : nat -> string -> nat -> nat -> fetch_outcome;
  indicator_csv : string -> gmap Z string;
  insert_accepted : nat -> string -> list row -> bool
}.

(** How a stateful computation ends. [OutOfFuel] is not a Python outcome:
    it marks a loop of the model that used up its iteration budget. *)
Inductive outcome (A : Type) : Type :=
| Returns (a : A)
| Raises (e : exn)
| OutOfFuel.
Arguments Returns {A} a.
Arguments Raises {A} e.
Arguments OutOfFuel {A}.

Definition M (A : Type) : Type := World -> outcome A * World.

Definition ret {A} (a : A) : M A := fun w => (Returns a, w).
Definition raise {A} (e : exn) : M A := fun w => (Raises e, w).
Definition out_of_fuel {A} : M A := fun w => (OutOfFuel, w).
Definition bind {A B} (c : M A) (k : A -> M B) : M B :=
  fun w => match c w with
           | (Returns a, w') => k a w'
           | (Raises e, w') => (Raises e, w')
           | (OutOfFuel, w') => (OutOfFuel, w')
           end.
(** [try: c  except Exception as e: handler(e)] *)
Definition try_except {A} (c : M A) (handler : exn -> M A) : M A :=
  fun w => match c w with
           | (Raises e, w') => handler e w'
           | r => r
           end.
Definition lift_result {A} (r : result A) : M A :=
  match r with
  | Ok a => ret a
  | Raise e => raise e
  end.

Definition emit (e : event) : M unit :=
  fun w => (Returns tt, {| clock := clock w;
                      last_extracted_json := last_extracted_json w;
                      dest_tables := dest_tables w;
                      txt_files := txt_files w;
                      trace := trace w ++ [e] |}).
Definition tick : M nat :=
  fun w => (Returns (clock w), {| clock := S (clock w);
                             last_extracted_json := last_extracted_json w;
                             dest_tables := dest_tables w;
                             txt_files := txt_files w;
                             trace := trace w |}).
Definition get_world : M World := fun w => (Returns w, w).
Definition set_last_extracted_json (f : gmap string Entry) : M unit :=
  fun w => (Returns tt, {| clock := clock w;
                      last_extracted_json := f;
                      dest_tables := dest_tables w;
                      txt_files := txt_files w;
                      trace := trace w |}).
Definition set_dest_tables (d : gmap string (list row)) : M unit :=
  fun w => (Returns tt, {| clock := clock w;
                      last_extracted_json := last_extracted_json w;
                      dest_tables := d;
                      txt_files := txt_files w;
                      trace := trace w |}).
Definition set_txt_files (t : gmap string (list string)) : M unit :=
  fun w => (Returns tt, {| clock := clock w;
                      last_extracted_json := last_extracted_json w;
                      dest_tables := dest_tables w;
                      txt_files := t;
                      trace := trace w |}).

Declare Scope py_scope.
Delimit Scope py_scope with py.
Notation "x <- c1 ;; c2" := (bind c1 (fun x => c2))
  (at level 100, c1 at next level, right associativity) : py_scope.
Notation "c1 ;; c2" := (bind c1 (fun _ => c2))
  (at level 100, right associativity) : py_scope.

End Extract.

(** ** extractor/src/utils/config.py *)

Module ExtractorConfig.
Import Re.

Definition digit4 : list regex :=
  [Class is_digit; Class is_digit; Class is_digit; Class is_digit].

(** [(CALIS|MEIND|RAIND)] *)
Definition node_names : regex :=
  Group 1 (Alt (seqs (lits "CALIS")) (Alt (seqs (lits "MEIND")) (seqs (lits "RAIND")))).

Record category_patterns : Type := {
  pattern_5min : pattern;
  pattern_15min : pattern;
  pattern_mgw : pattern
}.

Definition patterns : category_patterns := {|
  (* ^(CALIS|MEIND|RAIND)[-_]APG43[_-]5_S\d+_A\d{4}$ *)
  pattern_5min :=
    {| source := seqs ([Bol; node_names; Class (one_of "-_")] ++ lits "APG43"
                       ++ [Class (one_of "_-")] ++ lits "5_S" ++ [Plus is_digit]
                       ++ lits "_A" ++ digit4 ++ [Eol]);
       IGNORECASE := true |};
  (* ^(CALIS|MEIND|RAIND)[-_]APG43[_-]15_S\d+_A\d{4}$ *)
  pattern_15min :=
    {| source := seqs ([Bol; node_names; Class (one_of "-_")] ++ lits "APG43"
                       ++ [Class (one_of "_-")] ++ lits "15_S" ++ [Plus is_digit]
                       ++ lits "_A" ++ digit4 ++ [Eol]);
       IGNORECASE := true |};
  (* ^([A-Za-z0-9]+)MGW_S\d+_A\d{4}$ *)
  pattern_mgw :=
    {| source := seqs ([Bol; Group 1 (Plus alnum)] ++ lits "MGW_S" ++ [Plus is_digit]
                       ++ lits "_A" ++ digit4 ++ [Eol]);
       IGNORECASE := true |}
|}.

Definition START_DATE : Calendar.datetime := Calendar.mk_datetime 2024 1 1.

Definition path_5min : string := "./data/our_data/result_5min.txt".
Definition path_15min : string := "./data/our_data/result_15min.txt".
Definition path_mgw : string := "./data/our_data/result_mgw.txt".

End ExtractorConfig.

(** ** extractor/src/utils/tools.py *)

Module Tools.
Import Re Extract ExtractorConfig.
Local Open Scope py_scope.

Definition store_txt (data : list string) (filename : string) : M unit :=
  w <- get_world ;;
  set_txt_files (<[filename := data]> (txt_files w)) ;;
  emit (StoreTxt filename data).

(** What [store_txt] writes: ['\n'.join(data)]. *)
Fixpoint join_lines (data : list string) : list ascii :=
  match data with
  | [] => []
  | [line] => chars line
  | line :: rest => chars line ++ "010"%char :: join_lines rest
  end.

Definition filter_tables (table_names : list string) (p : pattern) : list string :=
  List.filter (fun table => match re_match p table with Some _ => true | None => false end)
              table_names.

(** [_S(\d+)_A(\d{4})$] *)
Definition week_year_suffix : pattern :=
  {| source := seqs (lits "_S" ++ [Group 1 (Plus is_digit)] ++ lits "_A"
                     ++ [Group 2 (seqs digit4); Eol]);
     IGNORECASE := true |}.

(** [int(m.group(n))]; a group that took no part in the match is [None]. *)
Definition int_group (n : nat) (m : captures) : result Z :=
  match group n m with
  | Some ds => Ok (int_of_digits ds)
  | None => Raise TypeError
  end.

Fixpoint filter_by_start_date (tables : list string) (start_date : Calendar.datetime)
  : M (list string) :=
  match tables with
  | [] => ret []
  | table :: rest =>
      keep <- match re_search week_year_suffix table with
              | Some m =>
                  week <- lift_result (int_group 1 m) ;;
                  year <- lift_result (int_group 2 m) ;;
                  try_except
                    (table_date <- lift_result (Calendar.strptime_year_week_monday year week) ;;
                     if Calendar.datetime_ge table_date start_date
                     then emit (Log (InfoIncluding table table_date)) ;; ret true
                     else emit (Log (InfoSkippingBefore table table_date)) ;; ret false)
                    (fun e => match e with
                              | ValueError =>
                                  emit (Log (WarningInvalidDate table)) ;; ret false
                              | _ => raise e
                              end)
              | None => emit (Log (WarningNoWeekYear table)) ;; ret false
              end ;;
      filtered_tables <- filter_by_start_date rest start_date ;;
      ret (if keep : bool then table :: filtered_tables else filtered_tables)
  end.

(** [_A(\d{4})$] and [_S(\d+)_] *)
Definition year_suffix : pattern :=
  {| source := seqs (lits "_A" ++ [Group 1 (seqs digit4); Eol]); IGNORECASE := true |}.
Definition week_infix : pattern :=
  {| source := seqs (lits "_S" ++ [Group 1 (Plus is_digit)] ++ lits "_");
     IGNORECASE := true |}.

(** [int(re.search(p, x, re.IGNORECASE).group(1))] *)
Definition search_int (p : pattern) (x : string) : result Z :=
  match re_search p x with
  | Some m => int_group 1 m
  | None => Raise AttributeError
  end.

Definition sort_key (x : string) : result (Z * Z) :=
  match search_int year_suffix x with
  | Ok year =>
      match search_int week_infix x with
      | Ok week => Ok (year, week)
      | Raise e => Raise e
      end
  | Raise e => Raise e
  end.

(** Tuple comparison [a <= b] on (year, week). *)
Definition key_le (a b : Z * Z) : bool :=
  (fst a <? fst b)%Z || ((fst a =? fst b)%Z && (snd a <=? snd b)%Z).

Fixpoint keyed (tables : list string) : result (list (Z * Z * string)) :=
  match tables with
  | [] => Ok []
  | x :: rest =>
      match sort_key x with
      | Ok k =>
          match keyed rest with
          | Ok l => Ok ((k, x) :: l)
          | Raise e => Raise e
          end
      | Raise e => Raise e
      end
  end.

(** Stable insertion: [x] goes before the first element whose key is not
    smaller, so equal keys keep their input order, as [sorted] does. *)
Fixpoint insert_keyed (kx : Z * Z * string) (l : list (Z * Z * string))
  : list (Z * Z * string) :=
  match l with
  | [] => [kx]
  | ky :: l' =>
      if key_le (fst kx) (fst ky) then kx :: ky :: l' else ky :: insert_keyed kx l'
  end.

Definition sorted_keyed (l : list (Z * Z * string)) : list (Z * Z * string) :=
  fold_right insert_keyed [] l.

Definition sort_by_year_and_week (tables : list string) : result (list string) :=
  match keyed tables with
  | Ok l => Ok (map snd (sorted_keyed l))
  | Raise e => Raise e
  end.

Definition process_tables_names (table_names : list string)
  (patterns : category_patterns) (START_DATE : Calendar.datetime) : M (list string) :=
  let filtered_5min := filter_tables table_names (pattern_5min patterns) in
  let filtered_15min := filter_tables table_names (pattern_15min patterns) in
  let filtered_mgw := filter_tables table_names (pattern_mgw patterns) in
  filtered_5min_by_date <- filter_by_start_date filtered_5min START_DATE ;;
  filtered_15min_by_date <- filter_by_start_date filtered_15min START_DATE ;;
  filtered_mgw_by_date <- filter_by_start_date filtered_mgw START_DATE ;;
  sorted_5min <- lift_result (sort_by_year_and_week filtered_5min_by_date) ;;
  sorted_15min <- lift_result (sort_by_year_and_week filtered_15min_by_date) ;;
  sorted_mgw <- lift_result (sort_by_year_and_week filtered_mgw_by_date) ;;
  store_txt sorted_5min path_5min ;;
  store_txt sorted_15min path_15min ;;
  store_txt sorted_mgw path_mgw ;;
  let unified_sorted_tables := sorted_5min in
  lift_result (sort_by_year_and_week unified_sorted_tables).

Section WithEnv.
Variable env : Env.

(** The CSV [./data/indicators/indicateur_<base>.csv] is read through the
    environment; a missing or unreadable file gives the empty dict. *)
Definition load_indicator_csv (table : string) : gmap Z string :=
  indicator_csv env table.

Definition load_last_extracted : M (gmap string Entry) :=
  w <- get_world ;; ret (last_extracted_json w).

Definition save_last_extracted (last_extracted : gmap string Entry) : M unit :=
  set_last_extracted_json last_extracted ;;
  emit (SaveLastExtracted last_extracted).

(** [indicator_map.get(id_indicateur, "Unknown")]: the keys are ints, and
    a float that equals a key finds it, as [1.0] finds [1]. *)
Definition indicator_get (indicator_map : gmap Z string) (id_indicateur : pyval) : string :=
  match id_indicateur with
  | PyInt n => default "Unknown" (indicator_map !! n)
  | PyFloat x =>
      match float_int x with
      | Some n => default "Unknown" (indicator_map !! n)
      | None => "Unknown"
      end
  | _ => "Unknown"
  end.

(** The body of the loop that builds [result]:
    [(date_heure, indicator_map.get(id_indicateur, "Unknown"), valeur)] *)
Definition attach_indicator (indicator_map : gmap Z string) (r : pyval * pyval * pyval)
  : row :=
  match r with
  | (date_heure, id_indicateur, valeur) =>
      [date_heure; PyStr (indicator_get indicator_map id_indicateur); valeur]
  end.

Definition extract_table_data (table : string) (offset batch_size : nat)
  : M (option (list row)) :=
  now <- tick ;;
  emit (SelectBatch table offset batch_size) ;;
  match select_batch env now table offset batch_size with
  | FetchOtherError => raise OtherException
  | FetchMySQLError => ret None                 (* except MySQLdb.Error: return None *)
  | Fetched raw_data =>
      match raw_data with
      | [] => ret None                          (* if not raw_data: return None *)
      | _ :: _ =>
          let indicator_map := load_indicator_csv table in
          if decide (indicator_map = ∅) then ret None
          else ret (Some (map (attach_indicator indicator_map) raw_data))
      end
  end.

Definition sanitize (val : pyval) : pyval :=
  if isnan_float val then PyNone else val.

Definition load_batch_into_database (batch : list row) (target_table : string) : M unit :=
  w <- get_world ;;
  (match dest_tables w !! target_table with
   | Some _ => ret tt
   | None =>
       emit (CreateTable target_table) ;;
       set_dest_tables (<[target_table := []]> (dest_tables w))
   end) ;;
  match batch with
  | [] => raise IndexError                      (* batch[0] *)
  | _ :: _ =>
      let sanitized_batch := map (map sanitize) batch in
      now <- tick ;;
      if insert_accepted env now target_table sanitized_batch then
        w <- get_world ;;
        emit (InsertRows target_table sanitized_batch) ;;
        set_dest_tables (<[target_table :=
                             default [] (dest_tables w !! target_table) ++ sanitized_batch]>
                           (dest_tables w))
      else
        emit (Rollback target_table) ;;
        raise MySQLError
  end.

End WithEnv.
End Tools.

(** ** extractor/src/utils/extractor.py *)

Module Extractor.
Import Extract ExtractorConfig.
Local Open Scope py_scope.

Section WithEnv.
Variable env : Env.

Definition max_retries : nat := 3.
Definition retry_delay : nat := 4.

Definition extract_tables_names : M (list string) :=
  emit ShowTables ;;
  tables <- lift_result (show_tables env) ;;
  Tools.store_txt tables "./data/our_tables/tables.txt" ;;
  ret tables.

Definition process_tables_names : M (list string) :=
  tables <- extract_tables_names ;;
  Tools.process_tables_names tables patterns START_DATE.

(** The body of [for attempt in range(max_retries + 1)]; falling out of
    the loop returns [None]. *)
Fixpoint extract_attempts (table_name : string) (offset batch_size : nat)
  (attempts : list nat) : M (option (list row)) :=
  match attempts with
  | [] => ret None
  | attempt :: rest =>
      try_except
        (Tools.extract_table_data env table_name offset batch_size)
        (fun e =>
           if (attempt <? max_retries)%nat then
             let wait_time := retry_delay * 2 ^ attempt in
             emit (Sleep wait_time) ;;
             extract_attempts table_name offset batch_size rest
           else raise e)
  end.

Definition extract_table_data (table_name : string) (offset batch_size : nat)
  : M (option (list row)) :=
  extract_attempts table_name offset batch_size (seq 0 (max_retries + 1)).

End WithEnv.
End Extractor.

(** ** extractor/src/utils/loader.py *)

Module Loader.
Import Extract.

Definition load_batch_into_database (env : Env) (table_name : string) (data : list row)
  : M unit :=
  Tools.load_batch_into_database env data table_name.

End Loader.

(** ** extractor/src/utils/orchestrator.py *)

Module Orchestrator.
Import Extract.
Local Open Scope py_scope.

Record t : Type := { batch_size : nat }.

(** [Orchestrator.__init__]: [self.batch_size = 500000] *)
Definition init : t := {| batch_size := 500 * 1000 |}.

Section WithEnv.
Variable env : Env.

Definition get_total_rows (table : string) : M nat :=
  now <- tick ;;
  emit (SelectCount table) ;;
  lift_result (select_count env now table).

(** [(total_extracted / total_rows) * 100 if total_rows > 0 else 0]: the
    quotient of the two ints is a float, and so is the product. The
    quotient is finite for every row count below 2^1024. *)
Definition progress_percentage (total_extracted total_rows : nat) : float :=
  if (0 <? total_rows)%nat
  then float_mul
         (match total_extracted with
          | O => SpecFloat.S754_zero false
          | S _ => int_true_divide (Pos.of_nat total_extracted) (Pos.of_nat total_rows)
          end)
         (float_of_int 100)
  else float_of_int 0.

Definition progress_entry (offset total_extracted total_rows : nat) : Entry :=
  {| offset := offset;
     total_extracted := total_extracted;
     total_rows := total_rows;
     percentage := float_round2 (progress_percentage total_extracted total_rows);
     completed := false |}.

Definition mark_completed (e : Entry) : Entry :=
  {| offset := offset e;
     total_extracted := total_extracted e;
     total_rows := total_rows e;
     percentage := percentage e;
     completed := true |}.

(** The [while True] loop of [process_table_completely]. Every iteration
    that does not leave the loop extracts at least one row and stays
    below [total_rows], so [S (total_rows - total_extracted)] iterations
    are always enough; [fuel] only makes the recursion structural. *)
Fixpoint copy_loop (fuel : nat) (self : t) (table : string)
  (total_rows offset total_extracted : nat) (last_extracted_info : gmap string Entry)
  : M (gmap string Entry) :=
  match fuel with
  | O => out_of_fuel
  | S fuel' =>
      data <- Extractor.extract_table_data env table offset (batch_size self) ;;
      match data with
      | None | Some [] => ret last_extracted_info           (* if not data: break *)
      | Some data =>
          Loader.load_batch_into_database env table data ;;
          let offset := offset + length data in
          let total_extracted := total_extracted + length data in
          let last_extracted_info :=
            <[table := progress_entry offset total_extracted total_rows]>
              last_extracted_info in
          Tools.save_last_extracted last_extracted_info ;;
          if (total_rows <=? total_extracted)%nat then ret last_extracted_info
          else copy_loop fuel' self table total_rows offset total_extracted
                         last_extracted_info
      end
  end.

Definition process_table_completely (self : t) (table : string) : M unit :=
  last_extracted_info <- Tools.load_last_extracted ;;
  let offset :=
    match last_extracted_info !! table with
    | Some e => Extract.offset e
    | None => 0
    end in
  let total_extracted := offset in
  total_rows <- get_total_rows table ;;
  last_extracted_info <-
    copy_loop (S (total_rows - total_extracted)) self table total_rows offset
              total_extracted last_extracted_info ;;
  match last_extracted_info !! table with
  | None => raise (KeyError table)    (* last_extracted_info[table]["completed"] = True *)
  | Some e =>
      Tools.save_last_extracted (<[table := mark_completed e]> last_extracted_info)
  end.

Fixpoint for_each_table (self : t) (last_extracted_info : gmap string Entry)
  (tables : list string) : M unit :=
  match tables with
  | [] => ret tt
  | table :: rest =>
      (match last_extracted_info !! table with
       | Some e =>
           if completed e then ret tt              (* skip: already processed *)
           else process_table_completely self table
       | None => process_table_completely self table
       end) ;;
      for_each_table self last_extracted_info rest
  end.

Definition process_orchestration (self : t) : M unit :=
  try_except
    (tables <- Extractor.process_tables_names env ;;
     last_extracted_info <- Tools.load_last_extracted ;;
     for_each_table self last_extracted_info tables)
    (fun e => raise e).

End WithEnv.
End Orchestrator.

(** ** transformer/src/utils/tools.py *)

Module TransformerTools.

(** [indicateur.split('.', 1)]: the text before the first dot and, when
    there is a dot, the text after it. *)
Fixpoint split_dot (s : list ascii) : list ascii * option (list ascii) :=
  match s with
  | [] => ([], None)
  | c :: s' =>
      if Ascii.eqb c "."%char then ([], Some s')
      else (c :: fst (split_dot s'), snd (split_dot s'))
  end.

Definition extract_indicateur_suffixe (indicateur : string) : string * option string :=
  (string_of_list_ascii (fst (split_dot (chars indicateur))),
   option_map string_of_list_ascii (snd (split_dot (chars indicateur)))).

(** [s.upper()] *)
Definition upper (s : list ascii) : list ascii := map to_upper s.

(** [extract_noeud(pattern, texts)]: for every text that the pattern
    matches at its start, the text with [match.group(1).upper()]. A group
    that took no part in the match is [None], which has no [upper]. *)
Fixpoint extract_noeud (pattern : Re.pattern) (texts : list string)
  : result (list (string * string)) :=
  match texts with
  | [] => Ok []
  | text :: rest =>
      match Re.re_match pattern text with
      | Some m =>
          match Re.group 1 m with
          | Some g =>
              let? matches := extract_noeud pattern rest in
              Ok ((text, string_of_list_ascii (upper g)) :: matches)
          | None => Raise AttributeError
          end
      | None => extract_noeud pattern rest
      end
  end.

End TransformerTools.

(** ** transformer/src/utils/config.py *)

Module TransformerConfig.
Local Open Scope Q_scope.

(** A formula is a lambda of one argument (numerator values) or of two
    (numerator and denominator values); it returns a number or [None], or
    raises. *)
Inductive formula : Type :=
| Lambda1 (f : list Q -> result (option Q))
| Lambda2 (f : list Q -> list Q -> result (option Q)).

Record kpi_config : Type := {
  numerator : option (list string);
  denominator : option (list string);
  kpi_formula : formula
}.

Record table_config : Type := { kpis : list (string * kpi_config) }.

Definition SUFFIX_OPERATOR_MAPPING : list (string * string) :=
  [("nw", "Inwi"); ("mt", "Maroc Telecom"); ("ie", "International");
   ("is", "International"); ("bs", "BSC 2G"); ("be", "BSC 2G");
   ("ne", "RNC 3G"); ("ns", "RNC 3G")]%string.

(** The lambdas of the configuration, over the arithmetic [A] of the
    numbers they are applied to. *)
Section Lambdas.
Context {N : Type} (A : arith N).

(** [lambda num: sum(num)] *)
Definition sum_lambda (num : list N) : result (option N) :=
  Ok (Some (sum_in A num)).

(** [lambda num, denom: (1 - sum(num) / sum(denom)) * 100 if sum(denom) != 0 else None] *)
Definition complement_percent_lambda (num denom : list N) : result (option N) :=
  if nonzero A (sum_in A denom) then
    let? q := div A (sum_in A num) (sum_in A denom) in
    Ok (Some (mul A (sub A (of_int A 1) q) (of_int A 100)))
  else Ok None.

(** [lambda num, denom: (sum(num) / sum(denom)) * 100 if sum(denom) != 0 else None] *)
Definition percent_lambda (num denom : list N) : result (option N) :=
  if nonzero A (sum_in A denom) then
    let? q := div A (sum_in A num) (sum_in A denom) in
    Ok (Some (mul A q (of_int A 100)))
  else Ok None.

(** [lambda num, denom: sum(num) / sum(denom) if sum(denom) != 0 else None] *)
Definition ratio_lambda (num denom : list N) : result (option N) :=
  if nonzero A (sum_in A denom) then
    let? q := div A (sum_in A num) (sum_in A denom) in Ok (Some q)
  else Ok None.

(** [lambda num, denom: (sum(num) / ((denom[0] * 2147483648 + denom[1]) + denom[2])) * 100
       if ((denom[0] * 2147483648 + denom[1]) + denom[2]) != 0 else None] *)
Definition PktLoss_lambda (num denom : list N) : result (option N) :=
  let? d0 := py_index denom 0 in
  let? d1 := py_index denom 1 in
  let? d2 := py_index denom 2 in
  if nonzero A (add A (add A (mul A d0 (of_int A 2147483648)) d1) d2) then
    let? q := div A (sum_in A num)
                    (add A (add A (mul A d0 (of_int A 2147483648)) d1) d2) in
    Ok (Some (mul A q (of_int A 100)))
  else Ok None.

(** [lambda num: (num[0] * 2147483648 + num[1])] *)
Definition pmRtpReceivedPkts_lambda (num : list N) : result (option N) :=
  let? n0 := py_index num 0 in
  let? n1 := py_index num 1 in
  Ok (Some (add A (mul A n0 (of_int A 2147483648)) n1)).

(** [lambda num: (sum(num) / (1000000 * 900)) * 8 * 100 * 1.2] *)
Definition TotalBwForSig_lambda (num : list N) : result (option N) :=
  let? q := div A (sum_in A num) (of_int A (1000000 * 900)) in
  Ok (Some (mul A (mul A (mul A q (of_int A 8)) (of_int A 100)) (of_literal A 12 10))).

(** [lambda num: num[0] - num[1]] *)
Definition NbIPTermination_lambda (num : list N) : result (option N) :=
  let? n0 := py_index num 0 in
  let? n1 := py_index num 1 in
  Ok (Some (sub A n0 n1)).

End Lambdas.

(** The formulas on exact numbers. *)
Definition sum_formula : formula := Lambda1 (sum_lambda rational).

Definition sum_kpi (counter : string) : kpi_config :=
  {| numerator := Some [counter]; denominator := None; kpi_formula := sum_formula |}.

Definition tables_5min : list (string * table_config) :=
  [("traffic_entree",
    {| kpis := [("traffic", sum_kpi "VoiproITRALAC");
                ("tentative_appel", sum_kpi "VoiproNCALLSI");
                ("appel_repondu", sum_kpi "VoiproIANSWER");
                ("appel_non_repondu", sum_kpi "VoiproIOVERFL")] |});
   ("traffic_sortie",
    {| kpis := [("traffic", sum_kpi "VoiproOTRALAC");
                ("tentative_appel", sum_kpi "VoiproNCALLSO");
                ("appel_repondu", sum_kpi "VoiproOANSWER");
                ("appel_non_repondu", sum_kpi "VoiproOOVERFL")] |})]%string.

Definition complement_percent : formula := Lambda2 (complement_percent_lambda rational).
Definition percent : formula := Lambda2 (percent_lambda rational).
Definition ratio : formula := Lambda2 (ratio_lambda rational).
Definition PktLoss_formula : formula := Lambda2 (PktLoss_lambda rational).
Definition pmRtpReceivedPkts_formula : formula := Lambda1 (pmRtpReceivedPkts_lambda rational).
Definition TotalBwForSig_formula : formula := Lambda1 (TotalBwForSig_lambda rational).
Definition NbIPTermination_formula : formula := Lambda1 (NbIPTermination_lambda rational).

Definition jitter (i : string) : string := ("pmVoIpConnMeasuredJitter" ++ i)%string.
Definition late (i : string) : string := ("pmVoIpConnLatePktsRatio" ++ i)%string.

Definition mgw_kpis : list (string * kpi_config) :=
      [("RateOfLowJitterStream",
        {| numerator := Some (map jitter ["4"; "5"; "6"; "7"; "8"]);
           denominator := Some (map jitter ["0"; "1"; "2"; "3"; "4"; "5"; "6"; "7"; "8"]);
           kpi_formula := complement_percent |});
       ("UseOfLicence",
        {| numerator := Some ["pmNrOfMeStChUsedVoip"];
           denominator := Some ["maxNrOfLicMediaStreamChannelsVoip"];
           kpi_formula := percent |});
       ("LatePktsRatio",
        {| numerator := Some (map late ["4"; "5"; "6"]);
           denominator := Some (map late ["0"; "1"; "2"; "3"; "4"; "5"; "6"]);
           kpi_formula := complement_percent |});
       ("LatePktsVoIp",
        {| numerator := Some ["pmLatePktsVoIp"];
           denominator := Some ["pmLatePktsVoIp"; "pmSuccTransmittedPktsVoIp"];
           kpi_formula := ratio |});
       ("MediaStreamChannelUtilisationRate",
        {| numerator := Some ["pmNrOfMediaStreamChannelsBusy"];
           denominator := Some ["maxNrOfLicMediaStreamChannels"];
           kpi_formula := percent |});
       ("IPQoS",
        {| numerator := Some [];
           denominator := None;
           kpi_formula := Lambda1 (fun _ => Ok None) |});
       ("PktLoss",
        {| numerator := Some ["pmRtpDiscardedPkts"; "pmRtpLostPkts"];
           denominator := Some ["pmRtpReceivedPktsHi"; "pmRtpReceivedPktsLo"; "pmRtpLostPkts"];
           kpi_formula := PktLoss_formula |});
       ("pmRtpReceivedPkts",
        {| numerator := Some ["pmRtpReceivedPktsHi"; "pmRtpReceivedPktsLo"];
           denominator := None;
           kpi_formula := pmRtpReceivedPkts_formula |});
       ("TotalBwForSig",
        {| numerator := Some ["pmSctpStatSentChunks"; "pmSctpStatRetransChunks"];
           denominator := Some [];
           kpi_formula := TotalBwForSig_formula |});
       ("NbIPTermination",
        {| numerator := Some ["pmNrOfIpTermsReq"; "pmNrOfIpTermsRej"];
           denominator := None;
           kpi_formula := NbIPTermination_formula |});
       ("traffic_load", sum_kpi "traffic_load")]%string.

Definition tables_mgw : list (string * table_config) :=
  [("mgw_kpis"%string, {| kpis := mgw_kpis |})].

(** [re.compile(r'^(CALIS|MEIND|RAIND)', re.IGNORECASE)] *)
Definition NOEUD_PATTERN : Re.pattern :=
  {| Re.source :=
       Re.seqs [Re.Bol;
                Re.Group 1 (Re.Alt (Re.seqs (Re.lits "CALIS"))
                              (Re.Alt (Re.seqs (Re.lits "MEIND"))
                                      (Re.seqs (Re.lits "RAIND"))))];
     Re.IGNORECASE := true |}.

(** [FILES_PATHS['5min']] *)
Definition FILES_PATHS_5min : string := "./data/our_data/result_5min.txt".

End TransformerConfig.

(** ** transformer/src/utils/transformer.py *)

Module Transformer.
Import TransformerConfig.

Record t : Type := {
  tables : list (string * table_config);
  suffix_operator_mapping : list (string * string);
  batch_size : nat                     (* 98000 in [__init__] *)
}.

(** A row of the DataFrame built by [extract_data]. *)
Record df_row : Type := { Date : string; indicateur : string; valeur : Q }.

(** An entry of the dict returned by [aggregate_by_suffix]. *)
Record suffix_group : Type := { group_operator : string; counters : gmap string Q }.

(** A buffered KPI detail row. *)
Record detail_row : Type := {
  kpi_id : Z;
  operator : string;
  kpi_values : list (string * option Q);
  suffix : string
}.

Inductive sqlval : Type :=
| SqlNull
| SqlInt (n : Z)
| SqlStr (s : string)
| SqlNum (q : Q).

(** [INSERT INTO into (columns) VALUES (...)] run with [executemany]. *)
Record insert_stmt : Type := {
  into : string;
  columns : list string;
  rows : list (list sqlval)
}.

Inductive log_record : Type :=
| WarningUnmappedSuffixes (suffixes : list string)
| WarningNoValidKpiValues (table_name : string) (kpi_id : Z) (operator suffix : string)
| WarningNoValidKpis (table_name : string) (kpi_id : Z) (operator suffix : string).

(** Destination database and log of one transformer. *)
Record World : Type := {
  committed : list insert_stmt;        (* oldest first *)
  rollbacks : nat;
  log : list log_record                (* oldest first *)
}.

Definition add_log (l : list log_record) (w : World) : World :=
  {| committed := committed w; rollbacks := rollbacks w; log := log w ++ l |}.
Definition commit (s : insert_stmt) (w : World) : World :=
  {| committed := committed w ++ [s]; rollbacks := rollbacks w; log := log w |}.
Definition rollback (w : World) : World :=
  {| committed := committed w; rollbacks := S (rollbacks w); log := log w |}.

(** [{...}.get(key)] on a dict kept as an association list. *)
Fixpoint assoc {A} (key : string) (d : list (string * A)) : option A :=
  match d with
  | [] => None
  | (k, v) :: d' => if String.eqb k key then Some v else assoc key d'
  end.

(** [[counters.get(counter, 0) for counter in names]] *)
Definition resolve (counters : gmap string Q) (names : list string) : list Q :=
  map (fun counter => default 0%Q (counters !! counter)) names.

(** [formula(numerator, denominator)] or [formula(numerator)]; calling a
    lambda with the wrong number of arguments is a [TypeError]. *)
Definition call (f : formula) (numerator : list Q) (denominator : option (list Q))
  : result (option Q) :=
  match denominator, f with
  | Some denominator, Lambda2 g => g numerator denominator
  | None, Lambda1 g => g numerator
  | Some _, Lambda1 _ | None, Lambda2 _ => Raise TypeError
  end.

(** The [try] block of [calculate_kpis] for one KPI: the formula takes
    the denominator values when the config has the key ['denominator']. *)
Definition evaluate (counters : gmap string Q) (config : kpi_config)
  : result (option Q) :=
  let numerator := resolve counters (default [] (numerator config)) in
  call (kpi_formula config) numerator
       (option_map (resolve counters) (denominator config)).

Definition calculate_kpis (counters : gmap string Q)
  (kpi_configs : list (string * kpi_config)) : list (string * option Q) :=
  map (fun kc =>
         (fst kc,
          match evaluate counters (snd kc) with
          | Ok v => v
          | Raise ZeroDivisionError => None
          | Raise _ => None
          end))
      kpi_configs.

(** The lambda of [aggregate_by_suffix], applied to the suffix:
    [next((v for k, v in mapping.items() if k and k.lower() in s), 'Other')]
    with [s] the lower-cased suffix. *)
Definition key_matches (s : list ascii) (k : string) : bool :=
  negb (String.eqb k "") && contains (lower (chars k)) s.

Definition resolve_operator (mapping : list (string * string)) (suffix : string) : string :=
  let s := lower (chars suffix) in
  match List.find (fun kv => key_matches s (fst kv)) mapping with
  | Some kv => snd kv
  | None => "Other"
  end.

(** Sorted list without repetitions, the key order of [groupby] and
    [sorted(set(...))]. *)
Fixpoint insert_unique (x : string) (l : list string) : list string :=
  match l with
  | [] => [x]
  | y :: l' =>
      if String.eqb x y then l
      else if String.ltb x y then x :: l
      else y :: insert_unique x l'
  end.
Definition sorted_unique (l : list string) : list string :=
  fold_right insert_unique [] l.

(** A DataFrame row after the columns [prefix], [suffix] and [operator]
    have been added and rows without a usable suffix removed. *)
Record tagged_row : Type := {
  row_prefix : string;
  row_suffix : string;
  row_operator : string;
  row_valeur : Q
}.

Definition tag_rows (self : t) (df : list df_row) : list tagged_row :=
  flat_map
    (fun r =>
       match TransformerTools.extract_indicateur_suffixe (indicateur r) with
       | (prefix, Some suffix) =>
           if String.eqb suffix "M" then []
           else [{| row_prefix := prefix;
                    row_suffix := suffix;
                    row_operator := resolve_operator (suffix_operator_mapping self) suffix;
                    row_valeur := valeur r |}]
       | (_, None) => []
       end)
    df.

(** [groupby(['suffix', 'prefix'])['valeur'].sum()] at one cell, zero when
    the cell is empty ([unstack(fill_value=0)]). *)
Definition cell_sum (rows : list tagged_row) (suffix prefix : string) : Q :=
  py_sum (map row_valeur
            (List.filter (fun r => String.eqb (row_suffix r) suffix
                                   && String.eqb (row_prefix r) prefix) rows)).

Definition first_operator (rows : list tagged_row) (suffix : string) : string :=
  match List.find (fun r => String.eqb (row_suffix r) suffix) rows with
  | Some r => row_operator r
  | None => "Other"
  end.

(** Returns the grouped dict, keyed by suffix in sorted order, and the
    warning logged for unmapped suffixes, if any. An empty DataFrame
    cannot be unpacked by the [zip] over its rows and raises. *)
Definition aggregate_by_suffix (self : t) (df : list df_row)
  : result (list (string * suffix_group) * list log_record) :=
  match df with
  | [] => Raise ValueError
  | _ :: _ =>
      let rows := tag_rows self df in
      let prefixes := sorted_unique (map row_prefix rows) in
      let grouped :=
        map (fun suffix =>
               (suffix,
                {| group_operator := first_operator rows suffix;
                   counters :=
                     list_to_map
                       (map (fun prefix => (prefix, cell_sum rows suffix prefix)) prefixes) |}))
            (sorted_unique (map row_suffix rows)) in
      let unmapped :=
        sorted_unique
          (map row_suffix
               (List.filter (fun r => String.eqb (row_operator r) "Other") rows)) in
      Ok (grouped,
          match unmapped with
          | [] => []
          | _ :: _ => [WarningUnmappedSuffixes unmapped]
          end)
  end.

Definition sql_of (v : option Q) : sqlval :=
  match v with
  | Some q => SqlNum q
  | None => SqlNull
  end.

(** [{kpi: value for kpi, value in row['kpi_values'].items() if value is not None}] *)
Definition valid_kpis (row : detail_row) : list (string * Q) :=
  flat_map (fun kv => match snd kv with
                      | Some value => [(fst kv, value)]
                      | None => []
                      end)
           (kpi_values row).

(** The [for row in batch] loop of [insert_kpi_details]: the tuples to
    insert and the warnings for the rows left out. *)
Fixpoint detail_values (table_name : string) (kpi_configs : list (string * kpi_config))
  (batch : list detail_row) : list (list sqlval) * list log_record :=
  match batch with
  | [] => ([], [])
  | row :: rest =>
      let values := detail_values table_name kpi_configs rest in
      match valid_kpis row with
      | [] =>
          (fst values,
           WarningNoValidKpiValues table_name (kpi_id row) (operator row) (suffix row)
             :: snd values)
      | _ :: _ =>
          (([SqlInt (kpi_id row); SqlStr (operator row); SqlStr (suffix row)]
              ++ map (fun kc => sql_of (assoc (fst kc) (valid_kpis row))) kpi_configs)
             :: fst values,
           snd values)
      end
  end.

Section WithDatabase.
(** Whether the destination accepts a statement; a refusal is a
    [MySQLdb.Error] raised by [executemany]. *)
Variable accepts : insert_stmt -> bool.

Definition insert_kpi_details (self : t) (table_name : string) (batch : list detail_row)
  (w : World) : result unit * World :=
  match assoc table_name (tables self) with
  | None => (Raise (KeyError table_name), rollback w)
  | Some table_config =>
      let kpi_configs := kpis table_config in
      let columns := ["kpi_id"; "operator"; "suffix"] ++ map fst kpi_configs in
      let values := detail_values table_name kpi_configs batch in
      let w := add_log (snd values) w in
      match fst values with
      | [] => (Ok tt, w)
      | _ :: _ =>
          let stmt := {| into := table_name; columns := columns; rows := fst values |} in
          if accepts stmt then (Ok tt, commit stmt w)
          else (Raise MySQLError, rollback w)
      end
  end.

(** Lines 243-255 of [process]: the loop over [suffix_data.items()] for
    one destination table. Returns the rows to append and the warnings. *)
Fixpoint buffer_rows (table_name : string) (kpi_configs : list (string * kpi_config))
  (kpi_id : Z) (suffix_data : list (string * suffix_group))
  : list detail_row * list log_record :=
  match suffix_data with
  | [] => ([], [])
  | (suffix, data) :: rest =>
      let more := buffer_rows table_name kpi_configs kpi_id rest in
      let operator := group_operator data in
      let kpi_values := calculate_kpis (counters data) kpi_configs in
      if existsb (fun kv => match snd kv with Some _ => true | None => false end) kpi_values
      then ({| kpi_id := kpi_id; operator := operator;
               kpi_values := kpi_values; suffix := suffix |} :: fst more,
            snd more)
      else (fst more, WarningNoValidKpis table_name kpi_id operator suffix :: snd more)
  end.

(** Lines 241-263 of [process]: for one date, once [kpi_id] and
    [suffix_data] are known, buffer the rows of every destination table
    and flush a buffer that reached [batch_size]. *)
Fixpoint process_date (self : t) (kpi_id : Z) (suffix_data : list (string * suffix_group))
  (tables : list (string * table_config)) (batch_data : gmap string (list detail_row))
  (w : World) : result (gmap string (list detail_row)) * World :=
  match tables with
  | [] => (Ok batch_data, w)
  | (table_name, table_config) :: rest =>
      let buffered := buffer_rows table_name (kpis table_config) kpi_id suffix_data in
      let w := add_log (snd buffered) w in
      match batch_data !! table_name with
      | None => (Raise (KeyError table_name), w)         (* batch_data[table_name] *)
      | Some buffer =>
          let buffer := buffer ++ fst buffered in
          let batch_data := <[table_name := buffer]> batch_data in
          if (batch_size self <=? length buffer)%nat then
            match insert_kpi_details self table_name buffer w with
            | (Ok _, w) =>
                process_date self kpi_id suffix_data rest (<[table_name := []]> batch_data) w
            | (Raise e, w) => (Raise e, w)
            end
          else process_date self kpi_id suffix_data rest batch_data w
      end
  end.

(** Lines 282-290 of [process]: flush what is left in the buffers. *)
Fixpoint flush_remaining (self : t) (table_names : list string)
  (batch_data : gmap string (list detail_row)) (w : World)
  : result (gmap string (list detail_row)) * World :=
  match table_names with
  | [] => (Ok batch_data, w)
  | table_name :: rest =>
      match batch_data !! table_name with
      | Some ((_ :: _) as buffer) =>
          match insert_kpi_details self table_name buffer w with
          | (Ok _, w) => flush_remaining self rest (<[table_name := []]> batch_data) w
          | (Raise e, w) => (Raise e, w)
          end
      | _ => flush_remaining self rest batch_data w
      end
  end.

End WithDatabase.

Section Buffers.
Variable accepts : insert_stmt -> bool.

(** Line 201 of [process]:
    [batch_data = {table_name: [] for table_name in self.tables}] *)
Definition empty_buffers (self : t) : gmap string (list detail_row) :=
  list_to_map (map (fun table => (fst table, [])) (tables self)).

(** The part of [process] that fills and flushes the buffers. [work]
    lists, in the order [process] reaches them, the dates for which
    [insert_kpi_summary] and [aggregate_by_suffix] returned, each with
    its [kpi_id] and its [suffix_data]; lines 241-263 run for each of
    them. *)
Fixpoint process_dates (self : t) (work : list (Z * list (string * suffix_group)))
  (batch_data : gmap string (list detail_row)) (w : World)
  : result (gmap string (list detail_row)) * World :=
  match work with
  | [] => (Ok batch_data, w)
  | (kpi_id, suffix_data) :: rest =>
      match process_date accepts self kpi_id suffix_data (tables self) batch_data w with
      | (Ok batch_data, w) => process_dates self rest batch_data w
      | (Raise e, w) => (Raise e, w)
      end
  end.

(** ... followed by lines 282-290, [for table_name in batch_data], which
    visits the tables in the order of [self.tables]. *)
Definition process_buffers (self : t) (work : list (Z * list (string * suffix_group)))
  (w : World) : result unit * World :=
  match process_dates self work (empty_buffers self) w with
  | (Ok batch_data, w) =>
      match flush_remaining accepts self (map fst (tables self)) batch_data w with
      | (Ok _, w) => (Ok tt, w)
      | (Raise e, w) => (Raise e, w)
      end
  | (Raise e, w) => (Raise e, w)
  end.

End Buffers.

(** [extract_node], with [self.node_pattern] passed as [node_pattern]:
    the node of the first (and only) match, [None] when the table name
    does not match. *)
Definition extract_node (node_pattern : Re.pattern) (table : string)
  : result (option string) :=
  let? matches := TransformerTools.extract_noeud node_pattern [table] in
  match matches with
  | (_, node) :: _ => Ok (Some node)
  | [] => Ok None
  end.

(** [range(0, stop, step)] for a positive [step]. *)
Definition range_step (stop step : nat) : list nat :=
  map (fun k => k * step) (seq 0 ((stop + step - 1) / step)).

(** In [process]: [batch_size = 500] and
    [[dates[i:i + batch_size] for i in range(0, len(dates), batch_size)]]. *)
Definition date_batch_size : nat := 500.
Definition date_batches (dates : list string) : list (list string) :=
  map (fun i => firstn date_batch_size (skipn i dates))
      (range_step (length dates) date_batch_size).

(** Reading a text file in the default mode: ["\r\n"] and ["\r"] arrive
    as ["\n"]. *)
Fixpoint universal_newlines (s : list ascii) : list ascii :=
  match s with
  | [] => []
  | c :: s' =>
      if Ascii.eqb c "013"%char then
        "010"%char ::
        match s' with
        | c' :: s'' =>
            if Ascii.eqb c' "010"%char then universal_newlines s''
            else universal_newlines s'
        | [] => []
        end
      else c :: universal_newlines s'
  end.

(** [for line in f]: the lines of the text, each with its ["\n"]. *)
Fixpoint file_lines (s : list ascii) : list (list ascii) :=
  match s with
  | [] => []
  | c :: s' =>
      if Ascii.eqb c "010"%char then [c] :: file_lines s'
      else match file_lines s' with
           | [] => [[c]]
           | l :: ls => (c :: l) :: ls
           end
  end.

(** [c.isspace()] for the characters below 256. *)
Definition is_space (c : ascii) : bool :=
  let n := nat_of_ascii c in
  ((9 <=? n)%nat && (n <=? 13)%nat) || ((28 <=? n)%nat && (n <=? 32)%nat)
  || (n =? 133)%nat || (n =? 160)%nat.

Fixpoint lstrip (s : list ascii) : list ascii :=
  match s with
  | [] => []
  | c :: s' => if is_space c then lstrip s' else s
  end.

(** [s.strip()] *)
Definition strip (s : list ascii) : list ascii := rev (lstrip (rev (lstrip s))).

(** [load_tables]: [file] is the text of [self.file_path], [None] when
    the file does not exist ([FileNotFoundError], logged and raised
    again). [[line.strip() for line in f if line.strip()]] *)
Definition load_tables (file : option (list ascii)) : result (list string) :=
  match file with
  | None => Raise OtherException
  | Some text =>
      Ok (map string_of_list_ascii
            (List.filter (fun line => negb (Nat.eqb (length line) 0))
               (map strip (file_lines (universal_newlines text)))))
  end.

End Transformer.

(** ** manager/dags/etl_pipeline.py *)

Module EtlPipeline.

(** What [check_extraction_completion] can find at
    [/opt/airflow/data/last_extracted.json]. *)
Inductive checkpoint_file : Type :=
| NoFile                                   (* os.path.exists is false *)
| EmptyFile                                (* os.path.getsize is 0 *)
| BlankFile                                (* only whitespace *)
| InvalidJson                              (* json.load raises JSONDecodeError *)
| JsonObject (data : list (string * Extract.Entry)).   (* in file order *)

(** What the [try] block can raise: a [json.JSONDecodeError], or the
    [ValueError] of the loop over the tables. *)
Inductive raised : Type :=
| JSONDecodeError
| NotFullyExtracted (table : string).

(** The loop [for table, info in data.items()]. *)
Fixpoint check_tables (data : list (string * Extract.Entry)) : unit + raised :=
  match data with
  | [] => inl tt
  | (table, info) :: rest =>
      if negb (Extract.completed info) then inr (NotFullyExtracted table)
      else check_tables rest
  end.

(** The [try] block, from [json.load] on. *)
Definition check_body (file : checkpoint_file) : unit + raised :=
  match file with
  | InvalidJson => inr JSONDecodeError
  | JsonObject [] => inl tt                (* if not data: return *)
  | JsonObject data => check_tables data
  | NoFile | EmptyFile | BlankFile => inl tt
  end.

(** [except json.JSONDecodeError] raises a [ValueError]; the
    [ValueError] of the loop is no [JSONDecodeError] and falls to
    [except Exception], which raises a plain [Exception]. *)
Definition check_extraction_completion (file : checkpoint_file) : result unit :=
  match file with
  | NoFile | EmptyFile | BlankFile => Ok tt
  | _ =>
      match check_body file with
      | inl _ => Ok tt
      | inr JSONDecodeError => Raise ValueError
      | inr (NotFullyExtracted _) => Raise OtherException
      end
  end.

End EtlPipeline.

(** ** Sample inputs used to exercise the statements *)

Module Samples.
Import Extract.

Definition empty_world : World :=
  {| clock := 0; last_extracted_json := ∅; dest_tables := ∅; txt_files := ∅; trace := [] |}.

(** A source table of [n] rows whose values alternate NaN and 0.0. *)
Definition source_rows (n : nat) : list (pyval * pyval * pyval) :=
  map (fun i => (PyDatetime (738886 + Z.of_nat i) 0, PyInt 1,
                 PyFloat (if Nat.even i then S754_nan else S754_zero false)))
      (seq 0 n).

(** A source that never changes and never fails. *)
Definition static_env (n : nat) : Env :=
  {| show_tables := Ok ["CALIS_APG43_5_S12_A2024"];
     select_count := fun _ _ => Ok n;
     select_batch := fun _ _ offset limit => Fetched (firstn limit (skipn offset (source_rows n)));
     indicator_csv := fun _ => {[ 1%Z := "VoiproITRALAC.nw" ]};
     insert_accepted := fun _ _ _ => true |}.

(** A source whose batch query always fails with a [MySQLdb.Error]. *)
Definition mysql_error_env : Env :=
  {| show_tables := Ok ["CALIS_APG43_5_S12_A2024"];
     select_count := fun _ _ => Ok 5;
     select_batch := fun _ _ _ _ => FetchMySQLError;
     indicator_csv := fun _ => {[ 1%Z := "VoiproITRALAC.nw" ]};
     insert_accepted := fun _ _ _ => true |}.


(** A source whose batch query raises an exception other than
    [MySQLdb.Error] at the first two statements sent and answers from
    then on. *)
Definition flaky_env (n : nat) : Env :=
  {| show_tables := Ok ["CALIS_APG43_5_S12_A2024"];
     select_count := fun _ _ => Ok n;
     select_batch := fun now _ offset limit =>
       if (now <? 2)%nat then FetchOtherError
       else Fetched (firstn limit (skipn offset (source_rows n)));
     indicator_csv := fun _ => {[ 1%Z := "VoiproITRALAC.nw" ]};
     insert_accepted := fun _ _ _ => true |}.

(** A source whose batch query always fails with another exception. *)
Definition other_error_env : Env :=
  {| show_tables := Ok ["CALIS_APG43_5_S12_A2024"];
     select_count := fun _ _ => Ok 5;
     select_batch := fun _ _ _ _ => FetchOtherError;
     indicator_csv := fun _ => {[ 1%Z := "VoiproITRALAC.nw" ]};
     insert_accepted := fun _ _ _ => true |}.

(** A checkpoint file in which the table of [static_env] is completed. *)
Definition completed_entry : Entry :=
  {| offset := 5; total_extracted := 5; total_rows := 5; percentage := 100;
     completed := true |}.
Definition completed_world : World :=
  {| clock := 0;
     last_extracted_json := {[ "CALIS_APG43_5_S12_A2024" := completed_entry ]};
     dest_tables := ∅; txt_files := ∅; trace := [] |}.

(** A checkpoint file in which the copy of the table stopped at offset 2. *)
Definition interrupted_entry : Entry :=
  {| offset := 2; total_extracted := 2; total_rows := 5; percentage := 40;
     completed := false |}.
Definition interrupted_world : World :=
  {| clock := 0;
     last_extracted_json := {[ "CALIS_APG43_5_S12_A2024" := interrupted_entry ]};
     dest_tables := ∅; txt_files := ∅; trace := [] |}.

(** An orchestrator that copies two rows at a time. *)
Definition small_batches : Orchestrator.t := {| Orchestrator.batch_size := 2 |}.

Definition sample_batch : list row :=
  [[PyDatetime 738886 0; PyStr "VoiproITRALAC.nw"; PyFloat S754_nan];
   [PyDatetime 738886 0; PyStr "VoiproIANSWER.mt"; PyFloat (S754_zero false)]].

(** Names as [SHOW TABLES] may list them: two separators, lower case, a
    week that is no week, a name that only contains the suffix, and a
    name of no category. *)
Definition table_names : list string :=
  ["MEIND_APG43_5_S10_A2024"; "CALIS-APG43-5_S02_A2024"; "calis_apg43_5_s01_a2023";
   "RAIND_APG43_15_S03_A2024"; "X1MGW_S05_A2024"; "CALIS_APG43_5_S99_A2024";
   "CALIS_APG43_5_S12_A2024_old"; "RAIND_APG43_5_S00_A2024"; "other"].

End Samples.

Module KpiSamples.
Import TransformerConfig Transformer.

Definition empty_world : World := {| committed := []; rollbacks := 0; log := [] |}.



(** One destination table with two KPI columns. *)
Definition two_kpis : list (string * kpi_config) :=
  [("a", sum_kpi "a"); ("b", sum_kpi "b")].
Definition two_columns : Transformer.t :=
  {| tables := [("t", {| kpis := two_kpis |})];
     suffix_operator_mapping := SUFFIX_OPERATOR_MAPPING;
     batch_size := 2 |}.

(** A row with one value and one null, and a row with nulls only. *)
Definition half_null_row : detail_row :=
  {| kpi_id := 1; operator := "Inwi"; kpi_values := [("a", Some 1%Q); ("b", None)];
     suffix := "xyz-nw" |}.
Definition all_null_row : detail_row :=
  {| kpi_id := 1; operator := "Other"; kpi_values := [("a", None); ("b", None)];
     suffix := "zzz" |}.

(** A DataFrame whose only row carries the suffix ["M"]. *)
Definition sentinel_only : list df_row :=
  [{| Date := "2024-01-01 00:00:00"; indicateur := "pmRtpLostPkts.M"; valeur := 3%Q |}].

Definition mgw : Transformer.t :=
  {| tables := tables_mgw;
     suffix_operator_mapping := SUFFIX_OPERATOR_MAPPING;
     batch_size := 98 * 1000 |}.

(** The rows of one date for two operators, with a row that has no
    suffix and a row of suffix ["M"], and what [aggregate_by_suffix]
    makes of them. *)
Definition two_operators : list df_row :=
  [{| Date := "2024-01-01 00:00:00"; indicateur := "VoiproITRALAC.x-nw"; valeur := 1%Q |};
   {| Date := "2024-01-01 00:00:00"; indicateur := "VoiproITRALAC.y-mt"; valeur := 2%Q |};
   {| Date := "2024-01-01 00:00:00"; indicateur := "VoiproITRALAC.x-nw"; valeur := 4%Q |};
   {| Date := "2024-01-01 00:00:00"; indicateur := "VoiproNCALLSI"; valeur := 8%Q |};
   {| Date := "2024-01-01 00:00:00"; indicateur := "VoiproNCALLSI.M"; valeur := 16%Q |}].
Definition two_operators_grouped : list (string * suffix_group) * list log_record :=
  Eval vm_compute in
    match aggregate_by_suffix mgw two_operators with
    | Ok r => r
    | Raise _ => ([], [])
    end.

(** Two dates: the first with the suffix groups of two operators, the
    second with one group; with [two_columns] the buffer of table ["t"]
    is flushed once on the way and once at the end. *)
Definition sample_work : list (Z * list (string * suffix_group)) :=
  [(1%Z, [("x-nw", {| group_operator := "Inwi"; counters := {[ "a" := 1%Q ]} |});
          ("y-mt", {| group_operator := "Maroc Telecom"; counters := {[ "b" := 2%Q ]} |})]);
   (2%Z, [("x-nw", {| group_operator := "Inwi"; counters := {[ "a" := 3%Q ]} |})])].

End KpiSamples.

(** ** Vocabulary of the statements about the copier *)

Module CopierSpec.
Import Extract.

(** An event leaves table [T] alone: it neither reads nor writes [T] in
    either database, and a checkpoint file it saves maps [T] to [e]. *)
Definition silent (T : string) (e : option Entry) (ev : event) : Prop :=
  match ev with
  | SelectCount t | SelectBatch t _ _ | CreateTable t | InsertRows t _ | Rollback t => t <> T
  | SaveLastExtracted content => content !! T = e
  | ShowTables | Sleep _ | StoreTxt _ _ | Log _ => True
  end.

(** Running [c] from a world whose checkpoint maps [T] to [e] leaves
    [T] alone, whatever the outcome, and a returned value satisfies [Q]. *)
Definition quiet {A} (T : string) (e : option Entry) (c : M A) (Q : A -> Prop) : Prop :=
  forall w, last_extracted_json w !! T = e ->
    exists evs,
      last_extracted_json (snd (c w)) !! T = e /\
      dest_tables (snd (c w)) !! T = dest_tables w !! T /\
      trace (snd (c w)) = trace w ++ evs /\
      Forall (silent T e) evs /\
      (forall a, fst (c w) = Returns a -> Q a).

(** The value of [T] in each checkpoint file saved by a run of events. *)
Definition saved_entries (T : string) (evs : list event) : list (option Entry) :=
  flat_map (fun ev => match ev with
                      | SaveLastExtracted content => [content !! T]
                      | _ => []
                      end) evs.

(** Each offset exceeds the one before it by at least 1 and at most [B]. *)
Fixpoint strict_steps (B : nat) (prev : nat) (offsets : list nat) : Prop :=
  match offsets with
  | [] => True
  | o :: rest => prev < o /\ o <= prev + B /\ strict_steps B o rest
  end.

(** The offset a copy of [table] starts from. *)
Definition initial_offset (w : World) (table : string) : nat :=
  match last_extracted_json w !! table with
  | Some e => offset e
  | None => 0
  end.

(** The world after one batch SELECT has been sent. *)
Definition after_select (w : World) (table : string) (offset limit : nat) : World :=
  {| clock := S (clock w);
     last_extracted_json := last_extracted_json w;
     dest_tables := dest_tables w;
     txt_files := txt_files w;
     trace := trace w ++ [SelectBatch table offset limit] |}.

(** The world after the row count of a table has been asked for. *)
Definition after_count (w : World) (table : string) : World :=
  {| clock := S (clock w);
     last_extracted_json := last_extracted_json w;
     dest_tables := dest_tables w;
     txt_files := txt_files w;
     trace := trace w ++ [SelectCount table] |}.

(** What [tools.extract_table_data] returns for each answer of the source. *)
Definition fetch_result (env : Env) (table : string) (answer : fetch_outcome)
  : outcome (option (list row)) :=
  match answer with
  | FetchOtherError => Raises OtherException
  | FetchMySQLError => Returns None
  | Fetched [] => Returns None
  | Fetched (r :: raw) =>
      if decide (indicator_csv env table = ∅) then Returns None
      else Returns (Some (map (Tools.attach_indicator (indicator_csv env table)) (r :: raw)))
  end.

(** The batch produced at offset [o] from a source holding [src]. *)
Definition batch_at (env : Env) (table : string) (limit : nat)
  (src : list (pyval * pyval * pyval)) (o : nat) : list row :=
  map (Tools.attach_indicator (indicator_csv env table)) (firstn limit (skipn o src)).

(** A checkpoint entry written after a batch of a table of [R] rows. *)
Definition progress_saved (R : nat) (en : Entry) : Prop :=
  total_extracted en = offset en /\ total_rows en = R /\ completed en = false.

(** The first fetch of a table yields no rows to process. *)
Definition fetch_yields_nothing (env : Env) (clk : nat) (table : string)
  (offset limit : nat) : Prop :=
  match select_batch env clk table offset limit with
  | Fetched [] => True
  | Fetched (_ :: _) => indicator_csv env table = ∅
  | FetchMySQLError => True
  | FetchOtherError => False
  end.

End CopierSpec.

(** ** Vocabulary of the statements about the transformer *)

Module KpiSpec.
Import TransformerConfig Transformer.
Local Open Scope Q_scope.




(** [k] occurs in [s] when case is ignored. *)
Definition occurs_ignoring_case (k s : string) : Prop :=
  exists pre post, lower (chars s) = pre ++ lower (chars k) ++ post.

(** Reading the mapping rule without the guard on empty keys: the label
    of the first entry whose key occurs in the suffix, case ignored. *)
Definition first_substring_label (mapping : list (string * string)) (s : string) : string :=
  match List.find (fun kv => contains (lower (chars (fst kv))) (lower (chars s))) mapping with
  | Some kv => snd kv
  | None => "Other"%string
  end.

(** A buffered row carries at least one KPI value that is not null. *)
Definition has_value (row : detail_row) : bool :=
  existsb (fun kv => match snd kv with Some _ => true | None => false end) (kpi_values row).

(** The tuple bound to a row: its identifiers, then for every KPI column
    of the table the value of the row, NULL when the row has none. *)
Definition detail_tuple (kpi_configs : list (string * kpi_config)) (row : detail_row)
  : list sqlval :=
  [SqlInt (kpi_id row); SqlStr (operator row); SqlStr (suffix row)]
  ++ map (fun kc => match assoc (fst kc) (kpi_values row) with
                    | Some (Some q) => SqlNum q
                    | Some None | None => SqlNull
                    end) kpi_configs.

Definition no_valid_values_warning (table_name : string) (row : detail_row) : log_record :=
  WarningNoValidKpiValues table_name (kpi_id row) (operator row) (suffix row).

(** Reading "null columns are omitted from the insert" literally: a
    statement committed for a batch does not name a KPI column for which
    a row of the batch holds null. *)
Definition null_columns_omitted : Prop :=
  forall (accepts : insert_stmt -> bool) (self : Transformer.t) (table_name : string)
         (batch : list detail_row) (w : World) (stmt : insert_stmt) (row : detail_row)
         (kpi : string),
    In stmt (committed (snd (insert_kpi_details accepts self table_name batch w))) ->
    ~ In stmt (committed w) ->
    In row batch -> has_value row = true ->
    assoc kpi (kpi_values row) = Some None ->
    ~ In kpi (columns stmt).

End KpiSpec.

(** ** Vocabulary of the statements about the buffers of the transformer *)

Module BufferSpec.
Import TransformerConfig Transformer.

(** The tuples that a run of statements inserts into one table. *)
Definition rows_into (table_name : string) (stmts : list insert_stmt) : list (list sqlval) :=
  flat_map (fun stmt => if String.eqb (into stmt) table_name then rows stmt else []) stmts.

(** The detail rows that [process] computes for one table, date after
    date. *)
Definition computed_rows (table_name : string) (kpi_configs : list (string * kpi_config))
  (work : list (Z * list (string * suffix_group))) : list detail_row :=
  flat_map (fun date => fst (buffer_rows table_name kpi_configs (fst date) (snd date))) work.

End BufferSpec.

(** ** Vocabulary of the statements about table selection *)

Module SelectSpec.
Import Re Extract ExtractorConfig.

(** Every match of the regex sets group [n]. *)
Fixpoint defines (n : nat) (r : regex) : bool :=
  match r with
  | Group k r1 => (k =? n)%nat || defines n r1
  | Seq r1 r2 => defines n r1 || defines n r2
  | Alt r1 r2 => defines n r1 && defines n r2
  | Eps | Lit _ | Class _ | Plus _ | Bol | Eol => false
  end.

(** The regex without its capturing groups. *)
Fixpoint strip (r : regex) : regex :=
  match r with
  | Group _ r1 => strip r1
  | Seq r1 r2 => Seq (strip r1) (strip r2)
  | Alt r1 r2 => Alt (strip r1) (strip r2)
  | Eps | Lit _ | Class _ | Plus _ | Bol | Eol => r
  end.

(** The table name matches the pattern of a category. *)
Definition matches (p : pattern) (table : string) : bool :=
  match re_match p table with
  | Some _ => true
  | None => false
  end.

(** The week and the year written in the suffix [_S{week}_A{year}]. *)
Definition week_year_of (table : string) : option (Z * Z) :=
  match re_search Tools.week_year_suffix table with
  | Some m =>
      match group 1 m, group 2 m with
      | Some week, Some year => Some (int_of_digits week, int_of_digits year)
      | _, _ => None
      end
  | None => None
  end.

(** The Monday of the week written in the suffix, when there is one. *)
Definition table_date (table : string) : option Calendar.datetime :=
  match week_year_of table with
  | Some (week, year) =>
      match Calendar.strptime_year_week_monday year week with
      | Ok d => Some d
      | Raise _ => None
      end
  | None => None
  end.

(** The suffix resolves to a date on or after the cutoff. *)
Definition on_or_after (cutoff : Calendar.datetime) (table : string) : bool :=
  match table_date table with
  | Some d => Calendar.datetime_ge d cutoff
  | None => false
  end.

Definition selected (p : pattern) (cutoff : Calendar.datetime) (table : string) : bool :=
  matches p table && on_or_after cutoff table.

(** What [filter_by_start_date] logs for a table. *)
Definition date_log (cutoff : Calendar.datetime) (table : string) : log_record :=
  match week_year_of table with
  | None => WarningNoWeekYear table
  | Some _ =>
      match table_date table with
      | None => WarningInvalidDate table
      | Some d =>
          if Calendar.datetime_ge d cutoff then InfoIncluding table d
          else InfoSkippingBefore table d
      end
  end.

(** Order on the keys (year, week). *)
Definition key_lex_le (a b : Z * Z) : Prop :=
  (fst a < fst b)%Z \/ (fst a = fst b /\ (snd a <= snd b)%Z).

(** The list is in ascending order of the key computed by
    [sort_by_year_and_week]. *)
Definition sorted_by_year_week (l : list string) : Prop :=
  exists keys,
    Forall2 (fun table k => Tools.sort_key table = Ok k) l keys /\
    StronglySorted key_lex_le keys.

(** Order on decorated names, by key. *)
Definition keyed_le (a b : Z * Z * string) : Prop := key_lex_le (fst a) (fst b).

(** The key (year, week) as written in the suffix. *)
Definition suffix_key (table : string) : option (Z * Z) :=
  match week_year_of table with
  | Some (week, year) => Some (year, week)
  | None => None
  end.

(** The list is in ascending order of the (year, week) of the suffixes. *)
Definition sorted_by_suffix (l : list string) : Prop :=
  exists keys,
    Forall2 (fun table k => suffix_key table = Some k) l keys /\
    StronglySorted key_lex_le keys.

(** The tables of a category that pass the cutoff, in (year, week) order. *)
Definition selection_of (p : pattern) (cutoff : Calendar.datetime)
  (table_names manifest : list string) : Prop :=
  Permutation manifest (List.filter (selected p cutoff) table_names) /\
  sorted_by_suffix manifest.

End SelectSpec.


(** * Properties of the batch copier *)

Section CopierFacts.
Import Extract.
Variable env : Env.

Lemma sanitize_nan (v : pyval) : isnan_float v = true -> Tools.sanitize v = PyNone.
Proof. intros H. unfold Tools.sanitize. now rewrite H. Qed.

Lemma sanitize_other (v : pyval) : isnan_float v = false -> Tools.sanitize v = v.
Proof. intros H. unfold Tools.sanitize. now rewrite H. Qed.

Lemma sanitized_row_lookup (r : Extract.row) (j : nat) (v : pyval) :
  nth_error r j = Some v ->
  nth_error (map Tools.sanitize r) j = Some (if isnan_float v then PyNone else v).
Proof.
  intros H. rewrite nth_error_map, H. reflexivity.
Qed.

Lemma load_batch_accepted (batch : list Extract.row) (table : string) (w : World) :
  batch <> [] ->
  insert_accepted env (clock w) table (map (map Tools.sanitize) batch) = true ->
  exists w',
    Tools.load_batch_into_database env batch table w = (Returns tt, w') /\
    clock w' = S (clock w) /\
    last_extracted_json w' = last_extracted_json w /\
    txt_files w' = txt_files w /\
    dest_tables w' =
      <[table := default [] (dest_tables w !! table) ++ map (map Tools.sanitize) batch]>
        (dest_tables w) /\
    trace w' = trace w
               ++ match dest_tables w !! table with
                  | Some _ => []
                  | None => [CreateTable table]
                  end
               ++ [InsertRows table (map (map Tools.sanitize) batch)].
Proof.
  intros Hne Hacc. destruct batch as [|r batch]; [congruence|].
  unfold Tools.load_batch_into_database, bind, get_world.
  remember (map (map Tools.sanitize) (r :: batch)) as rows eqn:Hrows.
  destruct (dest_tables w !! table) as [old|] eqn:Hold.
  - cbn -[lookup insert]. rewrite Hacc. cbn -[lookup insert]. rewrite Hold.
    eexists; repeat split; cbn -[lookup insert]; reflexivity.
  - cbn -[lookup insert]. rewrite Hacc. cbn -[lookup insert].
    rewrite lookup_insert_eq.
    eexists; repeat split; cbn -[lookup insert].
    + now rewrite insert_insert_eq.
    + now rewrite <- app_assoc.
Qed.

End CopierFacts.

(** C9. Every value of a batch handed to [load_batch_into_database] that
    is a floating-point NaN reaches the destination table as [None], and
    every other value reaches it unchanged: when the destination accepts
    the insert, the table grows by exactly the rows of the batch, in
    order, each value rewritten in that way. *)
Theorem load_batch_rewrites_nan_only
  (env : Extract.Env) (batch : list Extract.row) (table : string) (w : Extract.World) :
  batch <> [] ->
  Extract.insert_accepted env (Extract.clock w) table
    (map (map Tools.sanitize) batch) = true ->
  exists w' inserted,
    Tools.load_batch_into_database env batch table w = (Extract.Returns tt, w') /\
    Extract.dest_tables w' !! table
      = Some (default [] (Extract.dest_tables w !! table) ++ inserted) /\
    length inserted = length batch /\
    forall i r, nth_error batch i = Some r ->
      exists r', nth_error inserted i = Some r' /\
                 length r' = length r /\
                 forall j v, nth_error r j = Some v ->
                   nth_error r' j = Some (if isnan_float v then PyNone else v).
Proof.
  intros Hne Hacc.
  destruct (load_batch_accepted env batch table w Hne Hacc)
    as (w' & Hrun & _ & _ & _ & Hdest & _).
  exists w', (map (map Tools.sanitize) batch). split; [exact Hrun|].
  split; [rewrite Hdest; apply lookup_insert_eq|].
  split; [apply length_map|].
  intros i r Hi. exists (map Tools.sanitize r). split.
  - rewrite nth_error_map, Hi. reflexivity.
  - split; [apply length_map|]. intros j v Hj. now apply sanitized_row_lookup.
Qed.

Lemma load_batch_rewrites_nan_only_witness :
  exists w' inserted,
    Tools.load_batch_into_database (Samples.static_env 2) Samples.sample_batch
      "CALIS_APG43_5_S12_A2024" Samples.empty_world = (Extract.Returns tt, w') /\
    Extract.dest_tables w' !! "CALIS_APG43_5_S12_A2024"
      = Some (default [] (Extract.dest_tables Samples.empty_world
                            !! "CALIS_APG43_5_S12_A2024") ++ inserted) /\
    length inserted = length Samples.sample_batch /\
    forall i r, nth_error Samples.sample_batch i = Some r ->
      exists r', nth_error inserted i = Some r' /\
                 length r' = length r /\
                 forall j v, nth_error r j = Some v ->
                   nth_error r' j = Some (if isnan_float v then PyNone else v).
Proof.
  apply (load_batch_rewrites_nan_only (Samples.static_env 2) Samples.sample_batch
           "CALIS_APG43_5_S12_A2024" Samples.empty_world).
  - discriminate.
  - reflexivity.
Defined.

(** ** A small program logic for "this run leaves table T alone" *)

Section Quiet.
Import Extract CopierSpec.
Local Open Scope py_scope.
Variable T : string.
Variable e : option Entry.

Lemma quiet_ret {A} (a : A) (Q : A -> Prop) : Q a -> quiet T e (ret a) Q.
Proof.
  intros HQ w Hw. exists []. cbn. rewrite app_nil_r.
  repeat split; auto. intros a' [= <-]. exact HQ.
Qed.

Lemma quiet_raise {A} (x : exn) (Q : A -> Prop) : quiet T e (raise x) Q.
Proof.
  intros w Hw. exists []. cbn. rewrite app_nil_r. repeat split; auto. discriminate.
Qed.

Lemma quiet_out_of_fuel {A} (Q : A -> Prop) : quiet T e out_of_fuel Q.
Proof.
  intros w Hw. exists []. cbn. rewrite app_nil_r. repeat split; auto. discriminate.
Qed.

Lemma quiet_weaken {A} (c : M A) (Q Q' : A -> Prop) :
  quiet T e c Q -> (forall a, Q a -> Q' a) -> quiet T e c Q'.
Proof.
  intros Hc HQ w Hw. destruct (Hc w Hw) as (evs & H1 & H2 & H3 & H4 & H5).
  exists evs. repeat split; auto.
Qed.

Lemma quiet_bind {A B} (c : M A) (k : A -> M B) (Q : A -> Prop) (Q' : B -> Prop) :
  quiet T e c Q -> (forall a, Q a -> quiet T e (k a) Q') -> quiet T e (bind c k) Q'.
Proof.
  intros Hc Hk w Hw. destruct (Hc w Hw) as (evs & H1 & H2 & H3 & H4 & H5).
  unfold bind. destruct (c w) as [[a|x|] w1] eqn:Hcw; cbn in *.
  - destruct (Hk a (H5 a eq_refl) w1 H1) as (evs' & K1 & K2 & K3 & K4 & K5).
    exists (evs ++ evs'). repeat split; auto.
    + congruence.
    + rewrite K3, H3. now rewrite app_assoc.
    + apply Forall_app; auto.
  - exists evs. repeat split; auto. discriminate.
  - exists evs. repeat split; auto. discriminate.
Qed.

Lemma quiet_try_except {A} (c : M A) (h : exn -> M A) (Q : A -> Prop) :
  quiet T e c Q -> (forall x, quiet T e (h x) Q) -> quiet T e (try_except c h) Q.
Proof.
  intros Hc Hh w Hw. destruct (Hc w Hw) as (evs & H1 & H2 & H3 & H4 & H5).
  unfold try_except. destruct (c w) as [[a|x|] w1] eqn:Hcw; cbn in *.
  - exists evs. repeat split; auto.
  - destruct (Hh x w1 H1) as (evs' & K1 & K2 & K3 & K4 & K5).
    exists (evs ++ evs'). repeat split; auto.
    + congruence.
    + rewrite K3, H3. now rewrite app_assoc.
    + apply Forall_app; auto.
  - exists evs. repeat split; auto.
Qed.

Lemma quiet_lift_result {A} (r : result A) : quiet T e (lift_result r) (fun _ => True).
Proof. destruct r; [now apply quiet_ret | apply quiet_raise]. Qed.

Lemma quiet_emit (ev : event) : silent T e ev -> quiet T e (emit ev) (fun _ => True).
Proof.
  intros Hev w Hw. exists [ev]. cbn. repeat split; auto.
Qed.

Lemma quiet_tick : quiet T e tick (fun _ => True).
Proof.
  intros w Hw. exists []. cbn. rewrite app_nil_r. repeat split; auto.
Qed.

Lemma quiet_store_txt (data : list string) (filename : string) :
  quiet T e (Tools.store_txt data filename) (fun _ => True).
Proof.
  intros w Hw. exists [StoreTxt filename data].
  unfold Tools.store_txt, bind, get_world, set_txt_files, emit. cbn.
  repeat split; auto. repeat constructor.
Qed.

Lemma quiet_load_last_extracted :
  quiet T e Tools.load_last_extracted (fun info => info !! T = e).
Proof.
  intros w Hw. exists [].
  unfold Tools.load_last_extracted, bind, get_world, ret. cbn.
  rewrite app_nil_r. repeat split; auto.
  intros a [= <-]. exact Hw.
Qed.

Lemma quiet_save_last_extracted (info : gmap string Entry) :
  info !! T = e -> quiet T e (Tools.save_last_extracted info) (fun _ => True).
Proof.
  intros Hinfo w Hw. exists [SaveLastExtracted info].
  unfold Tools.save_last_extracted, bind, set_last_extracted_json, emit. cbn.
  repeat split; auto.
Qed.

End Quiet.

Ltac quiet_step :=
  lazymatch goal with
  | |- CopierSpec.quiet _ _ (Extract.bind _ _) _ =>
      eapply quiet_bind; [ | intros ? ? ]
  | |- CopierSpec.quiet _ _ (Extract.try_except _ _) _ =>
      apply quiet_try_except; [ | intros ? ]
  | |- CopierSpec.quiet _ _ (Extract.ret _) _ => apply quiet_ret; auto
  | |- CopierSpec.quiet _ _ (Extract.raise _) _ => apply quiet_raise
  | |- CopierSpec.quiet _ _ Extract.out_of_fuel _ => apply quiet_out_of_fuel
  | |- CopierSpec.quiet _ _ (Extract.lift_result _) _ => apply quiet_lift_result
  | |- CopierSpec.quiet _ _ Extract.tick _ => apply quiet_tick
  | |- CopierSpec.quiet _ _ (Extract.emit _) _ => apply quiet_emit; cbn; auto
  | |- CopierSpec.quiet _ _ (Tools.store_txt _ _) _ => apply quiet_store_txt
  | |- CopierSpec.quiet _ _ Tools.load_last_extracted _ => apply quiet_load_last_extracted
  | |- CopierSpec.quiet _ _ (Tools.save_last_extracted _) _ =>
      apply quiet_save_last_extracted; auto
  | |- CopierSpec.quiet _ _ (match ?x with _ => _ end) _ => destruct x eqn:?
  | |- CopierSpec.quiet _ _ (if ?x then _ else _) _ => destruct x eqn:?
  end.

Section QuietRun.
Import Extract CopierSpec.
Local Open Scope py_scope.
Variable env : Env.
Variable T : string.
Variable e : option Entry.

Lemma quiet_filter_by_start_date (tables : list string) (start_date : Calendar.datetime) :
  quiet T e (Tools.filter_by_start_date tables start_date) (fun _ => True).
Proof.
  induction tables as [|table rest IH]; cbn [Tools.filter_by_start_date].
  - quiet_step.
  - eapply quiet_bind with (Q := fun _ => True).
    + repeat quiet_step.
    + intros keep _. eapply quiet_bind; [apply IH|]. intros; quiet_step.
Qed.

Lemma quiet_tools_process_tables_names (names : list string)
  (pats : ExtractorConfig.category_patterns) (start_date : Calendar.datetime) :
  quiet T e (Tools.process_tables_names names pats start_date) (fun _ => True).
Proof.
  unfold Tools.process_tables_names.
  repeat (eapply quiet_bind; [first [apply quiet_filter_by_start_date | quiet_step] | intros ? ?]).
  quiet_step.
Qed.

Lemma quiet_process_tables_names :
  quiet T e (Extractor.process_tables_names env) (fun _ => True).
Proof.
  unfold Extractor.process_tables_names, Extractor.extract_tables_names.
  eapply quiet_bind with (Q := fun _ => True).
  - repeat quiet_step.
  - intros. apply quiet_tools_process_tables_names.
Qed.

Lemma quiet_tools_extract_table_data (table : string) (offset limit : nat) :
  table <> T ->
  quiet T e (Tools.extract_table_data env table offset limit) (fun _ => True).
Proof.
  intros Hne. unfold Tools.extract_table_data. repeat quiet_step.
Qed.

Lemma quiet_extract_attempts (table : string) (offset limit : nat) (attempts : list nat) :
  table <> T ->
  quiet T e (Extractor.extract_attempts env table offset limit attempts) (fun _ => True).
Proof.
  intros Hne. induction attempts as [|attempt rest IH]; cbn [Extractor.extract_attempts].
  - quiet_step.
  - apply quiet_try_except.
    + now apply quiet_tools_extract_table_data.
    + intros x. destruct (attempt <? Extractor.max_retries)%nat.
      * eapply quiet_bind; [quiet_step|]. intros. apply IH.
      * quiet_step.
Qed.

Lemma quiet_load_batch (batch : list row) (table : string) :
  table <> T ->
  quiet T e (Tools.load_batch_into_database env batch table) (fun _ => True).
Proof.
  intros Hne w Hw.
  unfold Tools.load_batch_into_database, bind, get_world.
  destruct (dest_tables w !! table) as [old|] eqn:Hold;
    destruct batch as [|r batch]; cbn -[lookup insert map];
    try destruct (insert_accepted env (clock w) table _);
    cbn -[lookup insert map];
    [ exists [] | eexists [_] | eexists [_] | eexists [_] | eexists [_; _] | eexists [_; _] ];
    repeat split; cbn -[lookup insert map];
    rewrite ?lookup_insert_ne by assumption;
    rewrite <- ?app_assoc, ?app_nil_r;
    auto; try discriminate; repeat constructor; assumption.
Qed.

Lemma quiet_copy_loop (fuel : nat) (self : Orchestrator.t) (table : string)
  (total_rows offset total_extracted : nat) (info : gmap string Entry) :
  table <> T -> info !! T = e ->
  quiet T e (Orchestrator.copy_loop env fuel self table total_rows offset total_extracted info)
        (fun info' => info' !! T = e).
Proof.
  intros Hne. revert offset total_extracted info.
  induction fuel as [|fuel IH]; intros offset total_extracted info Hinfo;
    cbn [Orchestrator.copy_loop].
  - quiet_step.
  - eapply quiet_bind.
    + apply quiet_extract_attempts. exact Hne.
    + intros data _. destruct data as [[|r data]|]; try (quiet_step; fail).
      eapply quiet_bind; [apply quiet_load_batch; exact Hne|]. intros _ _.
      assert (Hins : forall x, (<[table := x]> info) !! T = e)
        by (intros x; rewrite lookup_insert_ne; auto).
      eapply quiet_bind; [apply quiet_save_last_extracted; apply Hins|]. intros _ _.
      destruct (_ <=? _)%nat.
      * quiet_step.
      * apply IH. apply Hins.
Qed.

Lemma quiet_process_table_completely (self : Orchestrator.t) (table : string) :
  table <> T ->
  quiet T e (Orchestrator.process_table_completely env self table) (fun _ => True).
Proof.
  intros Hne. unfold Orchestrator.process_table_completely.
  eapply quiet_bind; [apply quiet_load_last_extracted|]. intros info Hinfo.
  eapply quiet_bind.
  { unfold Orchestrator.get_total_rows. repeat quiet_step. }
  intros total_rows _.
  eapply quiet_bind; [apply quiet_copy_loop; auto|]. intros info' Hinfo'.
  destruct (info' !! table) as [en|].
  - apply quiet_save_last_extracted. rewrite lookup_insert_ne; auto.
  - quiet_step.
Qed.

Lemma quiet_for_each_table (self : Orchestrator.t) (info : gmap string Entry)
  (tables : list string) (e0 : Entry) :
  e = Some e0 -> completed e0 = true -> info !! T = Some e0 ->
  quiet T e (Orchestrator.for_each_table env self info tables) (fun _ => True).
Proof.
  intros He Hdone Hinfo. induction tables as [|table rest IH];
    cbn [Orchestrator.for_each_table].
  - quiet_step.
  - eapply quiet_bind with (Q := fun _ => True); [|intros; apply IH].
    destruct (decide (table = T)) as [->|Hne].
    + rewrite Hinfo, Hdone. quiet_step.
    + destruct (info !! table) as [en|].
      * destruct (completed en); [quiet_step|].
        now apply quiet_process_table_completely.
      * now apply quiet_process_table_completely.
Qed.

Lemma quiet_process_orchestration (self : Orchestrator.t) (e0 : Entry) :
  e = Some e0 -> completed e0 = true ->
  quiet T e (Orchestrator.process_orchestration env self) (fun _ => True).
Proof.
  intros He Hdone. unfold Orchestrator.process_orchestration.
  apply quiet_try_except; [|intros; quiet_step].
  eapply quiet_bind; [apply quiet_process_tables_names|]. intros tables _.
  eapply quiet_bind; [apply quiet_load_last_extracted|]. intros info Hinfo.
  apply quiet_for_each_table with e0; auto. congruence.
Qed.

End QuietRun.

(** C3. A table whose checkpoint entry is completed when
    [process_orchestration] starts is skipped: whatever the other tables
    do and however the run ends, no batch is fetched from it, nothing is
    created or inserted in its destination table, every checkpoint file
    saved keeps its entry as it was, and at the end its entry and its
    destination table are unchanged. *)
Theorem completed_table_is_skipped
  (env : Extract.Env) (self : Orchestrator.t) (T : string) (e0 : Extract.Entry)
  (w : Extract.World) :
  Extract.last_extracted_json w !! T = Some e0 ->
  Extract.completed e0 = true ->
  exists evs,
    Extract.trace (snd (Orchestrator.process_orchestration env self w))
      = Extract.trace w ++ evs /\
    (forall offset limit, ~ In (Extract.SelectBatch T offset limit) evs) /\
    (forall rows, ~ In (Extract.InsertRows T rows) evs) /\
    ~ In (Extract.CreateTable T) evs /\
    (forall content, In (Extract.SaveLastExtracted content) evs -> content !! T = Some e0) /\
    Extract.last_extracted_json (snd (Orchestrator.process_orchestration env self w)) !! T
      = Some e0 /\
    Extract.dest_tables (snd (Orchestrator.process_orchestration env self w)) !! T
      = Extract.dest_tables w !! T.
Proof.
  intros Hentry Hdone.
  destruct (quiet_process_orchestration env T (Some e0) self e0 eq_refl Hdone w Hentry)
    as (evs & Hfile & Hdest & Htrace & Hsilent & _).
  exists evs. rewrite Stdlib.Lists.List.Forall_forall in Hsilent.
  split; [exact Htrace|].
  split; [intros offset limit Hin; now apply (Hsilent _ Hin)|].
  split; [intros rows Hin; now apply (Hsilent _ Hin)|].
  split; [intros Hin; now apply (Hsilent _ Hin)|].
  split; [intros content Hin; exact (Hsilent _ Hin)|].
  split; assumption.
Qed.

Lemma completed_table_is_skipped_witness :
  exists evs,
    Extract.trace (snd (Orchestrator.process_orchestration (Samples.static_env 5)
                          Orchestrator.init Samples.completed_world))
      = Extract.trace Samples.completed_world ++ evs /\
    (forall offset limit,
        ~ In (Extract.SelectBatch "CALIS_APG43_5_S12_A2024" offset limit) evs) /\
    (forall rows, ~ In (Extract.InsertRows "CALIS_APG43_5_S12_A2024" rows) evs) /\
    ~ In (Extract.CreateTable "CALIS_APG43_5_S12_A2024") evs /\
    (forall content, In (Extract.SaveLastExtracted content) evs ->
                     content !! "CALIS_APG43_5_S12_A2024" = Some Samples.completed_entry) /\
    Extract.last_extracted_json
      (snd (Orchestrator.process_orchestration (Samples.static_env 5)
              Orchestrator.init Samples.completed_world))
      !! "CALIS_APG43_5_S12_A2024" = Some Samples.completed_entry /\
    Extract.dest_tables
      (snd (Orchestrator.process_orchestration (Samples.static_env 5)
              Orchestrator.init Samples.completed_world))
      !! "CALIS_APG43_5_S12_A2024"
      = Extract.dest_tables Samples.completed_world !! "CALIS_APG43_5_S12_A2024".
Proof.
  apply (completed_table_is_skipped (Samples.static_env 5) Orchestrator.init
           "CALIS_APG43_5_S12_A2024" Samples.completed_entry Samples.completed_world).
  - reflexivity.
  - reflexivity.
Defined.

(** ** What one fetch does *)

Section Fetch.
Import Extract CopierSpec.
Variable env : Env.

Lemma tools_extract_table_data_run (table : string) (offset limit : nat) (w : World) :
  Tools.extract_table_data env table offset limit w
  = (fetch_result env table (select_batch env (clock w) table offset limit),
     after_select w table offset limit).
Proof.
  unfold Tools.extract_table_data, bind, tick, emit, fetch_result, after_select,
    Tools.load_indicator_csv.
  cbn -[decide].
  destruct (select_batch env (clock w) table offset limit) as [[|r raw]| |];
    cbn -[decide]; try reflexivity.
  destruct (decide (indicator_csv env table = ∅)); reflexivity.
Qed.

(** An answer other than an escaping exception ends the retry loop at the
    first attempt. *)
Lemma extract_table_data_first_attempt (table : string) (offset limit : nat) (w : World) :
  select_batch env (clock w) table offset limit <> FetchOtherError ->
  Extractor.extract_table_data env table offset limit w
  = (fetch_result env table (select_batch env (clock w) table offset limit),
     after_select w table offset limit).
Proof.
  intros Hans. unfold Extractor.extract_table_data. cbn [seq Nat.add Extractor.max_retries].
  cbn [Extractor.extract_attempts]. unfold try_except.
  rewrite tools_extract_table_data_run.
  destruct (select_batch env (clock w) table offset limit) as [[|r raw]| |];
    cbn -[decide]; try reflexivity; try congruence.
  destruct (decide (indicator_csv env table = ∅)); reflexivity.
Qed.

Lemma extract_attempts_failed (table : string) (offset limit attempt : nat)
  (rest : list nat) (w : World) :
  select_batch env (clock w) table offset limit = FetchOtherError ->
  Extractor.extract_attempts env table offset limit (attempt :: rest) w
  = if (attempt <? Extractor.max_retries)%nat
    then bind (emit (Sleep (Extractor.retry_delay * 2 ^ attempt)))
              (fun _ => Extractor.extract_attempts env table offset limit rest)
              (after_select w table offset limit)
    else (Raises OtherException, after_select w table offset limit).
Proof.
  intros Hans. cbn [Extractor.extract_attempts]. unfold try_except.
  rewrite tools_extract_table_data_run, Hans. cbn [fetch_result].
  destruct (attempt <? Extractor.max_retries)%nat; reflexivity.
Qed.

(** An exception that escapes [tools.extract_table_data] at every attempt
    is retried three times, after 4, 8 and 16 seconds, and then raised. *)
Lemma extract_table_data_retry_schedule (table : string) (offset limit : nat) (w : World) :
  (forall k, k < 4 -> select_batch env (clock w + k) table offset limit = FetchOtherError) ->
  exists w',
    Extractor.extract_table_data env table offset limit w = (Raises OtherException, w') /\
    last_extracted_json w' = last_extracted_json w /\
    dest_tables w' = dest_tables w /\
    trace w' = trace w ++ [SelectBatch table offset limit; Sleep 4;
                           SelectBatch table offset limit; Sleep 8;
                           SelectBatch table offset limit; Sleep 16;
                           SelectBatch table offset limit].
Proof.
  intros Hfail.
  pose proof (Hfail 0 ltac:(lia)) as H0. pose proof (Hfail 1 ltac:(lia)) as H1.
  pose proof (Hfail 2 ltac:(lia)) as H2. pose proof (Hfail 3 ltac:(lia)) as H3.
  rewrite Nat.add_0_r in H0.
  replace (clock w + 1) with (S (clock w)) in H1 by lia.
  replace (clock w + 2) with (S (S (clock w))) in H2 by lia.
  replace (clock w + 3) with (S (S (S (clock w)))) in H3 by lia.
  unfold Extractor.extract_table_data. cbn [seq Nat.add Extractor.max_retries].
  rewrite extract_attempts_failed by exact H0.
  cbn [Nat.ltb Nat.leb Extractor.max_retries]. unfold bind at 1, emit at 1.
  rewrite extract_attempts_failed by exact H1.
  cbn [Nat.ltb Nat.leb Extractor.max_retries]. unfold bind at 1, emit at 1.
  rewrite extract_attempts_failed by exact H2.
  cbn [Nat.ltb Nat.leb Extractor.max_retries]. unfold bind at 1, emit at 1.
  rewrite extract_attempts_failed by exact H3.
  cbn [Nat.ltb Nat.leb Extractor.max_retries].
  eexists. split; [reflexivity|]. cbn. repeat split.
  rewrite <- !app_assoc. reflexivity.
Qed.

End Fetch.

(** ** Copying one table *)

Section CopyTable.
Import Extract CopierSpec.
Local Open Scope py_scope.
Variable env : Env.
Variable self : Orchestrator.t.
Variable table : string.

Lemma process_table_completely_counted (w : World) (R : nat) :
  select_count env (clock w) table = Ok R ->
  Orchestrator.process_table_completely env self table w
  = bind (Orchestrator.copy_loop env (S (R - initial_offset w table)) self table R
            (initial_offset w table) (initial_offset w table) (last_extracted_json w))
         (fun info =>
            match info !! table with
            | None => raise (KeyError table)
            | Some e =>
                Tools.save_last_extracted (<[table := Orchestrator.mark_completed e]> info)
            end)
         (after_count w table).
Proof.
  intros Hcount.
  unfold Orchestrator.process_table_completely, Orchestrator.get_total_rows,
    Tools.load_last_extracted.
  unfold bind at 1. unfold bind at 1. unfold get_world at 1. unfold ret at 1.
  unfold bind at 1. unfold bind at 1. unfold bind at 1. unfold tick at 1.
  unfold emit at 1. cbn [clock last_extracted_json dest_tables txt_files trace].
  rewrite Hcount. cbn [lift_result]. unfold ret at 1.
  reflexivity.
Qed.

(** A first fetch that yields nothing leaves the loop at once. *)
Lemma copy_loop_nothing (fuel offset total_extracted R : nat)
  (info : gmap string Entry) (w : World) :
  fetch_yields_nothing env (clock w) table offset (Orchestrator.batch_size self) ->
  Orchestrator.copy_loop env (S fuel) self table R offset total_extracted info w
  = (Returns info, after_select w table offset (Orchestrator.batch_size self)).
Proof.
  intros Hnothing. unfold fetch_yields_nothing in Hnothing.
  cbn [Orchestrator.copy_loop]. unfold bind at 1.
  rewrite extract_table_data_first_attempt
    by (intros Heq; rewrite Heq in Hnothing; exact Hnothing).
  destruct (select_batch env (clock w) table offset (Orchestrator.batch_size self))
    as [[|r raw]| |]; cbn -[decide]; try reflexivity; try contradiction.
  destruct (decide (indicator_csv env table = ∅)); [reflexivity|contradiction].
Qed.

End CopyTable.

(** C10. When a table has no checkpoint entry and its very first batch
    fetch yields nothing (the source returns no rows, the batch query
    fails with a MySQL error, or rows come back but the indicator mapping
    is empty), [process_table_completely] raises [KeyError] for the table
    at the step that marks it completed: nothing was saved, the
    checkpoint file and the destination are as before, and the loop over
    the tables stops there, so the run aborts. *)
Theorem first_fetch_empty_raises_key_error
  (env : Extract.Env) (self : Orchestrator.t) (table : string) (w : Extract.World)
  (R : nat) :
  Extract.last_extracted_json w !! table = None ->
  Extract.select_count env (Extract.clock w) table = Ok R ->
  CopierSpec.fetch_yields_nothing env (S (Extract.clock w)) table 0
    (Orchestrator.batch_size self) ->
  exists w',
    Orchestrator.process_table_completely env self table w
      = (Extract.Raises (KeyError table), w') /\
    Extract.last_extracted_json w' = Extract.last_extracted_json w /\
    Extract.dest_tables w' = Extract.dest_tables w /\
    Extract.trace w' = Extract.trace w
      ++ [Extract.SelectCount table;
          Extract.SelectBatch table 0 (Orchestrator.batch_size self)] /\
    forall rest,
      Orchestrator.for_each_table env self (Extract.last_extracted_json w) (table :: rest) w
        = (Extract.Raises (KeyError table), w').
Proof.
  intros Hentry Hcount Hnothing.
  assert (Hrun : Orchestrator.process_table_completely env self table w
                 = (Extract.Raises (KeyError table),
                    CopierSpec.after_select (CopierSpec.after_count w table) table 0
                      (Orchestrator.batch_size self))).
  { rewrite (process_table_completely_counted env self table w R Hcount).
    unfold CopierSpec.initial_offset. rewrite Hentry.
    unfold Extract.bind at 1. rewrite copy_loop_nothing by exact Hnothing.
    rewrite Hentry. reflexivity. }
  eexists. split; [exact Hrun|]. cbn. repeat split.
  - now rewrite <- app_assoc.
  - intros rest. cbn [Orchestrator.for_each_table]. rewrite Hentry.
    unfold Extract.bind at 1. rewrite Hrun. reflexivity.
Qed.

Lemma first_fetch_empty_raises_key_error_witness :
  exists w',
    Orchestrator.process_table_completely (Samples.static_env 0) Orchestrator.init
      "CALIS_APG43_5_S12_A2024" Samples.empty_world
      = (Extract.Raises (KeyError "CALIS_APG43_5_S12_A2024"), w') /\
    Extract.last_extracted_json w' = Extract.last_extracted_json Samples.empty_world /\
    Extract.dest_tables w' = Extract.dest_tables Samples.empty_world /\
    Extract.trace w' = Extract.trace Samples.empty_world
      ++ [Extract.SelectCount "CALIS_APG43_5_S12_A2024";
          Extract.SelectBatch "CALIS_APG43_5_S12_A2024" 0
            (Orchestrator.batch_size Orchestrator.init)] /\
    forall rest,
      Orchestrator.for_each_table (Samples.static_env 0) Orchestrator.init
        (Extract.last_extracted_json Samples.empty_world)
        ("CALIS_APG43_5_S12_A2024" :: rest) Samples.empty_world
        = (Extract.Raises (KeyError "CALIS_APG43_5_S12_A2024"), w').
Proof.
  apply (first_fetch_empty_raises_key_error (Samples.static_env 0) Orchestrator.init
           "CALIS_APG43_5_S12_A2024" Samples.empty_world 0).
  - reflexivity.
  - reflexivity.
  - unfold CopierSpec.fetch_yields_nothing. simpl. exact I.
Defined.

Section NothingFetched.
Import Extract CopierSpec.
Variable env : Env.
Variable self : Orchestrator.t.
Variable table : string.

(** With a checkpoint entry in place, a fetch that yields nothing is
    taken for the end of the table: the entry is marked completed where
    it stands. *)
Lemma nothing_fetched_marks_completed (w : World) (R : nat) (e : Entry) :
  last_extracted_json w !! table = Some e ->
  select_count env (clock w) table = Ok R ->
  fetch_yields_nothing env (S (clock w)) table (offset e) (Orchestrator.batch_size self) ->
  exists w',
    Orchestrator.process_table_completely env self table w = (Returns tt, w') /\
    last_extracted_json w'
      = <[table := Orchestrator.mark_completed e]> (last_extracted_json w) /\
    dest_tables w' = dest_tables w /\
    trace w' = trace w
      ++ [SelectCount table;
          SelectBatch table (offset e) (Orchestrator.batch_size self);
          SaveLastExtracted
            (<[table := Orchestrator.mark_completed e]> (last_extracted_json w))].
Proof.
  intros Hentry Hcount Hnothing.
  rewrite (process_table_completely_counted env self table w R Hcount).
  unfold initial_offset. rewrite Hentry.
  unfold bind at 1. rewrite copy_loop_nothing by exact Hnothing.
  rewrite Hentry.
  unfold Tools.save_last_extracted, bind, set_last_extracted_json, emit.
  cbn -[insert]. eexists. split; [reflexivity|]. cbn -[insert].
  repeat split. now rewrite <- !app_assoc.
Qed.

End NothingFetched.

(** C1, at the input where the code departs from it. The copy of a table
    stopped at offset 2 of 5 rows; on resuming, the batch query fails with
    a MySQL error. The error is not retried (one SELECT, no sleep), the
    copy does not abort, and the table is marked completed at offset 2. *)
Theorem mysql_error_ends_copy_as_completed :
  exists w',
    Orchestrator.process_table_completely Samples.mysql_error_env Orchestrator.init
      "CALIS_APG43_5_S12_A2024" Samples.interrupted_world = (Extract.Returns tt, w') /\
    Extract.trace w'
      = [Extract.SelectCount "CALIS_APG43_5_S12_A2024";
         Extract.SelectBatch "CALIS_APG43_5_S12_A2024" 2
           (Orchestrator.batch_size Orchestrator.init);
         Extract.SaveLastExtracted (Extract.last_extracted_json w')] /\
    Extract.last_extracted_json w' !! "CALIS_APG43_5_S12_A2024"
      = Some {| Extract.offset := 2; Extract.total_extracted := 2;
                Extract.total_rows := 5; Extract.percentage := 40;
                Extract.completed := true |}.
Proof.
  destruct (nothing_fetched_marks_completed Samples.mysql_error_env Orchestrator.init
              "CALIS_APG43_5_S12_A2024" Samples.interrupted_world 5
              Samples.interrupted_entry)
    as (w' & Hrun & Hfile & _ & Htrace); try reflexivity.
  exists w'. split; [exact Hrun|]. split.
  - rewrite Htrace, Hfile. reflexivity.
  - rewrite Hfile. reflexivity.
Qed.

(** For comparison: an exception that escapes the batch query, on the
    same table, is retried after 4, 8 and 16 seconds and then aborts the
    copy with the checkpoint file untouched. *)
Lemma escaping_error_retried_then_aborts :
  exists w',
    Orchestrator.process_table_completely Samples.other_error_env Orchestrator.init
      "CALIS_APG43_5_S12_A2024" Samples.interrupted_world
      = (Extract.Raises OtherException, w') /\
    Extract.last_extracted_json w'
      = Extract.last_extracted_json Samples.interrupted_world /\
    List.filter (fun ev => match ev with Extract.Sleep _ => true | _ => false end)
                (Extract.trace w')
      = [Extract.Sleep 4; Extract.Sleep 8; Extract.Sleep 16].
Proof.
  rewrite (process_table_completely_counted Samples.other_error_env Orchestrator.init
             "CALIS_APG43_5_S12_A2024" Samples.interrupted_world 5 eq_refl).
  unfold Extract.bind at 1. cbn [Orchestrator.copy_loop]. unfold Extract.bind at 1.
  destruct (extract_table_data_retry_schedule Samples.other_error_env
              "CALIS_APG43_5_S12_A2024"
              (CopierSpec.initial_offset Samples.interrupted_world "CALIS_APG43_5_S12_A2024")
              (Orchestrator.batch_size Orchestrator.init)
              (CopierSpec.after_count Samples.interrupted_world "CALIS_APG43_5_S12_A2024"))
    as (w' & Hrun & Hfile & _ & Htrace); [reflexivity|].
  rewrite Hrun. exists w'. split; [reflexivity|]. split; [exact Hfile|].
  rewrite Htrace. reflexivity.
Qed.

(** ** A full run over a source that does not change *)

Lemma last_cons_default {A} (a d : A) (l : list A) : List.last (a :: l) d = List.last l a.
Proof.
  revert a d. induction l as [|b l IH]; intros a d; [reflexivity|].
  change (List.last (a :: b :: l) d) with (List.last (b :: l) d).
  rewrite (IH b d), (IH b a). reflexivity.
Qed.

Section StaticSource.
Import Extract CopierSpec.
Variable env : Env.
Variable self : Orchestrator.t.
Variable table : string.
Variable src : list (pyval * pyval * pyval).

Hypothesis batch_positive : 0 < Orchestrator.batch_size self.
Hypothesis source_static :
  forall clk offset limit,
    select_batch env clk table offset limit = Fetched (firstn limit (skipn offset src)).
Hypothesis mapping_present : indicator_csv env table <> ∅.
Hypothesis inserts_accepted : forall clk rows, insert_accepted env clk table rows = true.

Local Abbreviation B := (Orchestrator.batch_size self).
Local Abbreviation R := (length src).
Local Abbreviation batch_at := (CopierSpec.batch_at env table B src).
Local Abbreviation entry_ok := (progress_saved R).

Lemma batch_at_length (o : nat) : length (batch_at o) = Nat.min B (R - o).
Proof.
  unfold CopierSpec.batch_at. rewrite length_map, length_firstn, length_skipn. reflexivity.
Qed.

Lemma extract_static (o : nat) (w : World) :
  Extractor.extract_table_data env table o B w
  = (if (o <? R)%nat then Returns (Some (batch_at o)) else Returns None,
     after_select w table o B).
Proof.
  rewrite extract_table_data_first_attempt by (rewrite source_static; discriminate).
  f_equal. rewrite source_static. unfold fetch_result.
  pose proof (batch_at_length o) as Hlen. unfold CopierSpec.batch_at in *.
  destruct (firstn B (skipn o src)) as [|r raw] eqn:Hraw.
  - cbn in Hlen. destruct (Nat.ltb_spec o R); [lia|reflexivity].
  - cbn [length map] in Hlen.
    destruct (decide (indicator_csv env table = ∅)); [contradiction|].
    destruct (Nat.ltb_spec o R); [reflexivity|lia].
Qed.

Lemma copy_loop_static (fuel : nat) :
  forall (o : nat) (info : gmap string Entry) (w : World),
    o <= R -> R - o < fuel ->
    exists w' info' evs es,
      Orchestrator.copy_loop env fuel self table R o o info w = (Returns info', w') /\
      trace w' = trace w ++ evs /\
      saved_entries table evs = map Some es /\
      strict_steps B o (map offset es) /\
      List.last (map offset es) o = R /\
      Forall entry_ok es /\
      info' !! table = List.last (map Some es) (info !! table).
Proof.
  induction fuel as [|fuel IH]; intros o info w Hle Hfuel; [lia|].
  cbn [Orchestrator.copy_loop]. unfold bind at 1.
  rewrite extract_static.
  destruct (Nat.ltb_spec o R) as [Hlt|Hge].
  - pose proof (batch_at_length o) as Hlen.
    destruct (batch_at o) as [|r data] eqn:Hdata; [cbn in Hlen; lia|].
    set (n := length (r :: data)) in *.
    assert (Hn : 0 < n <= B /\ o + n <= R) by lia.
    clearbody n.
    destruct (load_batch_accepted env (r :: data) table (after_select w table o B))
      as (w2 & Hload & _ & _ & _ & _ & Htrace2).
    { discriminate. }
    { apply inserts_accepted. }
    unfold Loader.load_batch_into_database. unfold bind at 1. rewrite Hload.
    set (en := Orchestrator.progress_entry (o + n) (o + n) R).
    set (info1 := <[table := en]> info).
    unfold bind at 1. unfold Tools.save_last_extracted at 1.
    unfold bind at 1, set_last_extracted_json at 1, emit at 1.
    cbn [clock last_extracted_json dest_tables txt_files trace].
    destruct (Nat.leb_spec R (o + n)) as [Hdone|Hmore].
    + eexists _, info1, _, [en]. split; [reflexivity|].
      cbn [trace]. rewrite Htrace2. cbn [after_select trace].
      split; [rewrite <- !app_assoc; reflexivity|].
      split.
      { unfold saved_entries. rewrite !flat_map_app. cbn.
        destruct (dest_tables w !! table); cbn; unfold info1;
          rewrite lookup_insert_eq; reflexivity. }
      split; [cbn; lia|].
      split; [cbn; lia|].
      split; [repeat constructor|].
      cbn. unfold info1. apply lookup_insert_eq.
    + match goal with
      | |- context [Orchestrator.copy_loop env fuel self table R (o + n) (o + n) info1 ?w3] =>
          destruct (IH (o + n) info1 w3 ltac:(lia) ltac:(lia))
            as (w' & info' & evs' & es' & Hrun & Htrace & Hsaved & Hsteps & Hlast & Hok & Hinfo)
      end.
      rewrite Hrun. eexists w', info', _, (en :: es'). split; [reflexivity|].
      rewrite Htrace. cbn [trace]. rewrite Htrace2. cbn [after_select trace].
      split; [rewrite <- !app_assoc; reflexivity|].
      split.
      { unfold saved_entries in *. rewrite !flat_map_app, Hsaved. cbn.
        destruct (dest_tables w !! table); cbn; unfold info1;
          rewrite lookup_insert_eq; reflexivity. }
      split; [cbn; repeat split; try lia; exact Hsteps|].
      split; [cbn [map]; rewrite last_cons_default; exact Hlast|].
      split; [constructor; [repeat constructor|exact Hok]|].
      rewrite Hinfo. cbn [map]. rewrite last_cons_default.
      unfold info1. rewrite lookup_insert_eq. reflexivity.
  - eexists _, info, _, []. split; [reflexivity|].
    cbn. repeat split; auto. lia.
Qed.

End StaticSource.

Lemma last_entry_of_saved (es : list Extract.Entry) (d : option Extract.Entry) (o : nat) :
  es <> [] ->
  exists en,
    List.last (map Some es) d = Some en /\
    In en es /\
    List.last (map Extract.offset es) o = Extract.offset en.
Proof.
  revert d o. induction es as [|a es IH]; intros d o Hne; [congruence|].
  cbn [map]. rewrite !last_cons_default.
  destruct es as [|b es].
  - exists a. cbn. auto.
  - destruct (IH (Some a) (Extract.offset a) ltac:(discriminate)) as (en & H1 & H2 & H3).
    exists en. repeat split; auto. now right.
Qed.

(** C2. Over a source table that holds the same [R] rows throughout the
    run, with a non-empty indicator mapping and a destination that
    accepts every insert, a run of [process_table_completely] with batch
    size [B > 0] that starts from a checkpoint offset at most [R] returns
    normally. The checkpoint files it saves carry, for the table, first
    the progress entries [es] and then one final entry [e_last]: the
    offsets of [es] start above the initial offset, grow strictly by at
    most [B] each and end at [R]; every saved entry has
    [offset = total_extracted]; [completed] is false in every progress
    entry and true only in the final one, saved after the offset has
    reached [R]; and the file ends with that final entry. *)
Theorem full_run_advances_checkpoint
  (env : Extract.Env) (self : Orchestrator.t) (table : string)
  (src : list (pyval * pyval * pyval)) (w : Extract.World) :
  0 < Orchestrator.batch_size self ->
  Extract.select_count env (Extract.clock w) table = Ok (length src) ->
  (forall clk offset limit,
      Extract.select_batch env clk table offset limit
      = Extract.Fetched (firstn limit (skipn offset src))) ->
  Extract.indicator_csv env table <> ∅ ->
  (forall clk rows, Extract.insert_accepted env clk table rows = true) ->
  CopierSpec.initial_offset w table <= length src ->
  (is_Some (Extract.last_extracted_json w !! table) \/ 0 < length src) ->
  (forall e, Extract.last_extracted_json w !! table = Some e ->
             Extract.total_extracted e = Extract.offset e) ->
  exists w' evs es e_last,
    Orchestrator.process_table_completely env self table w = (Extract.Returns tt, w') /\
    Extract.trace w' = Extract.trace w ++ evs /\
    CopierSpec.saved_entries table evs = map Some (es ++ [e_last]) /\
    CopierSpec.strict_steps (Orchestrator.batch_size self)
      (CopierSpec.initial_offset w table) (map Extract.offset es) /\
    List.last (map Extract.offset es) (CopierSpec.initial_offset w table) = length src /\
    Extract.offset e_last = length src /\
    Forall (fun en => Extract.total_extracted en = Extract.offset en) (es ++ [e_last]) /\
    Forall (fun en => Extract.completed en = false) es /\
    Extract.completed e_last = true /\
    Extract.last_extracted_json w' !! table = Some e_last.
Proof.
  intros HB Hcount Hstatic Hmap Hacc Hle Hsome Hinit.
  rewrite (process_table_completely_counted env self table w (length src) Hcount).
  destruct (copy_loop_static env self table src HB Hstatic Hmap Hacc
              (S (length src - CopierSpec.initial_offset w table))
              (CopierSpec.initial_offset w table) (Extract.last_extracted_json w)
              (CopierSpec.after_count w table) Hle ltac:(lia))
    as (w1 & info' & evs & es & Hrun & Htrace & Hsaved & Hsteps & Hlast & Hok & Hinfo).
  unfold Extract.bind at 1. rewrite Hrun.
  assert (Hen : exists en,
             info' !! table = Some en /\
             Extract.offset en = length src /\
             Extract.total_extracted en = Extract.offset en).
  { destruct es as [|a es].
    - cbn in Hinfo, Hlast. destruct Hsome as [[e0 He0]|Hpos].
      + exists e0. rewrite Hinfo. split; [exact He0|].
        unfold CopierSpec.initial_offset in Hlast. rewrite He0 in Hlast.
        split; [exact Hlast|]. now apply Hinit.
      + unfold CopierSpec.initial_offset in Hlast.
        destruct (Extract.last_extracted_json w !! table) as [e0|] eqn:He0.
        * exists e0. rewrite Hinfo. split; [reflexivity|].
          split; [exact Hlast|]. now apply Hinit.
        * lia.
    - destruct (last_entry_of_saved (a :: es) (Extract.last_extracted_json w !! table)
                  (CopierSpec.initial_offset w table) ltac:(discriminate))
        as (en & H1 & H2 & H3).
      exists en. rewrite Hinfo. split; [exact H1|]. split; [congruence|].
      rewrite Stdlib.Lists.List.Forall_forall in Hok. now apply (Hok en H2). }
  destruct Hen as (en & Hlook & Hoff & Hte). rewrite Hlook.
  unfold Tools.save_last_extracted, Extract.bind, Extract.set_last_extracted_json,
    Extract.emit.
  cbn -[insert].
  eexists _, _, es, (Orchestrator.mark_completed en). split; [reflexivity|].
  cbn -[insert]. rewrite Htrace. cbn -[insert].
  split; [rewrite <- !app_assoc; reflexivity|].
  split.
  { unfold CopierSpec.saved_entries in *. rewrite !flat_map_app, Hsaved.
    cbn -[insert]. rewrite lookup_insert_eq, map_app. reflexivity. }
  split; [exact Hsteps|]. split; [exact Hlast|]. split; [exact Hoff|].
  split.
  { apply Forall_app. split.
    - eapply Forall_impl; [exact Hok|]. intros x Hx. apply Hx.
    - repeat constructor. exact Hte. }
  split.
  { eapply Forall_impl; [exact Hok|]. intros x Hx. apply Hx. }
  split; [reflexivity|]. apply lookup_insert_eq.
Qed.

Lemma full_run_advances_checkpoint_witness :
  exists w' evs es e_last,
    Orchestrator.process_table_completely (Samples.static_env 5) Samples.small_batches
      "CALIS_APG43_5_S12_A2024" Samples.empty_world = (Extract.Returns tt, w') /\
    Extract.trace w' = Extract.trace Samples.empty_world ++ evs /\
    CopierSpec.saved_entries "CALIS_APG43_5_S12_A2024" evs = map Some (es ++ [e_last]) /\
    CopierSpec.strict_steps (Orchestrator.batch_size Samples.small_batches)
      (CopierSpec.initial_offset Samples.empty_world "CALIS_APG43_5_S12_A2024")
      (map Extract.offset es) /\
    List.last (map Extract.offset es)
      (CopierSpec.initial_offset Samples.empty_world "CALIS_APG43_5_S12_A2024")
      = length (Samples.source_rows 5) /\
    Extract.offset e_last = length (Samples.source_rows 5) /\
    Forall (fun en => Extract.total_extracted en = Extract.offset en) (es ++ [e_last]) /\
    Forall (fun en => Extract.completed en = false) es /\
    Extract.completed e_last = true /\
    Extract.last_extracted_json w' !! "CALIS_APG43_5_S12_A2024" = Some e_last.
Proof.
  apply (full_run_advances_checkpoint (Samples.static_env 5) Samples.small_batches
           "CALIS_APG43_5_S12_A2024" (Samples.source_rows 5) Samples.empty_world).
  - simpl. lia.
  - reflexivity.
  - intros clk offset limit. reflexivity.
  - simpl. apply insert_non_empty.
  - intros clk rows. reflexivity.
  - vm_compute. lia.
  - right. simpl. lia.
  - intros e He. simpl in He. rewrite lookup_empty in He. discriminate.
Defined.

(** ** The loop budget is never used up *)

Section Termination.
Import Extract CopierSpec.
Variable env : Env.

Lemma tools_extract_never_out_of_fuel (table : string) (offset limit : nat) (w : World) :
  fst (Tools.extract_table_data env table offset limit w) <> OutOfFuel.
Proof.
  rewrite tools_extract_table_data_run. cbn [fst]. unfold fetch_result.
  destruct (select_batch env (clock w) table offset limit) as [[|r raw]| |];
    try discriminate.
  destruct (decide (indicator_csv env table = ∅)); discriminate.
Qed.

Lemma extract_attempts_never_out_of_fuel (table : string) (offset limit : nat)
  (attempts : list nat) (w : World) :
  fst (Extractor.extract_attempts env table offset limit attempts w) <> OutOfFuel.
Proof.
  revert w. induction attempts as [|attempt rest IH]; intros w.
  - discriminate.
  - cbn [Extractor.extract_attempts]. unfold try_except.
    pose proof (tools_extract_never_out_of_fuel table offset limit w) as Hfetch.
    destruct (Tools.extract_table_data env table offset limit w) as [[data|x|] w1];
      cbn [fst] in *; try discriminate; try congruence.
    destruct (attempt <? Extractor.max_retries)%nat; [|discriminate].
    unfold bind, emit. apply IH.
Qed.

Lemma load_batch_never_out_of_fuel (batch : list row) (table : string) (w : World) :
  fst (Tools.load_batch_into_database env batch table w) <> OutOfFuel.
Proof.
  unfold Tools.load_batch_into_database, bind, get_world.
  destruct (dest_tables w !! table); destruct batch as [|r batch];
    cbn -[lookup insert map]; try discriminate;
    destruct (insert_accepted env (clock w) table _); cbn -[lookup insert map];
    discriminate.
Qed.

(** Whatever the source and the destination answer, the loop of
    [process_table_completely] ends within the budget it is given. *)
Lemma copy_loop_never_out_of_fuel (self : Orchestrator.t) (table : string) (R : nat)
  (fuel : nat) :
  forall (offset total_extracted : nat) (info : gmap string Entry) (w : World),
    R - total_extracted < fuel ->
    fst (Orchestrator.copy_loop env fuel self table R offset total_extracted info w)
    <> OutOfFuel.
Proof.
  induction fuel as [|fuel IH]; intros offset total_extracted info w Hfuel; [lia|].
  cbn [Orchestrator.copy_loop]. unfold bind at 1.
  pose proof (extract_attempts_never_out_of_fuel table offset
                (Orchestrator.batch_size self) (seq 0 (Extractor.max_retries + 1)) w)
    as Hfetch.
  unfold Extractor.extract_table_data.
  destruct (Extractor.extract_attempts env table offset (Orchestrator.batch_size self)
              (seq 0 (Extractor.max_retries + 1)) w) as [[[[|r data]|]|x|] w1];
    cbn [fst] in *; try discriminate; try congruence.
  unfold Loader.load_batch_into_database. unfold bind at 1.
  pose proof (load_batch_never_out_of_fuel (r :: data) table w1) as Hload.
  destruct (Tools.load_batch_into_database env (r :: data) table w1) as [[[]|x|] w2];
    cbn [fst] in *; try discriminate; try congruence.
  unfold bind at 1. unfold Tools.save_last_extracted at 1.
  unfold bind at 1, set_last_extracted_json at 1, emit at 1.
  cbn [clock last_extracted_json dest_tables txt_files trace].
  destruct (Nat.leb_spec R (total_extracted + length (r :: data))); [discriminate|].
  apply IH. cbn [length] in *. lia.
Qed.

Lemma process_table_completely_terminates (self : Orchestrator.t) (table : string)
  (w : World) :
  fst (Orchestrator.process_table_completely env self table w) <> OutOfFuel.
Proof.
  unfold Orchestrator.process_table_completely, Orchestrator.get_total_rows,
    Tools.load_last_extracted.
  unfold bind at 1. unfold bind at 1. unfold get_world at 1. unfold ret at 1.
  unfold bind at 1. unfold bind at 1. unfold bind at 1. unfold tick at 1.
  unfold emit at 1. cbn [clock last_extracted_json dest_tables txt_files trace].
  destruct (select_count env (clock w) table) as [R|x]; cbn [lift_result];
    [|discriminate].
  unfold ret at 1. unfold bind at 1.
  match goal with
  | |- context [Orchestrator.copy_loop env (S (R - ?o)) self table R ?o ?o ?i ?w0] =>
      pose proof (copy_loop_never_out_of_fuel self table R (S (R - o)) o o i w0
                    ltac:(lia)) as Hloop;
      destruct (Orchestrator.copy_loop env (S (R - o)) self table R o o i w0)
        as [[info|x|] w1]
  end; cbn [fst] in *; try discriminate; try congruence.
  destruct (info !! table); [|discriminate].
  unfold Tools.save_last_extracted, bind, set_last_extracted_json, emit. discriminate.
Qed.

End Termination.


(** * Properties of the KPI aggregator *)

Section KpiFacts.
Import TransformerConfig Transformer KpiSpec.

Lemma resolve_nth (counters : gmap string Q) (names : list string) (i : nat) (c : string) :
  nth_error names i = Some c ->
  nth_error (resolve counters names) i = Some (default 0%Q (counters !! c)).
Proof.
  intros H. unfold resolve. rewrite nth_error_map, H. reflexivity.
Qed.


Lemma calculate_kpis_keys (counters : gmap string Q)
  (kpi_configs : list (string * kpi_config)) :
  map fst (calculate_kpis counters kpi_configs) = map fst kpi_configs.
Proof.
  unfold calculate_kpis. rewrite map_map. reflexivity.
Qed.









End KpiFacts.


(** ** Detail rows *)

Section DetailRows.
Import TransformerConfig Transformer KpiSpec.

Lemma valid_kpis_nil_iff (row : detail_row) :
  valid_kpis row = [] <-> has_value row = false.
Proof.
  unfold valid_kpis, has_value. induction (kpi_values row) as [|[k [q|]] l IH]; cbn.
  - tauto.
  - split; discriminate.
  - exact IH.
Qed.

Lemma assoc_not_in {A} (key : string) (d : list (string * A)) :
  ~ In key (map fst d) -> assoc key d = None.
Proof.
  induction d as [|[k v] d IH]; cbn; [reflexivity|]. intros Hnot.
  destruct (String.eqb_spec k key) as [->|Hne]; [tauto|]. apply IH. tauto.
Qed.

Lemma valid_keys_subset (l : list (string * option Q)) (key : string) :
  In key (map fst (flat_map (fun kv => match snd kv with
                                       | Some value => [(fst kv, value)]
                                       | None => []
                                       end) l)) ->
  In key (map fst l).
Proof.
  induction l as [|[k [q|]] l IH]; cbn; tauto.
Qed.

Lemma assoc_valid_kpis (row : detail_row) (key : string) :
  NoDup (map fst (kpi_values row)) ->
  assoc key (valid_kpis row)
  = match assoc key (kpi_values row) with
    | Some (Some q) => Some q
    | Some None | None => None
    end.
Proof.
  unfold valid_kpis. induction (kpi_values row) as [|[k v] l IH]; cbn; [reflexivity|].
  intros Hnd. apply NoDup_cons in Hnd as [Hk Hnd].
  destruct v as [q|]; cbn.
  - destruct (String.eqb_spec k key); [reflexivity|]. now apply IH.
  - destruct (String.eqb_spec k key) as [->|Hne]; [|now apply IH].
    apply assoc_not_in. intros Hin. apply Hk.
    apply list_elem_of_In. now apply valid_keys_subset.
Qed.

Lemma detail_values_rows (table_name : string) (kpi_configs : list (string * kpi_config))
  (batch : list detail_row) :
  Forall (fun row => NoDup (map fst (kpi_values row))) batch ->
  fst (detail_values table_name kpi_configs batch)
  = map (detail_tuple kpi_configs) (List.filter has_value batch).
Proof.
  induction batch as [|row rest IH]; intros Hnd; [reflexivity|].
  apply Forall_cons in Hnd as [Hrow Hrest].
  cbn [detail_values List.filter].
  destruct (valid_kpis row) as [|kv l] eqn:Hvalid.
  - apply valid_kpis_nil_iff in Hvalid. rewrite Hvalid. cbn [fst]. now apply IH.
  - assert (Hhas : has_value row = true).
    { destruct (has_value row) eqn:Hh; [reflexivity|].
      apply valid_kpis_nil_iff in Hh. congruence. }
    rewrite Hhas. cbn [fst map]. rewrite (IH Hrest). f_equal.
    unfold detail_tuple. f_equal. apply map_ext. intros kc.
    rewrite <- Hvalid, (assoc_valid_kpis row (fst kc) Hrow).
    destruct (assoc (fst kc) (kpi_values row)) as [[q|]|]; reflexivity.
Qed.

Lemma detail_values_warnings (table_name : string) (kpi_configs : list (string * kpi_config))
  (batch : list detail_row) :
  snd (detail_values table_name kpi_configs batch)
  = map (no_valid_values_warning table_name)
        (List.filter (fun row => negb (has_value row)) batch).
Proof.
  induction batch as [|row rest IH]; [reflexivity|].
  cbn [detail_values List.filter].
  destruct (valid_kpis row) as [|kv l] eqn:Hvalid.
  - apply valid_kpis_nil_iff in Hvalid. rewrite Hvalid. cbn [snd negb map].
    now rewrite IH.
  - assert (Hhas : has_value row = true).
    { destruct (has_value row) eqn:Hh; [reflexivity|].
      apply valid_kpis_nil_iff in Hh. congruence. }
    rewrite Hhas. cbn [snd negb]. exact IH.
Qed.

Lemma buffer_rows_have_value (table_name : string) (kpi_configs : list (string * kpi_config))
  (kid : Z) (suffix_data : list (string * suffix_group)) :
  Forall (fun row => has_value row = true)
         (fst (buffer_rows table_name kpi_configs kid suffix_data)).
Proof.
  induction suffix_data as [|[s data] rest IH]; cbn [buffer_rows]; [constructor|].
  destruct (existsb _ (calculate_kpis (counters data) kpi_configs)) eqn:Hex; cbn [fst].
  - constructor; [exact Hex|exact IH].
  - exact IH.
Qed.

End DetailRows.

(** C4 as stated does not hold: for the row [{a: 1, b: None}] of a table
    with the KPI columns [a] and [b], the committed statement names the
    column [b] (and binds NULL to it). *)
Lemma null_kpi_column_is_named : ~ KpiSpec.null_columns_omitted.
Proof.
  intros H.
  apply (H (fun _ => true) KpiSamples.two_columns "t" [KpiSamples.half_null_row]
           KpiSamples.empty_world
           {| Transformer.into := "t";
              Transformer.columns := ["kpi_id"; "operator"; "suffix"; "a"; "b"];
              Transformer.rows :=
                [[Transformer.SqlInt 1; Transformer.SqlStr "Inwi";
                  Transformer.SqlStr "xyz-nw"; Transformer.SqlNum 1;
                  Transformer.SqlNull]] |}
           KpiSamples.half_null_row "b").
  - left. reflexivity.
  - intros [].
  - left. reflexivity.
  - reflexivity.
  - reflexivity.
  - cbn. tauto.
Qed.

(** C4, amended. [insert_kpi_details] commits at most one statement for a
    batch. The statement always names the three identifier columns and
    every KPI column of the table; its tuples are those of the rows that
    carry at least one non-null KPI value, in order, each binding to
    every KPI column the value of the row, and NULL where the row has
    none. A row whose KPI values are all null adds no tuple and is logged
    with a warning; when no row is left, or the destination refuses the
    statement, nothing is committed. The rows that [process] buffers all
    carry a non-null value. *)
Theorem all_null_rows_never_inserted
  (accepts : Transformer.insert_stmt -> bool) (self : Transformer.t) (table_name : string)
  (table_config : TransformerConfig.table_config) (batch : list Transformer.detail_row)
  (w : Transformer.World) :
  Transformer.assoc table_name (Transformer.tables self) = Some table_config ->
  Forall (fun row => NoDup (map fst (Transformer.kpi_values row))) batch ->
  let kpi_configs := TransformerConfig.kpis table_config in
  let stmt :=
    {| Transformer.into := table_name;
       Transformer.columns := ["kpi_id"; "operator"; "suffix"] ++ map fst kpi_configs;
       Transformer.rows :=
         map (KpiSpec.detail_tuple kpi_configs) (List.filter KpiSpec.has_value batch) |} in
  let w' := snd (Transformer.insert_kpi_details accepts self table_name batch w) in
  Transformer.committed w'
    = Transformer.committed w
      ++ (if forallb (fun row => negb (KpiSpec.has_value row)) batch then []
          else if accepts stmt then [stmt] else []) /\
  Transformer.log w'
    = Transformer.log w
      ++ map (KpiSpec.no_valid_values_warning table_name)
             (List.filter (fun row => negb (KpiSpec.has_value row)) batch) /\
  (forall kid suffix_data,
      Forall (fun row => KpiSpec.has_value row = true)
             (fst (Transformer.buffer_rows table_name kpi_configs kid suffix_data))).
Proof.
  intros Htable Hnd kpi_configs stmt w'. subst w'.
  unfold Transformer.insert_kpi_details. rewrite Htable. cbv zeta. fold kpi_configs.
  rewrite (detail_values_rows table_name kpi_configs batch Hnd).
  rewrite (detail_values_warnings table_name kpi_configs batch).
  assert (Hempty : forallb (fun row => negb (KpiSpec.has_value row)) batch
                   = match List.filter KpiSpec.has_value batch with
                     | [] => true
                     | _ :: _ => false
                     end).
  { clear. induction batch as [|row rest IH]; [reflexivity|]. cbn.
    destruct (KpiSpec.has_value row); cbn; [reflexivity|exact IH]. }
  rewrite Hempty. subst stmt.
  split; [|split; [|intros; apply buffer_rows_have_value]].
  - destruct (List.filter KpiSpec.has_value batch) as [|r l]; cbn [map].
    + cbn. now rewrite app_nil_r.
    + destruct (accepts _); cbn; [reflexivity|now rewrite app_nil_r].
  - destruct (List.filter KpiSpec.has_value batch) as [|r l]; cbn [map];
      [reflexivity|]. destruct (accepts _); reflexivity.
Qed.

Lemma all_null_rows_never_inserted_witness :
  let batch := [KpiSamples.half_null_row; KpiSamples.all_null_row] in
  let stmt :=
    {| Transformer.into := "t";
       Transformer.columns := ["kpi_id"; "operator"; "suffix"] ++ map fst KpiSamples.two_kpis;
       Transformer.rows :=
         map (KpiSpec.detail_tuple KpiSamples.two_kpis)
             (List.filter KpiSpec.has_value batch) |} in
  let w' := snd (Transformer.insert_kpi_details (fun _ => true) KpiSamples.two_columns "t"
                   batch KpiSamples.empty_world) in
  Transformer.committed w'
    = Transformer.committed KpiSamples.empty_world
      ++ (if forallb (fun row => negb (KpiSpec.has_value row)) batch then []
          else if (fun _ => true) stmt then [stmt] else []) /\
  Transformer.log w'
    = Transformer.log KpiSamples.empty_world
      ++ map (KpiSpec.no_valid_values_warning "t")
             (List.filter (fun row => negb (KpiSpec.has_value row)) batch) /\
  (forall kid suffix_data,
      Forall (fun row => KpiSpec.has_value row = true)
             (fst (Transformer.buffer_rows "t" KpiSamples.two_kpis kid suffix_data))).
Proof.
  apply (all_null_rows_never_inserted (fun _ => true) KpiSamples.two_columns "t"
           {| TransformerConfig.kpis := KpiSamples.two_kpis |}
           [KpiSamples.half_null_row; KpiSamples.all_null_row] KpiSamples.empty_world).
  - reflexivity.
  - repeat constructor; apply (bool_decide_unpack _); vm_compute; reflexivity.
Defined.

(** ** Suffixes and operators *)

Section Operators.
Import TransformerConfig Transformer KpiSpec.

Lemma starts_with_spec (k s : list ascii) :
  starts_with k s = true <-> exists post, s = k ++ post.
Proof.
  revert s. induction k as [|a k IH]; intros s; cbn.
  - split; [intros _; now exists s|reflexivity].
  - destruct s as [|b s].
    + split; [discriminate|]. intros [post Hpost]. discriminate.
    + rewrite andb_true_iff, IH. split.
      * intros [Hab [post ->]]. apply Ascii.eqb_eq in Hab as ->. now exists post.
      * intros [post [= -> ->]]. split; [apply Ascii.eqb_refl|now exists post].
Qed.

Lemma contains_spec (k s : list ascii) :
  contains k s = true <-> exists pre post, s = pre ++ k ++ post.
Proof.
  induction s as [|b s IH]; cbn [contains]; rewrite orb_true_iff, starts_with_spec.
  - split.
    + intros [[post Hpost]|Hf]; [now exists [], post|discriminate].
    + intros (pre & post & Heq). left.
      destruct pre; [now exists post|discriminate].
  - rewrite IH. split.
    + intros [[post Hpost]|(pre & post & ->)]; [now exists [], post|].
      now exists (b :: pre), post.
    + intros (pre & post & Heq). destruct pre as [|c pre].
      * left. now exists post.
      * right. injection Heq as -> ->. now exists pre, post.
Qed.

Lemma key_matches_spec (s k : string) :
  key_matches (lower (chars s)) k = true <-> k <> "" /\ occurs_ignoring_case k s.
Proof.
  unfold key_matches, occurs_ignoring_case.
  rewrite andb_true_iff, negb_true_iff, contains_spec.
  destruct (String.eqb_spec k ""); intuition congruence.
Qed.

Lemma find_first {A} (f : A -> bool) (pre post : list A) (x : A) :
  (forall y, In y pre -> f y = false) -> f x = true ->
  List.find f (pre ++ x :: post) = Some x.
Proof.
  intros Hpre Hx. induction pre as [|y pre IH]; cbn.
  - now rewrite Hx.
  - rewrite (Hpre y (or_introl eq_refl)). apply IH. intros z Hz. apply Hpre. now right.
Qed.

Lemma find_nothing {A} (f : A -> bool) (l : list A) :
  (forall y, In y l -> f y = false) -> List.find f l = None.
Proof.
  intros Hl. induction l as [|y l IH]; cbn; [reflexivity|].
  rewrite (Hl y (or_introl eq_refl)). apply IH. intros z Hz. apply Hl. now right.
Qed.

Lemma resolve_operator_first (mapping pre post : list (string * string))
  (s k v : string) :
  mapping = pre ++ (k, v) :: post ->
  k <> "" -> occurs_ignoring_case k s ->
  (forall kv, In kv pre -> ~ (fst kv <> "" /\ occurs_ignoring_case (fst kv) s)) ->
  resolve_operator mapping s = v.
Proof.
  intros -> Hk Hocc Hpre. unfold resolve_operator.
  rewrite (find_first _ pre post (k, v)); [reflexivity| |].
  - intros kv Hin. destruct (key_matches _ (fst kv)) eqn:Hm; [|reflexivity].
    apply key_matches_spec in Hm. now destruct (Hpre kv Hin).
  - apply key_matches_spec. now split.
Qed.

Lemma resolve_operator_other (mapping : list (string * string)) (s : string) :
  (forall kv, In kv mapping -> ~ (fst kv <> "" /\ occurs_ignoring_case (fst kv) s)) ->
  resolve_operator mapping s = "Other".
Proof.
  intros Hnone. unfold resolve_operator. rewrite find_nothing; [reflexivity|].
  intros kv Hin. destruct (key_matches _ (fst kv)) eqn:Hm; [|reflexivity].
  apply key_matches_spec in Hm. now destruct (Hnone kv Hin).
Qed.

Lemma insert_unique_In (x y : string) (l : list string) :
  In x (insert_unique y l) <-> x = y \/ In x l.
Proof.
  induction l as [|z l IH]; cbn; [intuition congruence|].
  destruct (String.eqb_spec y z) as [->|Hne]; [cbn; intuition congruence|].
  destruct (String.ltb y z); cbn; [intuition congruence|]. rewrite IH.
  intuition congruence.
Qed.

Lemma sorted_unique_In (x : string) (l : list string) :
  In x (sorted_unique l) <-> In x l.
Proof.
  unfold sorted_unique. induction l as [|y l IH]; cbn; [tauto|].
  rewrite insert_unique_In, IH. intuition congruence.
Qed.

Lemma tag_rows_operator (self : Transformer.t) (df : list df_row) (tr : tagged_row) :
  In tr (tag_rows self df) ->
  row_operator tr = resolve_operator (suffix_operator_mapping self) (row_suffix tr).
Proof.
  unfold tag_rows. rewrite in_flat_map. intros (r & _ & Hin).
  destruct (TransformerTools.extract_indicateur_suffixe (indicateur r)) as [p [s|]];
    [|contradiction].
  destruct (String.eqb s "M"); [contradiction|].
  destruct Hin as [<-|[]]. reflexivity.
Qed.

Lemma tag_rows_keeps (self : Transformer.t) (df : list df_row) (r : df_row)
  (prefix s : string) :
  In r df ->
  TransformerTools.extract_indicateur_suffixe (indicateur r) = (prefix, Some s) ->
  s <> "M" ->
  In {| row_prefix := prefix; row_suffix := s;
        row_operator := resolve_operator (suffix_operator_mapping self) s;
        row_valeur := valeur r |} (tag_rows self df).
Proof.
  intros Hin Hsplit Hne. unfold tag_rows. apply in_flat_map. exists r.
  split; [exact Hin|]. rewrite Hsplit.
  destruct (String.eqb_spec s "M"); [contradiction|]. now left.
Qed.

Lemma first_operator_of (self : Transformer.t) (df : list df_row) (s : string) :
  In s (map row_suffix (tag_rows self df)) ->
  first_operator (tag_rows self df) s = resolve_operator (suffix_operator_mapping self) s.
Proof.
  intros Hin. unfold first_operator.
  destruct (List.find _ (tag_rows self df)) as [tr|] eqn:Hfind.
  - apply find_some in Hfind as [Htr Hs]. apply String.eqb_eq in Hs as <-.
    now apply tag_rows_operator with df.
  - apply in_map_iff in Hin as (tr & <- & Htr).
    pose proof (find_none _ _ Hfind tr Htr) as Hno. cbn in Hno.
    now rewrite String.eqb_refl in Hno.
Qed.

End Operators.

(** C6 as stated does not hold. A mapping entry with an empty key occurs
    in every suffix, yet it is passed over: with the mapping
    [{"": "X", "nw": "Inwi"}] the suffix ["zzz"] resolves to ["Other"],
    not to ["X"]. And the suffix ["M"], which matches no entry of the
    configured mapping, is dropped from the aggregation and not flagged. *)
Lemma empty_key_skipped_and_sentinel_dropped :
  Transformer.resolve_operator [("", "X"); ("nw", "Inwi")] "zzz"
    <> KpiSpec.first_substring_label [("", "X"); ("nw", "Inwi")] "zzz" /\
  Transformer.resolve_operator TransformerConfig.SUFFIX_OPERATOR_MAPPING "M" = "Other" /\
  Transformer.aggregate_by_suffix KpiSamples.mgw KpiSamples.sentinel_only = Ok ([], []).
Proof.
  split; [|split].
  - vm_compute. discriminate.
  - reflexivity.
  - reflexivity.
Qed.

(** C6, amended. The operator of a suffix is the label of the first
    mapping entry, in declared order, whose key is not empty and occurs
    in the suffix when case is ignored, and ["Other"] when there is no
    such entry. Every suffix other than the sentinel ["M"] that occurs in
    the data is kept by [aggregate_by_suffix] with that operator, and is
    listed in the warning about unmapped suffixes when the operator is
    ["Other"]. The suffix ["xyz-nw"] with the mapping [{"nw": "Inwi"}]
    resolves to ["Inwi"], and ["zzz"] to ["Other"]. *)
Theorem operator_is_first_nonempty_match (self : Transformer.t) :
  (forall s pre k v post,
      Transformer.suffix_operator_mapping self = pre ++ (k, v) :: post ->
      k <> "" -> KpiSpec.occurs_ignoring_case k s ->
      (forall kv, In kv pre ->
                  ~ (fst kv <> "" /\ KpiSpec.occurs_ignoring_case (fst kv) s)) ->
      Transformer.resolve_operator (Transformer.suffix_operator_mapping self) s = v) /\
  (forall s,
      (forall kv, In kv (Transformer.suffix_operator_mapping self) ->
                  ~ (fst kv <> "" /\ KpiSpec.occurs_ignoring_case (fst kv) s)) ->
      Transformer.resolve_operator (Transformer.suffix_operator_mapping self) s = "Other") /\
  (forall df r prefix s,
      In r df ->
      TransformerTools.extract_indicateur_suffixe (Transformer.indicateur r)
        = (prefix, Some s) ->
      s <> "M" ->
      exists grouped warnings g,
        Transformer.aggregate_by_suffix self df = Ok (grouped, warnings) /\
        In (s, g) grouped /\
        Transformer.group_operator g
          = Transformer.resolve_operator (Transformer.suffix_operator_mapping self) s /\
        (Transformer.group_operator g = "Other" ->
         exists unmapped,
           warnings = [Transformer.WarningUnmappedSuffixes unmapped] /\ In s unmapped)) /\
  Transformer.resolve_operator [("nw", "Inwi")] "xyz-nw" = "Inwi" /\
  Transformer.resolve_operator [("nw", "Inwi")] "zzz" = "Other".
Proof.
  split; [|split; [|split; [|split; reflexivity]]].
  - intros s pre k v post Hmap Hk Hocc Hpre.
    now apply resolve_operator_first with pre post k.
  - intros s Hnone. now apply resolve_operator_other.
  - intros df r prefix s Hin Hsplit Hne.
    pose proof (tag_rows_keeps self df r prefix s Hin Hsplit Hne) as Htr.
    set (tr := {| Transformer.row_prefix := prefix; Transformer.row_suffix := s;
                  Transformer.row_operator :=
                    Transformer.resolve_operator (Transformer.suffix_operator_mapping self) s;
                  Transformer.row_valeur := Transformer.valeur r |}) in *.
    assert (Hs : In s (map Transformer.row_suffix (Transformer.tag_rows self df))).
    { apply in_map_iff. now exists tr. }
    destruct df as [|r0 df0]; [contradiction|].
    unfold Transformer.aggregate_by_suffix.
    set (rows := Transformer.tag_rows self (r0 :: df0)) in *.
    eexists _, _, _. split; [reflexivity|]. split; [|split].
    + apply in_map_iff. exists s. split; [reflexivity|]. now apply sorted_unique_In.
    + cbn [Transformer.group_operator]. now apply first_operator_of.
    + cbn [Transformer.group_operator]. unfold rows. rewrite first_operator_of by exact Hs.
      intros Hother.
      assert (Hunmapped : In s (Transformer.sorted_unique
                 (map Transformer.row_suffix
                    (List.filter (fun r => String.eqb (Transformer.row_operator r) "Other")
                                 (Transformer.tag_rows self (r0 :: df0)))))).
      { apply sorted_unique_In. apply in_map_iff. exists tr. split; [reflexivity|].
        apply filter_In. split; [exact Htr|]. cbn. rewrite Hother. reflexivity. }
      destruct (Transformer.sorted_unique _) as [|u us] eqn:Hlist; [contradiction|].
      exists (u :: us). split; [reflexivity|exact Hunmapped].
Qed.


(** * Whole numbers in binary64 *)

Section WholeNumbers.
Local Open Scope Z_scope.

(** The number of binary digits of a positive int. *)
Local Abbreviation digits v := (Z.log2 v + 1).

(** The float of a positive int below 2^53: its digits moved up to fill
    the 53 places of the mantissa. *)
Local Abbreviation whole v :=
  (S754_finite false (Z.to_pos (v * 2 ^ (53 - digits v))) (digits v - 53)).

Lemma digits2_pos_log2 (p : positive) : Zpos (digits2_pos p) = digits (Zpos p).
Proof.
  induction p as [p IH|p IH|]; cbn [digits2_pos]; [| |reflexivity].
  - rewrite Pos2Z.inj_succ, IH, Pos2Z.inj_xI, Z.log2_succ_double by lia. lia.
  - rewrite Pos2Z.inj_succ, IH, Pos2Z.inj_xO, Z.log2_double by lia. lia.
Qed.

Lemma digits_bound (v : Z) : 0 < v < 2 ^ 53 -> 1 <= digits v <= 53.
Proof.
  intros [Hpos Hlt]. pose proof (Z.log2_nonneg v).
  apply Z.log2_lt_pow2 in Hlt; lia.
Qed.

Lemma digits_shift (v k : Z) : 0 < v -> 0 <= k -> digits (v * 2 ^ k) = digits v + k.
Proof. intros Hv Hk. rewrite Z.log2_mul_pow2 by lia. lia. Qed.

Lemma shift_pos_Z (a k : positive) : Zpos (Pos.iter xO a k) = Zpos a * 2 ^ Zpos k.
Proof.
  rewrite (Pos.iter_swap_gen _ _ Zpos xO (Z.mul 2)) by reflexivity.
  change (Pos.iter (Z.mul 2) (Zpos a) k) with (Z.shiftl (Zpos a) (Zpos k)).
  apply Z.shiftl_mul_pow2. lia.
Qed.

(** Shifting out places that hold zeros loses nothing. *)
Lemma iter_shr_exact (k : positive) :
  forall a : positive,
    SpecFloat.iter_pos shr_1 k {| shr_m := Zpos (Pos.iter xO a k); shr_r := false; shr_s := false |}
    = {| shr_m := Zpos a; shr_r := false; shr_s := false |}.
Proof.
  induction k as [k IH|k IH|]; intros a; cbn [SpecFloat.iter_pos Pos.iter].
  - cbn [shr_1 orb]. now rewrite !IH.
  - now rewrite !IH.
  - reflexivity.
Qed.

(** A mantissa that is a whole number below 2^53 followed by zeros is
    brought to 53 places without a remainder. *)
Lemma shr_fexp_exact (v : Z) (m : positive) (k : Z) :
  0 < v < 2 ^ 53 -> Zpos m = v * 2 ^ k -> 53 - digits v <= k ->
  shr_fexp 53 1024 (Zpos m) (- k) loc_Exact
  = ({| shr_m := v * 2 ^ (53 - digits v); shr_r := false; shr_s := false |},
     digits v - 53).
Proof.
  intros Hv Hm Hk. pose proof (digits_bound v Hv) as Hd.
  assert (Hlog : Z.log2 (Zpos m) = Z.log2 v + k)
    by (rewrite Hm, Z.log2_mul_pow2; lia).
  unfold shr_fexp. cbn [Zdigits2 shr_record_of_loc].
  rewrite digits2_pos_log2, Hlog. unfold fexp, emin.
  replace (Z.max (Z.log2 v + k + 1 + - k - 53) (3 - 1024 - 53) - - k)
    with (digits v - 53 + k) by lia.
  unfold shr. destruct (digits v - 53 + k) as [|p|p] eqn:Hn; [| |lia].
  - f_equal; [|lia]. f_equal. rewrite Hm. f_equal. f_equal. lia.
  - assert (Ha : 0 < v * 2 ^ (53 - digits v)) by (apply Z.mul_pos_pos; [|apply Z.pow_pos_nonneg]; lia).
    assert (Hshift : m = Pos.iter xO (Z.to_pos (v * 2 ^ (53 - digits v))) p).
    { apply Pos2Z.inj. rewrite shift_pos_Z, Z2Pos.id, Hm by exact Ha.
      rewrite <- Z.mul_assoc, <- Z.pow_add_r by lia. f_equal. f_equal. lia. }
    rewrite Hshift, iter_shr_exact, Z2Pos.id by exact Ha. f_equal. lia.
Qed.

(** ... and rounding has nothing to do. *)
Lemma binary_round_aux_exact (v : Z) (m : positive) (k : Z) :
  0 < v < 2 ^ 53 -> Zpos m = v * 2 ^ k -> 53 - digits v <= k ->
  binary_round_aux 53 1024 false (Zpos m) (- k) loc_Exact = whole v.
Proof.
  intros Hv Hm Hk. pose proof (digits_bound v Hv) as Hd.
  assert (Ha : 0 < v * 2 ^ (53 - digits v)) by (apply Z.mul_pos_pos; [|apply Z.pow_pos_nonneg]; lia).
  unfold binary_round_aux. rewrite (shr_fexp_exact v m k Hv Hm Hk).
  cbn [shr_m loc_of_shr_record round_nearest_even].
  rewrite <- (Z2Pos.id (v * 2 ^ (53 - digits v)) Ha) at 1.
  replace (digits v - 53) with (- (53 - digits v)) at 1 by lia.
  rewrite (shr_fexp_exact v _ (53 - digits v) Hv); [|now rewrite Z2Pos.id|lia].
  cbn [shr_m]. rewrite <- (Z2Pos.id (v * 2 ^ (53 - digits v)) Ha) at 1.
  replace (digits v - 53 <=? 1024 - 53) with true by (symmetry; apply Z.leb_le; lia).
  reflexivity.
Qed.

Lemma binary_round_exact (v : Z) (m : positive) (k : Z) :
  0 < v < 2 ^ 53 -> Zpos m = v * 2 ^ k -> 0 <= k ->
  binary_round 53 1024 false m (- k) = whole v.
Proof.
  intros Hv Hm Hk. pose proof (digits_bound v Hv) as Hd.
  assert (Hlog : Z.log2 (Zpos m) = Z.log2 v + k)
    by (rewrite Hm, Z.log2_mul_pow2; lia).
  unfold binary_round. rewrite digits2_pos_log2, Hlog.
  unfold fexp, emin.
  replace (Z.max (Z.log2 v + k + 1 + - k - 53) (3 - 1024 - 53))
    with (- (53 - digits v)) by lia.
  unfold shl_align.
  destruct (- (53 - digits v) - - k) as [|p|p] eqn:Hn.
  - apply binary_round_aux_exact; [exact Hv|exact Hm|lia].
  - apply binary_round_aux_exact; [exact Hv|exact Hm|lia].
  - apply binary_round_aux_exact; [exact Hv| |lia].
    rewrite shift_pos_Z, Hm, <- Z.mul_assoc, <- Z.pow_add_r by lia. f_equal. f_equal. lia.
Qed.

(** [float(v)] is exact below 2^53. *)
Lemma float_of_int_whole (v : Z) : 0 < v < 2 ^ 53 -> float_of_int v = whole v.
Proof.
  intros Hv. unfold float_of_int, binary_normalize.
  destruct v as [|p|p]; [lia| |lia].
  apply (binary_round_exact (Zpos p) p 0); [exact Hv|lia|lia].
Qed.

Lemma float_mul_whole (a b : Z) :
  0 < a -> 0 < b -> a * b < 2 ^ 53 ->
  float_mul (float_of_int a) (float_of_int b) = float_of_int (a * b).
Proof.
  intros Ha Hb Hab.
  assert (Ha' : 0 < a < 2 ^ 53) by nia. assert (Hb' : 0 < b < 2 ^ 53) by nia.
  assert (Hab' : 0 < a * b < 2 ^ 53) by nia.
  pose proof (digits_bound a Ha') as Hda. pose proof (digits_bound b Hb') as Hdb.
  pose proof (Z.log2_mul_below a b Ha Hb) as Hlog.
  assert (Hma : 0 < a * 2 ^ (53 - digits a)) by (apply Z.mul_pos_pos; [|apply Z.pow_pos_nonneg]; lia).
  assert (Hmb : 0 < b * 2 ^ (53 - digits b)) by (apply Z.mul_pos_pos; [|apply Z.pow_pos_nonneg]; lia).
  rewrite (float_of_int_whole a Ha'), (float_of_int_whole b Hb'),
    (float_of_int_whole (a * b) Hab').
  unfold float_mul, SFmul, prec, emax. cbn [xorb].
  replace (digits a - 53 + (digits b - 53)) with (- (106 - digits a - digits b)) by lia.
  apply binary_round_aux_exact; [exact Hab'| |lia].
  rewrite Pos2Z.inj_mul, !Z2Pos.id by assumption.
  replace (106 - digits a - digits b) with ((53 - digits a) + (53 - digits b)) by lia.
  rewrite Z.pow_add_r by lia. ring.
Qed.

Lemma shl_align_fst (m : positive) (ex ex' : Z) :
  ex' <= ex -> Zpos (fst (shl_align m ex ex')) = Zpos m * 2 ^ (ex - ex').
Proof.
  intros Hle. unfold shl_align. destruct (ex' - ex) as [|p|p] eqn:Hd; cbn [fst].
  - replace (ex - ex') with 0 by lia. lia.
  - lia.
  - rewrite shift_pos_Z. f_equal. f_equal. lia.
Qed.

Lemma float_add_whole (a b : Z) :
  0 < a -> 0 < b -> a + b < 2 ^ 53 ->
  float_add (float_of_int a) (float_of_int b) = float_of_int (a + b).
Proof.
  intros Ha Hb Hab.
  assert (Ha' : 0 < a < 2 ^ 53) by lia. assert (Hb' : 0 < b < 2 ^ 53) by lia.
  assert (Hab' : 0 < a + b < 2 ^ 53) by lia.
  pose proof (digits_bound a Ha') as Hda. pose proof (digits_bound b Hb') as Hdb.
  assert (Hma : 0 < a * 2 ^ (53 - digits a)) by (apply Z.mul_pos_pos; [|apply Z.pow_pos_nonneg]; lia).
  assert (Hmb : 0 < b * 2 ^ (53 - digits b)) by (apply Z.mul_pos_pos; [|apply Z.pow_pos_nonneg]; lia).
  rewrite (float_of_int_whole a Ha'), (float_of_int_whole b Hb'),
    (float_of_int_whole (a + b) Hab').
  unfold float_add, SFadd, prec, emax. cbn [cond_Zopp Z.add binary_normalize].
  set (ez := Z.min (digits a - 53) (digits b - 53)).
  replace ez with (- - ez) at 3 by lia.
  apply binary_round_exact; [exact Hab'| |lia].
  rewrite Pos2Z.inj_add, !shl_align_fst, !Z2Pos.id by (try assumption; lia).
  rewrite <- !Z.mul_assoc, <- !Z.pow_add_r by lia.
  replace (53 - digits a + (digits a - 53 - ez)) with (- ez) by lia.
  replace (53 - digits b + (digits b - 53 - ez)) with (- ez) by lia.
  ring.
Qed.

(** The float of a whole number below 2^53 is equal to that number. *)
Lemma float_int_whole (v : Z) : 0 <= v < 2 ^ 53 -> float_int (float_of_int v) = Some v.
Proof.
  intros Hv. destruct (Z.eq_dec v 0) as [->|Hne]; [reflexivity|].
  assert (Hv' : 0 < v < 2 ^ 53) by lia. pose proof (digits_bound v Hv') as Hd.
  assert (Hm : 0 < v * 2 ^ (53 - digits v)) by (apply Z.mul_pos_pos; [|apply Z.pow_pos_nonneg]; lia).
  rewrite (float_of_int_whole v Hv'). unfold float_int.
  destruct (digits v - 53) as [|p|p] eqn:He; [|lia|].
  - rewrite Z2Pos.id by exact Hm. replace (53 - digits v) with 0 by lia.
    f_equal. lia.
  - rewrite Z2Pos.id by exact Hm. rewrite Pos2Z.inj_pow.
    replace (53 - digits v) with (Zpos p) by lia.
    rewrite Z.mod_mul, Z.div_mul by lia. reflexivity.
Qed.

End WholeNumbers.

(** ** The counters rebuilt from a Hi and a Lo field *)

Section Rebuilt.
Import TransformerConfig.
Local Open Scope Z_scope.

(** [hi * 2147483648 + lo] on the floats of two whole numbers. *)
Lemma rebuilt_whole (h l : Z) :
  0 <= h -> 0 <= l -> h * 2 ^ 31 + l < 2 ^ 53 ->
  float_add (float_mul (float_of_int h) (float_of_int 2147483648)) (float_of_int l)
  = float_of_int (h * 2 ^ 31 + l).
Proof.
  intros Hh Hl Hlt. change 2147483648 with (2 ^ 31).
  destruct (Z.eq_dec h 0) as [->|Hh0].
  - change (float_mul (float_of_int 0) (float_of_int (2 ^ 31))) with (float_of_int 0).
    destruct (Z.eq_dec l 0) as [->|Hl0]; [reflexivity|].
    rewrite Z.mul_0_l, Z.add_0_l, (float_of_int_whole l) by lia. reflexivity.
  - rewrite float_mul_whole by lia.
    destruct (Z.eq_dec l 0) as [->|Hl0].
    + rewrite Z.add_0_r, (float_of_int_whole (h * 2 ^ 31)) by lia. reflexivity.
    + apply float_add_whole; lia.
Qed.

End Rebuilt.

(** C7 as stated does not hold for every pair: the counters are floats,
    and with hi = 4194305 and lo = 1, both held exactly, the formula of
    [pmRtpReceivedPkts] gives the float 9007201402224640, while
    hi * 2^31 + lo is 9007201402224641. *)
Lemma rebuilt_counter_is_rounded_above_2_53 :
  float_int (float_of_int 4194305) = Some 4194305%Z /\
  float_int (float_of_int 1) = Some 1%Z /\
  exists r,
    TransformerConfig.pmRtpReceivedPkts_lambda binary64
      [float_of_int 4194305; float_of_int 1] = Ok (Some r) /\
    float_int r = Some 9007201402224640%Z /\
    float_int r <> Some (4194305 * 2 ^ 31 + 1)%Z.
Proof.
  split; [reflexivity|]. split; [reflexivity|].
  eexists. split; [vm_compute; reflexivity|]. split; [reflexivity|].
  vm_compute. discriminate.
Qed.

(** C7. The two formulas that rebuild a counter split over a "Hi" and a
    "Lo" field compute [hi * 2147483648 + lo], and 2147483648 is 2^31.
    On the floats that the counters are, the result is exact whenever hi
    and lo are whole numbers, not negative, with hi * 2^31 + lo below
    2^53: [pmRtpReceivedPkts] is the float of that number, and [PktLoss],
    given its two numerator counters (discarded, lost) and with the lost
    packets as third denominator counter, divides their sum by that
    number plus the lost packets. With hi = 1 and lo = 5
    the rebuilt value is 1 * 2^31 + 5 = 2147483653. On exact numbers the
    formula gives hi * 2^31 + lo for every pair. *)
Theorem hi_lo_reconstruction (h l : Z) :
  (0 <= h)%Z -> (0 <= l)%Z -> (h * 2 ^ 31 + l < 2 ^ 53)%Z ->
  TransformerConfig.pmRtpReceivedPkts_lambda binary64 [float_of_int h; float_of_int l]
    = Ok (Some (float_of_int (h * 2 ^ 31 + l))) /\
  float_int (float_of_int (h * 2 ^ 31 + l)) = Some (h * 2 ^ 31 + l)%Z /\
  float_int (float_of_int h) = Some h /\ float_int (float_of_int l) = Some l /\
  (forall discarded lost : float,
     TransformerConfig.PktLoss_lambda binary64 [discarded; lost]
       [float_of_int h; float_of_int l; lost]
     = if float_nonzero (float_add (float_of_int (h * 2 ^ 31 + l)) lost)
       then let? q := float_div (sum_in binary64 [discarded; lost])
                                (float_add (float_of_int (h * 2 ^ 31 + l)) lost) in
            Ok (Some (float_mul q (float_of_int 100)))
       else Ok None) /\
  TransformerConfig.pmRtpReceivedPkts_lambda binary64 [float_of_int 1; float_of_int 5]
    = Ok (Some (float_of_int 2147483653)) /\
  (1 * 2 ^ 31 + 5 = 2147483653)%Z /\
  (forall hi lo : Q,
     TransformerConfig.pmRtpReceivedPkts_lambda rational [hi; lo]
     = Ok (Some (hi * inject_Z (2 ^ 31) + lo)%Q)).
Proof.
  intros Hh Hl Hlt.
  assert (Hh' : (h < 2 ^ 53)%Z) by nia. assert (Hl' : (l < 2 ^ 53)%Z) by nia.
  split; [|split; [|split; [|split; [|split; [|split; [|split]]]]]].
  - unfold TransformerConfig.pmRtpReceivedPkts_lambda.
    cbn [py_index nth_error rbind add mul of_int binary64].
    now rewrite rebuilt_whole.
  - apply float_int_whole. nia.
  - apply float_int_whole. lia.
  - apply float_int_whole. lia.
  - intros discarded lost. unfold TransformerConfig.PktLoss_lambda.
    cbn [py_index nth_error rbind add mul of_int div nonzero binary64].
    now rewrite rebuilt_whole.
  - vm_compute. reflexivity.
  - reflexivity.
  - intros hi lo. reflexivity.
Qed.

Lemma hi_lo_reconstruction_witness :
  TransformerConfig.pmRtpReceivedPkts_lambda binary64 [float_of_int 3; float_of_int 7]
    = Ok (Some (float_of_int (3 * 2 ^ 31 + 7))) /\
  float_int (float_of_int (3 * 2 ^ 31 + 7)) = Some (3 * 2 ^ 31 + 7)%Z /\
  float_int (float_of_int 3) = Some 3%Z /\ float_int (float_of_int 7) = Some 7%Z /\
  (forall discarded lost : float,
     TransformerConfig.PktLoss_lambda binary64 [discarded; lost]
       [float_of_int 3; float_of_int 7; lost]
     = if float_nonzero (float_add (float_of_int (3 * 2 ^ 31 + 7)) lost)
       then let? q := float_div (sum_in binary64 [discarded; lost])
                                (float_add (float_of_int (3 * 2 ^ 31 + 7)) lost) in
            Ok (Some (float_mul q (float_of_int 100)))
       else Ok None) /\
  TransformerConfig.pmRtpReceivedPkts_lambda binary64 [float_of_int 1; float_of_int 5]
    = Ok (Some (float_of_int 2147483653)) /\
  (1 * 2 ^ 31 + 5 = 2147483653)%Z /\
  (forall hi lo : Q,
     TransformerConfig.pmRtpReceivedPkts_lambda rational [hi; lo]
     = Ok (Some (hi * inject_Z (2 ^ 31) + lo)%Q)).
Proof.
  apply (hi_lo_reconstruction 3 7); [lia|lia|reflexivity].
Defined.


(** * Properties of the table selector *)

(** ** The matcher *)

Section Matcher.
Import Re SelectSpec.
Variable ignorecase : bool.
Variable whole : list ascii.

Local Abbreviation run := (Re.run ignorecase whole).
Local Abbreviation match_at := (Re.match_at ignorecase whole).
Local Abbreviation search_from := (Re.search_from ignorecase whole).

Lemma run_Lit_inv (a : ascii) (s s' : list ascii) (c c' : captures) :
  In (s', c') (run (Lit a) s c) ->
  exists x, s = x :: s' /\ lit_match ignorecase a x = true /\ c' = c.
Proof.
  cbn. destruct s as [|x s0]; [intros []|].
  destruct (lit_match ignorecase a x) eqn:Hm; [|intros []].
  intros [[= <- <-]|[]]. now exists x.
Qed.

Lemma run_Class_inv (p : ascii -> bool) (s s' : list ascii) (c c' : captures) :
  In (s', c') (run (Class p) s c) ->
  exists x, s = x :: s' /\ class_match ignorecase p x = true /\ c' = c.
Proof.
  cbn. destruct s as [|x s0]; [intros []|].
  destruct (class_match ignorecase p x) eqn:Hm; [|intros []].
  intros [[= <- <-]|[]]. now exists x.
Qed.

Lemma run_Seq_iff (r1 r2 : regex) (s : list ascii) (c : captures)
  (st : list ascii * captures) :
  In st (run (Seq r1 r2) s c) <->
  exists s1 c1, In (s1, c1) (run r1 s c) /\ In st (run r2 s1 c1).
Proof.
  cbn. rewrite in_flat_map. split.
  - intros ([s1 c1] & H1 & H2). now exists s1, c1.
  - intros (s1 & c1 & H1 & H2). now exists (s1, c1).
Qed.

Lemma plus_runs_inv (p : ascii -> bool) (s s' : list ascii) :
  In s' (plus_runs p s) ->
  exists ds, ds <> [] /\ s = ds ++ s' /\ forallb p ds = true.
Proof.
  revert s'. induction s as [|x s IH]; intros s'; cbn; [intros []|].
  destruct (p x) eqn:Hp; [|intros []].
  rewrite in_app_iff. intros [Hin|[<-|[]]].
  - destruct (IH s' Hin) as (ds & Hne & -> & Hall).
    exists (x :: ds). cbn. rewrite Hp, Hall. repeat split. discriminate.
  - exists [x]. cbn. rewrite Hp. repeat split. discriminate.
Qed.

Lemma run_Plus_inv (p : ascii -> bool) (s s' : list ascii) (c c' : captures) :
  In (s', c') (run (Plus p) s c) ->
  c' = c /\ exists ds, ds <> [] /\ s = ds ++ s' /\
                       forallb (class_match ignorecase p) ds = true.
Proof.
  cbn. rewrite in_map_iff. intros (s0 & [= <- <-] & Hin).
  split; [reflexivity|]. now apply plus_runs_inv.
Qed.

Lemma run_Group_inv (n : nat) (r : regex) (s s' : list ascii) (c c' : captures) :
  In (s', c') (run (Group n r) s c) ->
  exists c1, In (s', c1) (run r s c) /\ c' = (n, consumed s s') :: c1.
Proof.
  cbn. rewrite in_map_iff. intros ([s0 c0] & [= <- <-] & Hin). now exists c0.
Qed.

Lemma run_Eol_inv (s s' : list ascii) (c c' : captures) :
  In (s', c') (run Eol s c) ->
  s' = s /\ c' = c /\ (s = [] \/ s = ["010"%char]).
Proof.
  cbn. destruct s as [|x [|y s0]].
  - intros [[= <- <-]|[]]. auto.
  - destruct (Ascii.eqb_spec x "010"%char) as [->|Hne]; [|intros []].
    intros [[= <- <-]|[]]. auto.
  - intros [].
Qed.

(** What a match leaves is a suffix of what it was given. *)
Lemma run_suffix (r : regex) :
  forall s c s' c', In (s', c') (run r s c) -> exists pre, s = pre ++ s'.
Proof.
  induction r as [|a|p|r1 IH1 r2 IH2|r1 IH1 r2 IH2|p|n r IH| |]; intros s c s' c' Hin.
  - destruct Hin as [[= <- <-]|[]]. now exists [].
  - apply run_Lit_inv in Hin as (x & -> & _). now exists [x].
  - apply run_Class_inv in Hin as (x & -> & _). now exists [x].
  - apply run_Seq_iff in Hin as (s1 & c1 & H1 & H2).
    destruct (IH1 _ _ _ _ H1) as [pre1 ->]. destruct (IH2 _ _ _ _ H2) as [pre2 ->].
    exists (pre1 ++ pre2). now rewrite app_assoc.
  - cbn in Hin. apply in_app_iff in Hin as [Hin|Hin]; eauto.
  - apply run_Plus_inv in Hin as (_ & ds & _ & -> & _). now exists ds.
  - apply run_Group_inv in Hin as (c1 & Hin & _). eauto.
  - cbn in Hin. destruct (_ =? _)%nat; [|destruct Hin].
    destruct Hin as [[= <- <-]|[]]. now exists [].
  - apply run_Eol_inv in Hin as (-> & _). now exists [].
Qed.

(** Groups and the captures carried along do not change what is left. *)
Lemma run_strip (r : regex) :
  forall s c c0, map fst (run r s c) = map fst (run (strip r) s c0).
Proof.
  induction r as [|a|p|r1 IH1 r2 IH2|r1 IH1 r2 IH2|p|n r IH| |]; intros s c c0;
    cbn [strip].
  - reflexivity.
  - cbn. destruct s as [|x s0]; [reflexivity|]. now destruct (lit_match _ _ _).
  - cbn. destruct s as [|x s0]; [reflexivity|]. now destruct (class_match _ _ _).
  - cbn [Re.run]. specialize (IH1 s c c0).
    revert IH1. generalize (run r1 s c) (run (strip r1) s c0).
    intros l1. induction l1 as [|[s1 c1] l1 IHl]; intros [|[s2 c2] l2] Heq;
      try discriminate; [reflexivity|].
    cbn in Heq. injection Heq as -> Heq. cbn [flat_map].
    rewrite !map_app. f_equal; [apply IH2|now apply IHl].
  - cbn [Re.run]. rewrite !map_app. f_equal; [apply IH1|apply IH2].
  - cbn. rewrite !map_map. reflexivity.
  - cbn [Re.run]. rewrite map_map. cbn [fst]. rewrite <- (IH s c c0).
    now rewrite <- map_map with (g := fun x => x), map_id.
  - cbn. now destruct (_ =? _)%nat.
  - cbn. destruct s as [|x [|y s0]]; try reflexivity. now destruct (Ascii.eqb _ _).
Qed.

Lemma run_nonempty_strip (r1 r2 : regex) (s : list ascii) (c1 c2 : captures) :
  strip r1 = strip r2 -> run r1 s c1 <> [] -> run r2 s c2 <> [].
Proof.
  intros Hstrip Hne Hnil. apply Hne.
  pose proof (run_strip r1 s c1 []) as H1. pose proof (run_strip r2 s c2 []) as H2.
  rewrite Hstrip, <- H2, Hnil in H1. now destruct (run r1 s c1).
Qed.

(** Captures are only added to. *)
Lemma run_keeps_group (n : nat) (r : regex) :
  forall s c s' c',
    In (s', c') (run r s c) -> is_Some (group n c) -> is_Some (group n c').
Proof.
  induction r as [|a|p|r1 IH1 r2 IH2|r1 IH1 r2 IH2|p|k r IH| |]; intros s c s' c' Hin Hc.
  - destruct Hin as [[= <- <-]|[]]. exact Hc.
  - apply run_Lit_inv in Hin as (x & _ & _ & ->). exact Hc.
  - apply run_Class_inv in Hin as (x & _ & _ & ->). exact Hc.
  - apply run_Seq_iff in Hin as (s1 & c1 & H1 & H2). eauto.
  - cbn in Hin. apply in_app_iff in Hin as [Hin|Hin]; eauto.
  - apply run_Plus_inv in Hin as (-> & _). exact Hc.
  - apply run_Group_inv in Hin as (c1 & Hin & ->). cbn.
    destruct (k =? n)%nat; [eauto|]. eauto.
  - cbn in Hin. destruct (_ =? _)%nat; [|destruct Hin].
    destruct Hin as [[= <- <-]|[]]. exact Hc.
  - apply run_Eol_inv in Hin as (_ & -> & _). exact Hc.
Qed.

Lemma run_defines_group (n : nat) (r : regex) :
  defines n r = true ->
  forall s c s' c', In (s', c') (run r s c) -> is_Some (group n c').
Proof.
  induction r as [|a|p|r1 IH1 r2 IH2|r1 IH1 r2 IH2|p|k r IH| |]; cbn [defines];
    try discriminate; intros Hdef s c s' c' Hin.
  - apply run_Seq_iff in Hin as (s1 & c1 & H1 & H2).
    apply orb_true_iff in Hdef as [Hdef|Hdef].
    + eapply run_keeps_group; eauto.
    + eauto.
  - apply andb_true_iff in Hdef as [Hd1 Hd2].
    cbn in Hin. apply in_app_iff in Hin as [Hin|Hin]; eauto.
  - apply run_Group_inv in Hin as (c1 & Hin & ->). cbn.
    destruct (k =? n)%nat eqn:Hk; [eauto|]. cbn in Hdef. eauto.
Qed.

Lemma match_at_Some (r : regex) (s : list ascii) (c : captures) :
  match_at r s = Some c -> exists s', In (s', c) (run r s []).
Proof.
  unfold Re.match_at. destruct (run r s []) as [|[s' c'] l]; [discriminate|].
  intros [= <-]. exists s'. now left.
Qed.

Lemma match_at_nonempty (r : regex) (s : list ascii) :
  run r s [] <> [] -> match_at r s <> None.
Proof.
  unfold Re.match_at. now destruct (run r s []) as [|[s' c'] l].
Qed.

Lemma search_from_Some (r : regex) (s : list ascii) (c : captures) :
  search_from r s = Some c ->
  exists pre s', s = pre ++ s' /\ match_at r s' = Some c.
Proof.
  induction s as [|x s IH]; cbn [Re.search_from].
  - destruct (match_at r []) eqn:Hm; [|discriminate].
    intros [= <-]. now exists [], [].
  - destruct (match_at r (x :: s)) eqn:Hm.
    + intros [= <-]. now exists [], (x :: s).
    + intros Hs. destruct (IH Hs) as (pre & s' & -> & Hm'). now exists (x :: pre), s'.
Qed.

Lemma search_from_found (r : regex) (text pre s' : list ascii) :
  text = pre ++ s' -> match_at r s' <> None -> search_from r text <> None.
Proof.
  intros -> Hm. induction pre as [|x pre IH]; cbn [app].
  - destruct s' as [|y s']; cbn [Re.search_from]; now destruct (match_at r _).
  - cbn [Re.search_from]. now destruct (match_at r (x :: pre ++ s')).
Qed.

Lemma flat_map_assoc {X Y Z} (f : X -> list Y) (g : Y -> list Z) (l : list X) :
  flat_map g (flat_map f l) = flat_map (fun x => flat_map g (f x)) l.
Proof.
  induction l as [|x l IH]; cbn; [reflexivity|]. now rewrite flat_map_app, IH.
Qed.

Lemma seqs_app (l1 l2 : list regex) (s : list ascii) (c : captures) :
  run (seqs (l1 ++ l2)) s c
  = flat_map (fun st => run (seqs l2) (fst st) (snd st)) (run (seqs l1) s c).
Proof.
  revert s c. induction l1 as [|r l1 IH]; intros s c.
  - cbn. now rewrite app_nil_r.
  - cbn [app seqs fold_right Re.run].
    change (fold_right Seq Eps (l1 ++ l2)) with (seqs (l1 ++ l2)).
    change (fold_right Seq Eps l1) with (seqs l1).
    rewrite flat_map_assoc. apply flat_map_ext. intros st. apply IH.
Qed.

End Matcher.

(** ** The patterns of [filter_by_start_date] and [sort_by_year_and_week] *)

Section Suffix.
Import Re SelectSpec Extract.

Lemma re_search_Some (p : pattern) (t : string) (m : captures) :
  re_search p t = Some m ->
  exists pre s s',
    chars t = pre ++ s /\
    In (s', m) (Re.run (IGNORECASE p) (chars t) (source p) s []).
Proof.
  unfold re_search. intros Hs.
  apply search_from_Some in Hs as (pre & s & Heq & Hm).
  apply match_at_Some in Hm as (s' & Hin). now exists pre, s, s'.
Qed.

Lemma re_search_groups (p : pattern) (n : nat) (t : string) (m : captures) :
  defines n (source p) = true -> re_search p t = Some m -> is_Some (group n m).
Proof.
  intros Hdef Hs. apply re_search_Some in Hs as (pre & s & s' & _ & Hin).
  eapply run_defines_group; eauto.
Qed.

Lemma week_year_of_None (t : string) :
  week_year_of t = None <-> re_search Tools.week_year_suffix t = None.
Proof.
  unfold week_year_of. destruct (re_search Tools.week_year_suffix t) as [m|] eqn:Hs;
    [|tauto].
  destruct (re_search_groups Tools.week_year_suffix 1 t m eq_refl Hs) as [w ->].
  destruct (re_search_groups Tools.week_year_suffix 2 t m eq_refl Hs) as [y ->].
  split; discriminate.
Qed.

(** Where the suffix pattern matches, so do the two patterns of the sort. *)
Lemma suffix_match_gives_sort_matches (t : string) :
  re_search Tools.week_year_suffix t <> None ->
  re_search Tools.year_suffix t <> None /\ re_search Tools.week_infix t <> None.
Proof.
  destruct (re_search Tools.week_year_suffix t) as [m|] eqn:Hs; [intros _|congruence].
  apply re_search_Some in Hs as (pre & s & s' & Heq & Hin).
  change (source Tools.week_year_suffix)
    with (seqs ([Lit "_"; Lit "S"; Group 1 (Plus is_digit)]
                ++ (Lit "_" :: Lit "A" :: [Group 2 (seqs ExtractorConfig.digit4); Eol])))
    in Hin.
  cbn [IGNORECASE Tools.week_year_suffix] in Hin.
  rewrite seqs_app in Hin. apply in_flat_map in Hin as ([s1 c1] & H1 & H2).
  cbn [fst snd] in H2.
  destruct (run_suffix _ _ _ _ _ _ _ H1) as [mid Hmid].
  split.
  - unfold re_search. apply (search_from_found _ _ _ _ (pre ++ mid) s1).
    { rewrite Heq, Hmid. now rewrite app_assoc. }
    apply match_at_nonempty.
    apply (run_nonempty_strip true (chars t)
             (seqs (Lit "_" :: Lit "A" :: [Group 2 (seqs ExtractorConfig.digit4); Eol]))
             (source Tools.year_suffix) s1 c1 []); [reflexivity|].
    intros Hnil. rewrite Hnil in H2. destruct H2.
  - unfold re_search. apply (search_from_found _ _ _ _ pre s Heq). apply match_at_nonempty.
    change (source Tools.week_infix)
      with (seqs ([Lit "_"; Lit "S"; Group 1 (Plus is_digit)] ++ [Lit "_"])).
    cbn [IGNORECASE Tools.week_infix].
    rewrite seqs_app. intros Hnil.
    assert (Hin : In (s1, c1) (Re.run true (chars t)
                                 (seqs [Lit "_"; Lit "S"; Group 1 (Plus is_digit)]) s []))
      by exact H1.
    change (seqs (Lit "_" :: Lit "A" :: [Group 2 (seqs ExtractorConfig.digit4); Eol]))
      with (Seq (Lit "_") (seqs (Lit "A" :: [Group 2 (seqs ExtractorConfig.digit4); Eol])))
      in H2.
    apply run_Seq_iff in H2 as (s2 & c2 & H2 & _).
    apply run_Lit_inv in H2 as (x & -> & Hx & ->).
    assert (Hres : In (s2, c1)
                     (flat_map (fun st => Re.run true (chars t) (seqs [Lit "_"]) (fst st) (snd st))
                        (Re.run true (chars t)
                           (seqs [Lit "_"; Lit "S"; Group 1 (Plus is_digit)]) s []))).
    { apply in_flat_map. exists (x :: s2, c1). split; [exact Hin|].
      cbn. rewrite Hx. cbn. now left. }
    rewrite Hnil in Hres. destruct Hres.
Qed.

Lemma search_int_defined (p : pattern) (t : string) :
  defines 1 (source p) = true -> re_search p t <> None ->
  exists k, Tools.search_int p t = Ok k.
Proof.
  intros Hdef Hs. unfold Tools.search_int.
  destruct (re_search p t) as [m|] eqn:Hm; [|congruence].
  destruct (re_search_groups p 1 t m Hdef Hm) as [ds Hds].
  unfold Tools.int_group. rewrite Hds. eauto.
Qed.

Lemma sort_key_defined (t : string) :
  week_year_of t <> None -> exists k, Tools.sort_key t = Ok k.
Proof.
  intros Hwy. assert (Hs : re_search Tools.week_year_suffix t <> None).
  { intros Hn. apply Hwy. now apply week_year_of_None. }
  destruct (suffix_match_gives_sort_matches t Hs) as [Hy Hw].
  destruct (search_int_defined Tools.year_suffix t eq_refl Hy) as [y Hyk].
  destruct (search_int_defined Tools.week_infix t eq_refl Hw) as [w Hwk].
  unfold Tools.sort_key. rewrite Hyk, Hwk. eauto.
Qed.

End Suffix.

(** ** Filtering by date *)

Section DateFilter.
Import Re SelectSpec Extract.
Local Open Scope py_scope.

Lemma strptime_raises_ValueError (year week : Z) (x : exn) :
  Calendar.strptime_year_week_monday year week = Raise x -> x = ValueError.
Proof.
  unfold Calendar.strptime_year_week_monday.
  destruct (_ && _ && _ && _)%bool; [|now intros [= <-]].
  destruct (_ && _)%bool; [discriminate|now intros [= <-]].
Qed.

Lemma filter_by_start_date_run (cutoff : Calendar.datetime) (tables : list string) :
  forall w, exists w',
    Tools.filter_by_start_date tables cutoff w
      = (Returns (List.filter (on_or_after cutoff) tables), w') /\
    clock w' = clock w /\
    last_extracted_json w' = last_extracted_json w /\
    dest_tables w' = dest_tables w /\
    txt_files w' = txt_files w /\
    trace w' = trace w ++ map (fun t => Log (date_log cutoff t)) tables.
Proof.
  induction tables as [|t rest IH]; intros w.
  - exists w. cbn. rewrite app_nil_r. repeat split.
  - cbn [Tools.filter_by_start_date List.filter map].
    assert (Hstep : exists w1,
      match re_search Tools.week_year_suffix t with
      | Some m =>
          week <- lift_result (Tools.int_group 1 m) ;;
          year <- lift_result (Tools.int_group 2 m) ;;
          try_except
            (table_date <- lift_result (Calendar.strptime_year_week_monday year week) ;;
             if Calendar.datetime_ge table_date cutoff
             then emit (Log (InfoIncluding t table_date)) ;; ret true
             else emit (Log (InfoSkippingBefore t table_date)) ;; ret false)
            (fun e => match e with
                      | ValueError => emit (Log (WarningInvalidDate t)) ;; ret false
                      | _ => raise e
                      end)
      | None => emit (Log (WarningNoWeekYear t)) ;; ret false
      end w = (Returns (on_or_after cutoff t), w1) /\
      clock w1 = clock w /\ last_extracted_json w1 = last_extracted_json w /\
      dest_tables w1 = dest_tables w /\ txt_files w1 = txt_files w /\
      trace w1 = trace w ++ [Log (date_log cutoff t)]).
    { unfold on_or_after, date_log, table_date, week_year_of.
      destruct (re_search Tools.week_year_suffix t) as [m|] eqn:Hs.
      - destruct (re_search_groups Tools.week_year_suffix 1 t m eq_refl Hs) as [wk Hwk].
        destruct (re_search_groups Tools.week_year_suffix 2 t m eq_refl Hs) as [yr Hyr].
        unfold Tools.int_group. rewrite Hwk, Hyr.
        unfold bind, try_except, lift_result, ret.
        destruct (Calendar.strptime_year_week_monday (int_of_digits yr) (int_of_digits wk))
          as [d|x] eqn:Hd.
        + cbn. destruct (Calendar.datetime_ge d cutoff); cbn;
            eexists; repeat split; reflexivity.
        + apply strptime_raises_ValueError in Hd as ->. cbn.
          eexists; repeat split; reflexivity.
      - cbn. eexists; repeat split; reflexivity. }
    destruct Hstep as (w1 & Hstep & Hc1 & Hf1 & Hd1 & Ht1 & Htr1).
    unfold bind at 1. rewrite Hstep.
    destruct (IH w1) as (w2 & Hrest & Hc2 & Hf2 & Hd2 & Ht2 & Htr2).
    unfold bind at 1. rewrite Hrest. unfold ret.
    exists w2. split; [reflexivity|].
    repeat split; try congruence.
    rewrite Htr2, Htr1, <- app_assoc. reflexivity.
Qed.

End DateFilter.

(** ** Sorting by year and week *)

Section Sorting.
Import SelectSpec.

Lemma key_le_spec (a b : Z * Z) : Tools.key_le a b = true <-> key_lex_le a b.
Proof.
  unfold Tools.key_le, key_lex_le. rewrite orb_true_iff, andb_true_iff.
  rewrite Z.ltb_lt, Z.eqb_eq, Z.leb_le. reflexivity.
Qed.

Lemma key_le_false (a b : Z * Z) : Tools.key_le a b = false -> key_lex_le b a.
Proof.
  unfold Tools.key_le, key_lex_le. rewrite orb_false_iff, andb_false_iff.
  rewrite Z.ltb_ge, Z.eqb_neq, Z.leb_gt. lia.
Qed.

Lemma key_lex_le_trans (a b c : Z * Z) : key_lex_le a b -> key_lex_le b c -> key_lex_le a c.
Proof. unfold key_lex_le. lia. Qed.

Lemma insert_keyed_perm (kx : Z * Z * string) (l : list (Z * Z * string)) :
  Permutation (Tools.insert_keyed kx l) (kx :: l).
Proof.
  induction l as [|ky l IH]; cbn; [reflexivity|].
  destruct (Tools.key_le (fst kx) (fst ky)); [reflexivity|].
  rewrite IH. apply perm_swap.
Qed.

Lemma sorted_keyed_perm (l : list (Z * Z * string)) : Permutation (Tools.sorted_keyed l) l.
Proof.
  unfold Tools.sorted_keyed. induction l as [|kx l IH]; cbn; [reflexivity|].
  rewrite insert_keyed_perm. now constructor.
Qed.

Lemma insert_keyed_sorted (kx : Z * Z * string) (l : list (Z * Z * string)) :
  StronglySorted keyed_le l -> StronglySorted keyed_le (Tools.insert_keyed kx l).
Proof.
  induction l as [|ky l IH]; intros Hs; cbn.
  - repeat constructor.
  - apply StronglySorted_inv in Hs as [Hs Hall].
    destruct (Tools.key_le (fst kx) (fst ky)) eqn:Hle.
    + apply key_le_spec in Hle. constructor; [constructor; assumption|].
      constructor; [exact Hle|].
      eapply Forall_impl; [exact Hall|]. intros z Hz.
      unfold keyed_le in *. eapply key_lex_le_trans; eauto.
    + apply key_le_false in Hle. constructor; [now apply IH|].
      apply Forall_forall. intros z Hz. apply list_elem_of_In in Hz.
      apply (Permutation_in _ (insert_keyed_perm kx l)) in Hz.
      destruct Hz as [<-|Hz]; [exact Hle|].
      rewrite Forall_forall in Hall. apply Hall. now apply list_elem_of_In.
Qed.

Lemma sorted_keyed_sorted (l : list (Z * Z * string)) :
  StronglySorted keyed_le (Tools.sorted_keyed l).
Proof.
  unfold Tools.sorted_keyed. induction l as [|kx l IH]; cbn; [constructor|].
  now apply insert_keyed_sorted.
Qed.

(** Sorting a list that is already in order changes nothing. *)
Lemma sorted_keyed_id (l : list (Z * Z * string)) :
  StronglySorted keyed_le l -> Tools.sorted_keyed l = l.
Proof.
  unfold Tools.sorted_keyed. induction l as [|kx l IH]; intros Hs; cbn; [reflexivity|].
  apply StronglySorted_inv in Hs as [Hs Hall]. rewrite (IH Hs).
  destruct l as [|ky l]; [reflexivity|]. cbn.
  apply Forall_cons in Hall as [Hle _]. apply key_le_spec in Hle. now rewrite Hle.
Qed.

Lemma keyed_defined (l : list string) :
  Forall (fun t => exists k, Tools.sort_key t = Ok k) l ->
  exists dl,
    Tools.keyed l = Ok dl /\ map snd dl = l /\
    Forall (fun kt => Tools.sort_key (snd kt) = Ok (fst kt)) dl.
Proof.
  induction l as [|t l IH]; intros Hall.
  - exists []. repeat split. constructor.
  - apply Forall_cons in Hall as [[k Hk] Hall].
    destruct (IH Hall) as (dl & Hdl & Hsnd & Hkeys).
    exists ((k, t) :: dl). cbn. rewrite Hk, Hdl, Hsnd. repeat split.
    constructor; assumption.
Qed.

Lemma keyed_of_decorated (dl : list (Z * Z * string)) :
  Forall (fun kt => Tools.sort_key (snd kt) = Ok (fst kt)) dl ->
  Tools.keyed (map snd dl) = Ok dl.
Proof.
  induction dl as [|[k t] dl IH]; intros Hall; [reflexivity|].
  apply Forall_cons in Hall as [Hk Hall]. cbn in *. now rewrite Hk, (IH Hall).
Qed.

Lemma decorated_sorted (dl : list (Z * Z * string)) :
  Forall (fun kt => Tools.sort_key (snd kt) = Ok (fst kt)) dl ->
  StronglySorted keyed_le dl ->
  sorted_by_year_week (map snd dl).
Proof.
  intros Hkeys Hs. exists (map fst dl). split.
  - clear Hs. induction dl as [|kt dl IH]; cbn; [constructor|].
    apply Forall_cons in Hkeys as [Hk Hall]. constructor; auto.
  - clear Hkeys. induction Hs as [|kt dl Hs IH Hall]; cbn; [constructor|].
    constructor; [exact IH|]. apply Forall_map. exact Hall.
Qed.

Lemma sort_by_year_and_week_run (l : list string) :
  Forall (fun t => exists k, Tools.sort_key t = Ok k) l ->
  exists l',
    Tools.sort_by_year_and_week l = Ok l' /\
    Permutation l' l /\
    sorted_by_year_week l' /\
    Tools.sort_by_year_and_week l' = Ok l'.
Proof.
  intros Hall. destruct (keyed_defined l Hall) as (dl & Hdl & Hsnd & Hkeys).
  unfold Tools.sort_by_year_and_week at 1. rewrite Hdl.
  assert (Hkeys' : Forall (fun kt => Tools.sort_key (snd kt) = Ok (fst kt))
                          (Tools.sorted_keyed dl)).
  { apply Forall_forall. intros kt Hin. rewrite Forall_forall in Hkeys.
    apply Hkeys. apply list_elem_of_In. apply list_elem_of_In in Hin.
    now apply (Permutation_in _ (sorted_keyed_perm dl)). }
  eexists. split; [reflexivity|]. split; [|split].
  - rewrite <- Hsnd. apply Permutation_map. apply sorted_keyed_perm.
  - apply decorated_sorted; [exact Hkeys'|apply sorted_keyed_sorted].
  - unfold Tools.sort_by_year_and_week. rewrite (keyed_of_decorated _ Hkeys').
    now rewrite (sorted_keyed_id _ (sorted_keyed_sorted dl)).
Qed.

End Sorting.

(** ** The whole selection *)

Section Selection.
Import Re SelectSpec Extract ExtractorConfig.
Local Open Scope py_scope.

Lemma filter_tables_matches (names : list string) (p : pattern) :
  Tools.filter_tables names p = List.filter (matches p) names.
Proof. reflexivity. Qed.

Lemma filter_filter_and {A} (f g : A -> bool) (l : list A) :
  List.filter g (List.filter f l) = List.filter (fun x => f x && g x) l.
Proof.
  induction l as [|x l IH]; cbn; [reflexivity|].
  destruct (f x); cbn; [|exact IH]. destruct (g x); now rewrite IH.
Qed.

Lemma on_or_after_has_suffix (cutoff : Calendar.datetime) (t : string) :
  on_or_after cutoff t = true -> week_year_of t <> None.
Proof.
  unfold on_or_after, table_date. now destruct (week_year_of t).
Qed.

Lemma selected_sortable (p : pattern) (cutoff : Calendar.datetime) (names : list string) :
  Forall (fun t => exists k, Tools.sort_key t = Ok k)
         (List.filter (selected p cutoff) names).
Proof.
  apply Forall_forall. intros t Hin. apply list_elem_of_In in Hin.
  apply filter_In in Hin as [_ Hsel]. unfold selected in Hsel.
  apply andb_true_iff in Hsel as [_ Hdate].
  apply sort_key_defined. now apply on_or_after_has_suffix with cutoff.
Qed.

Lemma process_tables_names_run (names : list string) (pats : category_patterns)
  (cutoff : Calendar.datetime) (w : World) :
  exists w' m5 m15 mmgw,
    Tools.process_tables_names names pats cutoff w = (Returns m5, w') /\
    Tools.sort_by_year_and_week (List.filter (selected (pattern_5min pats) cutoff) names)
      = Ok m5 /\
    Tools.sort_by_year_and_week (List.filter (selected (pattern_15min pats) cutoff) names)
      = Ok m15 /\
    Tools.sort_by_year_and_week (List.filter (selected (pattern_mgw pats) cutoff) names)
      = Ok mmgw /\
    txt_files w'
      = <[path_mgw := mmgw]> (<[path_15min := m15]> (<[path_5min := m5]> (txt_files w))) /\
    last_extracted_json w' = last_extracted_json w /\
    dest_tables w' = dest_tables w /\
    trace w' = trace w
      ++ map (fun t => Log (date_log cutoff t)) (List.filter (matches (pattern_5min pats)) names)
      ++ map (fun t => Log (date_log cutoff t)) (List.filter (matches (pattern_15min pats)) names)
      ++ map (fun t => Log (date_log cutoff t)) (List.filter (matches (pattern_mgw pats)) names)
      ++ [StoreTxt path_5min m5; StoreTxt path_15min m15; StoreTxt path_mgw mmgw].
Proof.
  unfold Tools.process_tables_names. rewrite !filter_tables_matches.
  destruct (filter_by_start_date_run cutoff (List.filter (matches (pattern_5min pats)) names) w)
    as (w1 & Hf1 & Hc1 & Hj1 & Hd1 & Ht1 & Htr1).
  destruct (filter_by_start_date_run cutoff (List.filter (matches (pattern_15min pats)) names) w1)
    as (w2 & Hf2 & Hc2 & Hj2 & Hd2 & Ht2 & Htr2).
  destruct (filter_by_start_date_run cutoff (List.filter (matches (pattern_mgw pats)) names) w2)
    as (w3 & Hf3 & Hc3 & Hj3 & Hd3 & Ht3 & Htr3).
  rewrite !filter_filter_and in Hf1, Hf2, Hf3.
  change (fun x => matches ?p x && on_or_after cutoff x) with (selected p cutoff)
    in Hf1, Hf2, Hf3.
  destruct (sort_by_year_and_week_run _ (selected_sortable (pattern_5min pats) cutoff names))
    as (m5 & Hs5 & _ & _ & Hagain).
  destruct (sort_by_year_and_week_run _ (selected_sortable (pattern_15min pats) cutoff names))
    as (m15 & Hs15 & _).
  destruct (sort_by_year_and_week_run _ (selected_sortable (pattern_mgw pats) cutoff names))
    as (mmgw & Hsmgw & _).
  unfold bind at 1. rewrite Hf1. unfold bind at 1. rewrite Hf2.
  unfold bind at 1. rewrite Hf3.
  change (List.filter (fun x => matches ?p x && on_or_after cutoff x) names)
    with (List.filter (selected p cutoff) names).
  rewrite Hs5, Hs15, Hsmgw. cbn [lift_result].
  unfold bind, ret, Tools.store_txt, get_world, set_txt_files, emit, bind.
  cbn -[insert]. rewrite Hagain. cbn -[insert].
  eexists _, m5, m15, mmgw. split; [reflexivity|].
  cbn -[insert]. repeat split; try congruence.
  rewrite Htr3, Htr2, Htr1, <- !app_assoc. reflexivity.
Qed.

End Selection.

(** ** Characters under IGNORECASE *)

Section Characters.
Import Re.

Lemma lower_cases (x : ascii) : x = to_lower x \/ x = to_upper (to_lower x).
Proof. destruct x as [[] [] [] [] [] [] [] []]; vm_compute; auto. Qed.

Lemma lit_match_lower (a x : ascii) :
  lit_match true a x = true -> to_lower x = to_lower a.
Proof.
  unfold lit_match. rewrite orb_true_iff. cbn [andb].
  intros [H|H]; apply Ascii.eqb_eq in H; congruence.
Qed.

Lemma lit_match_cases (a x : ascii) :
  lit_match true a x = true -> x = to_lower a \/ x = to_upper (to_lower a).
Proof.
  intros H. apply lit_match_lower in H. rewrite <- H. apply lower_cases.
Qed.

(** Another literal is matched by [x] exactly when it is by [a]. *)
Lemma lit_match_other (a b x : ascii) :
  lit_match true a x = true ->
  lit_match true b x = Ascii.eqb (to_lower b) (to_lower a).
Proof.
  intros H. apply lit_match_lower in H. unfold lit_match. cbn [andb]. rewrite H.
  destruct (Ascii.eqb_spec b x) as [->|Hne]; [|reflexivity].
  rewrite H, Ascii.eqb_refl. reflexivity.
Qed.

(** Whether a class matches depends only on the lower-cased character. *)
Lemma class_match_lower (p : ascii -> bool) (x : ascii) :
  class_match true p x = p (to_lower x) || p (to_upper (to_lower x)).
Proof.
  destruct x as [[] [] [] [] [] [] [] []]; vm_compute;
    repeat match goal with |- context [p ?c] => destruct (p c) end; reflexivity.
Qed.

Lemma class_match_of_lit (a : ascii) (p : ascii -> bool) (x : ascii) :
  lit_match true a x = true -> class_match true p x = class_match true p a.
Proof.
  intros H. apply lit_match_lower in H. now rewrite !class_match_lower, H.
Qed.

Lemma class_digit_plain (x : ascii) : class_match true is_digit x = is_digit x.
Proof. destruct x as [[] [] [] [] [] [] [] []]; reflexivity. Qed.

Lemma digit_lower (x : ascii) : is_digit x = true -> to_lower x = x.
Proof. destruct x as [[] [] [] [] [] [] [] []]; try discriminate; reflexivity. Qed.

Lemma lower_digit (x : ascii) : is_digit (to_lower x) = is_digit x.
Proof. destruct x as [[] [] [] [] [] [] [] []]; reflexivity. Qed.

(** A digit matches no literal that is not a digit. *)
Lemma digit_lit_false (b x : ascii) :
  class_match true is_digit x = true -> is_digit b = false ->
  lit_match true b x = false.
Proof.
  rewrite class_digit_plain. intros Hx Hb.
  destruct (lit_match true b x) eqn:Hm; [|reflexivity].
  apply lit_match_lower in Hm. rewrite (digit_lower x Hx) in Hm.
  rewrite <- lower_digit, <- Hm, Hx in Hb. discriminate.
Qed.

Lemma alnum_lower (x : ascii) : class_match true alnum x = alnum (to_lower x).
Proof. destruct x as [[] [] [] [] [] [] [] []]; reflexivity. Qed.

(** An alphanumeric character matches no literal that is not one. *)
Lemma alnum_lit_false (b x : ascii) :
  class_match true alnum x = true -> alnum (to_lower b) = false ->
  lit_match true b x = false.
Proof.
  rewrite alnum_lower. intros Hx Hb.
  destruct (lit_match true b x) eqn:Hm; [|reflexivity].
  apply lit_match_lower in Hm. rewrite Hm, Hb in Hx. discriminate.
Qed.

End Characters.

(** ** Taking a match apart, and finding the first match *)

Section Shapes.
Import Re SelectSpec.
Variable whole : list ascii.

Local Abbreviation run := (Re.run true whole).
Local Abbreviation match_at := (Re.match_at true whole).
Local Abbreviation search_from := (Re.search_from true whole).

Lemma run_Alt_inv (r1 r2 : regex) (s : list ascii) (c : captures)
  (st : list ascii * captures) :
  In st (run (Alt r1 r2) s c) -> In st (run r1 s c) \/ In st (run r2 s c).
Proof. cbn. apply in_app_iff. Qed.

Lemma run_Eps_inv (s s' : list ascii) (c c' : captures) :
  In (s', c') (run Eps s c) -> s' = s /\ c' = c.
Proof. intros [[= <- <-]|[]]. auto. Qed.

Lemma run_Bol_inv (s s' : list ascii) (c c' : captures) :
  In (s', c') (run Bol s c) -> s' = s /\ c' = c /\ length s = length whole.
Proof.
  cbn. destruct (Nat.eqb_spec (length s) (length whole)); [|intros []].
  intros [[= <- <-]|[]]. auto.
Qed.

Lemma consumed_app (pre s' : list ascii) : consumed (pre ++ s') s' = pre.
Proof.
  unfold consumed. rewrite length_app, Nat.add_sub.
  rewrite firstn_app, Nat.sub_diag, firstn_all. cbn. apply app_nil_r.
Qed.

Lemma plus_runs_head (p : ascii -> bool) (ds : list ascii) (x : ascii) (rest : list ascii) :
  ds <> [] -> forallb p ds = true -> p x = false ->
  exists tl, plus_runs p (ds ++ x :: rest) = (x :: rest) :: tl.
Proof.
  induction ds as [|d ds IH]; intros Hne Hall Hx; [congruence|].
  cbn in Hall. apply andb_true_iff in Hall as [Hd Hall]. cbn. rewrite Hd.
  destruct ds as [|d' ds].
  - cbn. rewrite Hx. cbn. now exists [].
  - destruct (IH ltac:(discriminate) Hall Hx) as [tl Htl]. rewrite Htl.
    cbn. eauto.
Qed.

Lemma search_skip (r : regex) (x : ascii) (s : list ascii) :
  match_at r (x :: s) = None -> search_from r (x :: s) = search_from r s.
Proof. intros H. cbn [Re.search_from]. now rewrite H. Qed.

Lemma search_here (r : regex) (s : list ascii) (c : captures) :
  match_at r s = Some c -> search_from r s = Some c.
Proof. intros H. destruct s; cbn [Re.search_from]; now rewrite H. Qed.

(** A pattern that begins with a literal cannot start on a character
    that the literal does not match. *)
Lemma search_skip_list (a : ascii) (r : regex) (pre s : list ascii) :
  forallb (fun x => negb (lit_match true a x)) pre = true ->
  search_from (Seq (Lit a) r) (pre ++ s) = search_from (Seq (Lit a) r) s.
Proof.
  induction pre as [|x pre IH]; cbn [forallb app]; [reflexivity|].
  rewrite andb_true_iff, negb_true_iff. intros [Hx Hpre].
  rewrite search_skip; [now apply IH|].
  unfold Re.match_at. cbn. now rewrite Hx.
Qed.

End Shapes.

Ltac inv_run H :=
  lazymatch type of H with
  | In _ (Re.run _ _ (Re.Lit _) _ _) =>
      apply run_Lit_inv in H as (? & ? & ? & ?)
  | In _ (Re.run _ _ (Re.Class _) _ _) =>
      apply run_Class_inv in H as (? & ? & ? & ?)
  | In _ (Re.run _ _ (Re.Plus _) _ _) =>
      apply run_Plus_inv in H as (? & ? & ? & ? & ?)
  | In _ (Re.run _ _ Re.Eol _ _) =>
      apply run_Eol_inv in H as (? & ? & ?)
  | In _ (Re.run _ _ Re.Bol _ _) =>
      apply run_Bol_inv in H as (? & ? & ?)
  | In _ (Re.run _ _ Re.Eps _ _) =>
      apply run_Eps_inv in H as (? & ?)
  | In _ (Re.run _ _ (Re.Group _ _) _ _) =>
      apply run_Group_inv in H as (? & H & ?); inv_run H
  | In _ (Re.run _ _ (Re.Seq _ _) _ _) =>
      let H1 := fresh "Hseq" in
      apply run_Seq_iff in H as (? & ? & H1 & H); inv_run H1; inv_run H
  | In _ (Re.run _ _ (Re.Alt _ _) _ _) =>
      apply run_Alt_inv in H as [H|H]; inv_run H
  end.

Section SuffixShapes.
Import Re SelectSpec.
Variable whole : list ascii.

Lemma week_infix_shape (s s' : list ascii) (m : captures) :
  In (s', m) (Re.run true whole (source Tools.week_infix) s []) ->
  exists u sS ds u2,
    s = u :: sS :: ds ++ u2 :: s' /\ m = [(1, ds)].
Proof.
  intros H. cbn [source Tools.week_infix seqs lits map chars list_ascii_of_string
                 fold_right app] in H.
  inv_run H. subst. cbn [app]. rewrite consumed_app. eauto 10.
Qed.

End SuffixShapes.

(** Rewrites the tests on characters that the context decides. *)
Ltac rw_chars :=
  repeat (first
    [ match goal with
      | H : Re.lit_match true ?a ?v = true |- context [Re.lit_match true ?b ?v] =>
          rewrite (lit_match_other a b v H);
          let r := eval vm_compute in (Ascii.eqb (to_lower b) (to_lower a)) in
          change (Ascii.eqb (to_lower b) (to_lower a)) with r
      end
    | match goal with
      | H : Re.lit_match true ?a ?v = true |- context [Re.class_match true ?p ?v] =>
          rewrite (class_match_of_lit a p v H);
          let r := eval vm_compute in (Re.class_match true p a) in
          change (Re.class_match true p a) with r
      end
    | match goal with
      | H : Re.class_match true is_digit ?v = true |- context [Re.lit_match true ?b ?v] =>
          rewrite (digit_lit_false b v H eq_refl)
      end
    | match goal with
      | H : Re.class_match true ?p ?v = true |- context [Re.class_match true ?p ?v] =>
          rewrite H
      end ];
  cbn -[Re.lit_match Re.class_match Re.consumed Re.plus_runs]).

Section MatchHere.
Import Re SelectSpec.
Variable whole : list ascii.

Local Abbreviation match_at := (Re.match_at true whole).

Lemma four_digits (y4 : list ascii) :
  length y4 = 4 -> forallb (class_match true is_digit) y4 = true ->
  exists d1 d2 d3 d4,
    y4 = [d1; d2; d3; d4] /\
    class_match true is_digit d1 = true /\ class_match true is_digit d2 = true /\
    class_match true is_digit d3 = true /\ class_match true is_digit d4 = true.
Proof.
  destruct y4 as [|d1 [|d2 [|d3 [|d4 [|d5 y]]]]]; try discriminate. intros _. cbn.
  rewrite !andb_true_iff. intros (H1 & H2 & H3 & H4 & _). eauto 10.
Qed.

Lemma consumed_four (d1 d2 d3 d4 : ascii) (r : list ascii) :
  consumed (d1 :: d2 :: d3 :: d4 :: r) r = [d1; d2; d3; d4].
Proof. exact (consumed_app [d1; d2; d3; d4] r). Qed.

Lemma consumed_digits (ds : list ascii) (x : ascii) (r : list ascii) :
  consumed (ds ++ x :: r) (x :: r) = ds.
Proof. apply consumed_app. Qed.

Lemma year_suffix_here (u2 a : ascii) (y4 rest : list ascii) :
  lit_match true "_" u2 = true -> lit_match true "A" a = true ->
  length y4 = 4 -> forallb (class_match true is_digit) y4 = true ->
  rest = [] \/ rest = ["010"%char] ->
  match_at (source Tools.year_suffix) (u2 :: a :: y4 ++ rest) = Some [(1, y4)].
Proof.
  intros Hu2 Ha Hlen Hdig Hrest.
  destruct (four_digits y4 Hlen Hdig) as (d1 & d2 & d3 & d4 & -> & H1 & H2 & H3 & H4).
  unfold Re.match_at.
  cbn -[lit_match class_match consumed plus_runs]. rw_chars.
  destruct Hrest as [->| ->]; cbn -[consumed]; now rewrite consumed_four.
Qed.

Lemma week_infix_here (u sS u2 : ascii) (ds rest : list ascii) :
  lit_match true "_" u = true -> lit_match true "S" sS = true ->
  ds <> [] -> forallb (class_match true is_digit) ds = true ->
  lit_match true "_" u2 = true ->
  match_at (source Tools.week_infix) (u :: sS :: ds ++ u2 :: rest) = Some [(1, ds)].
Proof.
  intros Hu HsS Hne Hds Hu2.
  assert (Hnd : class_match true is_digit u2 = false)
    by now rewrite (class_match_of_lit "_" is_digit u2 Hu2).
  destruct (plus_runs_head (class_match true is_digit) ds u2 rest Hne Hds Hnd) as [tl Htl].
  unfold Re.match_at.
  cbn -[lit_match class_match consumed plus_runs]. rw_chars.
  rewrite Htl. cbn -[lit_match class_match consumed plus_runs]. rw_chars.
  now rewrite consumed_digits.
Qed.

Lemma week_year_suffix_here (u sS u2 a : ascii) (ds y4 rest : list ascii) :
  lit_match true "_" u = true -> lit_match true "S" sS = true ->
  ds <> [] -> forallb (class_match true is_digit) ds = true ->
  lit_match true "_" u2 = true -> lit_match true "A" a = true ->
  length y4 = 4 -> forallb (class_match true is_digit) y4 = true ->
  rest = [] \/ rest = ["010"%char] ->
  match_at (source Tools.week_year_suffix) (u :: sS :: ds ++ u2 :: a :: y4 ++ rest)
  = Some [(2, y4); (1, ds)].
Proof.
  intros Hu HsS Hne Hds Hu2 Ha Hlen Hdig Hrest.
  destruct (four_digits y4 Hlen Hdig) as (d1 & d2 & d3 & d4 & -> & H1 & H2 & H3 & H4).
  assert (Hnd : class_match true is_digit u2 = false)
    by now rewrite (class_match_of_lit "_" is_digit u2 Hu2).
  destruct (plus_runs_head (class_match true is_digit) ds u2
              (a :: [d1; d2; d3; d4] ++ rest) Hne Hds Hnd) as [tl Htl].
  unfold Re.match_at.
  cbn -[lit_match class_match consumed plus_runs]. rw_chars.
  cbn [app] in Htl. rewrite Htl. cbn -[lit_match class_match consumed plus_runs]. rw_chars.
  destruct Hrest as [->| ->]; cbn -[consumed];
    now rewrite consumed_four, consumed_digits.
Qed.

Local Abbreviation search_from := (Re.search_from true whole).

Lemma digits_match_no_literal (a : ascii) (ds : list ascii) :
  is_digit a = false -> forallb (class_match true is_digit) ds = true ->
  forallb (fun x => negb (lit_match true a x)) ds = true.
Proof.
  intros Ha. induction ds as [|d ds IH]; cbn [forallb]; [reflexivity|].
  rewrite !andb_true_iff. intros [Hd Hds].
  now rewrite (digit_lit_false a d Hd Ha), (IH Hds).
Qed.

Lemma alnums_match_no_literal (a : ascii) (als : list ascii) :
  alnum (to_lower a) = false -> forallb (class_match true alnum) als = true ->
  forallb (fun x => negb (lit_match true a x)) als = true.
Proof.
  intros Ha. induction als as [|d als IH]; cbn [forallb]; [reflexivity|].
  rewrite !andb_true_iff. intros [Hd Hds].
  now rewrite (alnum_lit_false a d Hd Ha), (IH Hds).
Qed.

(** The first [_A\d{4}$] after the week digits is the one at the end. *)
Lemma year_suffix_found (ds : list ascii) (u2 a d1 d2 d3 d4 : ascii) (rest : list ascii) :
  forallb (class_match true is_digit) ds = true ->
  lit_match true "_" u2 = true -> lit_match true "A" a = true ->
  class_match true is_digit d1 = true -> class_match true is_digit d2 = true ->
  class_match true is_digit d3 = true -> class_match true is_digit d4 = true ->
  rest = [] \/ rest = ["010"%char] ->
  search_from (source Tools.year_suffix) (ds ++ u2 :: a :: d1 :: d2 :: d3 :: d4 :: rest)
  = Some [(1, [d1; d2; d3; d4])].
Proof.
  intros Hds Hu2 Ha H1 H2 H3 H4 Hrest.
  etransitivity;
    [apply (search_skip_list whole "_"); now apply digits_match_no_literal|].
  apply search_here. apply (year_suffix_here u2 a [d1; d2; d3; d4] rest); auto.
  cbn [forallb]. now rewrite H1, H2, H3, H4.
Qed.

Lemma week_infix_found (u sS u2 : ascii) (ds rest : list ascii) :
  lit_match true "_" u = true -> lit_match true "S" sS = true ->
  ds <> [] -> forallb (class_match true is_digit) ds = true ->
  lit_match true "_" u2 = true ->
  search_from (source Tools.week_infix) (u :: sS :: ds ++ u2 :: rest) = Some [(1, ds)].
Proof. intros. apply search_here. now apply week_infix_here. Qed.

Lemma week_year_suffix_found (u sS u2 a d1 d2 d3 d4 : ascii) (ds rest : list ascii) :
  lit_match true "_" u = true -> lit_match true "S" sS = true ->
  ds <> [] -> forallb (class_match true is_digit) ds = true ->
  lit_match true "_" u2 = true -> lit_match true "A" a = true ->
  class_match true is_digit d1 = true -> class_match true is_digit d2 = true ->
  class_match true is_digit d3 = true -> class_match true is_digit d4 = true ->
  rest = [] \/ rest = ["010"%char] ->
  search_from (source Tools.week_year_suffix)
              (u :: sS :: ds ++ u2 :: a :: d1 :: d2 :: d3 :: d4 :: rest)
  = Some [(2, [d1; d2; d3; d4]); (1, ds)].
Proof.
  intros Hu HsS Hne Hds Hu2 Ha H1 H2 H3 H4 Hrest. apply search_here.
  apply (week_year_suffix_here u sS u2 a ds [d1; d2; d3; d4] rest); auto.
  cbn [forallb]. now rewrite H1, H2, H3, H4.
Qed.

End MatchHere.


(** ** The names of the three categories *)

Section Separators.
Import Re.

Lemma dash_or_underscore (x : ascii) :
  class_match true (one_of "-_") x = true ->
  lit_match true "-" x = true \/ lit_match true "_" x = true.
Proof. destruct x as [[] [] [] [] [] [] [] []]; vm_compute; auto. Qed.

Lemma underscore_or_dash (x : ascii) :
  class_match true (one_of "_-") x = true ->
  lit_match true "-" x = true \/ lit_match true "_" x = true.
Proof. destruct x as [[] [] [] [] [] [] [] []]; vm_compute; auto. Qed.

End Separators.

Ltac split_separators :=
  repeat match goal with
         | H : Re.class_match true (Re.one_of _) _ = true |- _ =>
             first [apply dash_or_underscore in H as [H|H]
                   |apply underscore_or_dash in H as [H|H]]
         end.

(** Passes the start positions where the pattern finds no match. *)
Ltac skip_prefix :=
  repeat (rewrite search_skip;
          [|solve [unfold Re.match_at;
                   cbn -[Re.lit_match Re.class_match Re.consumed Re.plus_runs];
                   rw_chars; reflexivity]]).

Section Categories.
Import Re SelectSpec ExtractorConfig.

Lemma pattern_5min_keys (t : string) :
  matches (pattern_5min patterns) t = true ->
  exists ds y4,
    re_search Tools.week_year_suffix t = Some [(2, y4); (1, ds)] /\
    re_search Tools.year_suffix t = Some [(1, y4)] /\
    re_search Tools.week_infix t = Some [(1, ds)].
Proof.
  unfold matches, re_match, re_search.
  destruct (Re.match_at _ _ _ _) as [m|] eqn:Hm; [intros _|discriminate].
  apply match_at_Some in Hm as (s' & Hin).
  cbn [source IGNORECASE pattern_5min patterns digit4 seqs lits map chars
       list_ascii_of_string fold_right app] in Hin.
  unfold node_names in Hin.
  cbn [seqs lits map chars list_ascii_of_string fold_right app] in Hin.
  cbn [IGNORECASE Tools.week_year_suffix Tools.year_suffix Tools.week_infix].
  inv_run Hin; subst; split_separators.
  all: match goal with H : chars _ = _ |- _ => rewrite H; clear H end.
  all: eexists _, _; split; [|split]; skip_prefix;
    [now apply week_year_suffix_found
    |now apply year_suffix_found
    |now apply week_infix_found].
Qed.

Lemma pattern_15min_keys (t : string) :
  matches (pattern_15min patterns) t = true ->
  exists ds y4,
    re_search Tools.week_year_suffix t = Some [(2, y4); (1, ds)] /\
    re_search Tools.year_suffix t = Some [(1, y4)] /\
    re_search Tools.week_infix t = Some [(1, ds)].
Proof.
  unfold matches, re_match, re_search.
  destruct (Re.match_at _ _ _ _) as [m|] eqn:Hm; [intros _|discriminate].
  apply match_at_Some in Hm as (s' & Hin).
  cbn [source IGNORECASE pattern_15min patterns digit4 seqs lits map chars
       list_ascii_of_string fold_right app] in Hin.
  unfold node_names in Hin.
  cbn [seqs lits map chars list_ascii_of_string fold_right app] in Hin.
  cbn [IGNORECASE Tools.week_year_suffix Tools.year_suffix Tools.week_infix].
  inv_run Hin; subst; split_separators.
  all: match goal with H : chars _ = _ |- _ => rewrite H; clear H end.
  all: eexists _, _; split; [|split]; skip_prefix;
    [now apply week_year_suffix_found
    |now apply year_suffix_found
    |now apply week_infix_found].
Qed.

Lemma pattern_mgw_keys (t : string) :
  matches (pattern_mgw patterns) t = true ->
  exists ds y4,
    re_search Tools.week_year_suffix t = Some [(2, y4); (1, ds)] /\
    re_search Tools.year_suffix t = Some [(1, y4)] /\
    re_search Tools.week_infix t = Some [(1, ds)].
Proof.
  unfold matches, re_match, re_search.
  destruct (Re.match_at _ _ _ _) as [m|] eqn:Hm; [intros _|discriminate].
  apply match_at_Some in Hm as (s' & Hin).
  cbn [source IGNORECASE pattern_mgw patterns digit4 seqs lits map chars
       list_ascii_of_string fold_right app] in Hin.
  cbn [IGNORECASE Tools.week_year_suffix Tools.year_suffix Tools.week_infix].
  inv_run Hin; subst.
  match goal with H : chars _ = _ |- _ => rewrite H; clear H end.
  eexists _, _; split; [|split];
    (etransitivity;
     [apply (search_skip_list _ "_"); now apply alnums_match_no_literal|]);
    skip_prefix;
    [now apply week_year_suffix_found
    |now apply year_suffix_found
    |now apply week_infix_found].
Qed.

End Categories.

(** ** The key of the sort is the key of the suffix *)

Section Keys.
Import Re SelectSpec Extract ExtractorConfig.

Lemma searches_give_keys (t : string) (ds y4 : list ascii) :
  re_search Tools.week_year_suffix t = Some [(2, y4); (1, ds)] ->
  re_search Tools.year_suffix t = Some [(1, y4)] ->
  re_search Tools.week_infix t = Some [(1, ds)] ->
  suffix_key t = Some (int_of_digits y4, int_of_digits ds) /\
  Tools.sort_key t = Ok (int_of_digits y4, int_of_digits ds).
Proof.
  intros Hwy Hy Hw.
  unfold suffix_key, week_year_of, Tools.sort_key, Tools.search_int, Tools.int_group.
  rewrite Hwy, Hy, Hw. cbn. split; reflexivity.
Qed.

Lemma category_keys (p : pattern) (t : string) :
  In p [pattern_5min patterns; pattern_15min patterns; pattern_mgw patterns] ->
  matches p t = true ->
  exists k, suffix_key t = Some k /\ Tools.sort_key t = Ok k.
Proof.
  intros [<-|[<-|[<-|[]]]] Hm.
  - destruct (pattern_5min_keys t Hm) as (ds & y4 & H1 & H2 & H3).
    eexists. exact (searches_give_keys t ds y4 H1 H2 H3).
  - destruct (pattern_15min_keys t Hm) as (ds & y4 & H1 & H2 & H3).
    eexists. exact (searches_give_keys t ds y4 H1 H2 H3).
  - destruct (pattern_mgw_keys t Hm) as (ds & y4 & H1 & H2 & H3).
    eexists. exact (searches_give_keys t ds y4 H1 H2 H3).
Qed.

Lemma sorted_by_suffix_of_sort (p : pattern) (l : list string) :
  In p [pattern_5min patterns; pattern_15min patterns; pattern_mgw patterns] ->
  Forall (fun t => matches p t = true) l ->
  sorted_by_year_week l -> sorted_by_suffix l.
Proof.
  intros Hp Hall (keys & Hkeys & Hsorted). exists keys. split; [|exact Hsorted].
  clear Hsorted. induction Hkeys as [|t k l keys Hk Hrest IH]; [constructor|].
  apply Forall_cons in Hall as [Hm Hall]. constructor; [|now apply IH].
  destruct (category_keys p t Hp Hm) as (k' & Hs & Hk'). congruence.
Qed.

Lemma manifest_is_selection (p : pattern) (cutoff : Calendar.datetime)
  (names manifest : list string) :
  In p [pattern_5min patterns; pattern_15min patterns; pattern_mgw patterns] ->
  Tools.sort_by_year_and_week (List.filter (selected p cutoff) names) = Ok manifest ->
  selection_of p cutoff names manifest.
Proof.
  intros Hp Hsort.
  destruct (sort_by_year_and_week_run _ (selected_sortable p cutoff names))
    as (l' & Hrun & Hperm & Hsorted & _).
  rewrite Hrun in Hsort. injection Hsort as <-.
  split; [exact Hperm|]. apply (sorted_by_suffix_of_sort p); [exact Hp| |exact Hsorted].
  apply Forall_forall. intros t Hin. apply list_elem_of_In in Hin.
  apply (Permutation_in _ Hperm) in Hin. apply filter_In in Hin as [_ Hsel].
  unfold selected in Hsel. now apply andb_true_iff in Hsel as [Hm _].
Qed.



End Keys.

(** ** Selection of the tables to copy *)

Section ProcessTablesNames.
Import Re SelectSpec Extract ExtractorConfig.

(** The date a suffix resolves to is a Monday. *)
Lemma strptime_gives_monday (year week : Z) (d : Calendar.datetime) :
  Calendar.strptime_year_week_monday year week = Ok d ->
  Calendar.weekday (Calendar.ordinal d) = 0%Z.
Proof.
  unfold Calendar.strptime_year_week_monday.
  destruct (_ && _ && _ && _)%bool; [|discriminate].
  destruct (_ && _)%bool; [|discriminate].
  intros [= <-]. cbn [Calendar.ordinal].
  unfold Calendar.calc_julian_from_W, Calendar.weekday.
  generalize (Calendar.ymd2ord year 1 1). intros o.
  destruct (week =? 0)%Z; Z.div_mod_to_equations; lia.
Qed.

(** The run on the sample names of [Samples.table_names]. *)
Example process_tables_names_sample :
  let r := Tools.process_tables_names Samples.table_names patterns START_DATE
             Samples.empty_world in
  fst r = Returns ["RAIND_APG43_5_S00_A2024"; "CALIS-APG43-5_S02_A2024";
                   "MEIND_APG43_5_S10_A2024"] /\
  txt_files (snd r) !! path_15min = Some ["RAIND_APG43_15_S03_A2024"] /\
  txt_files (snd r) !! path_mgw = Some ["X1MGW_S05_A2024"] /\
  In (Log (WarningInvalidDate "CALIS_APG43_5_S99_A2024")) (trace (snd r)) /\
  map table_date ["CALIS_APG43_5_S99_A2024"; "other"] = [None; None].
Proof. vm_compute. repeat split. auto 10. Qed.


End ProcessTablesNames.


(** * Further properties of the extractor *)

(** ** What one copy can do to the checkpoint and to the destination *)

Section CopyRun.
Import Extract CopierSpec.
Variable env : Env.

Local Abbreviation dest_rows w table := (default [] (dest_tables w !! table)).

(** The retry loop touches neither the checkpoint nor the destination,
    and the only exception it lets through is the one that escaped
    [tools.extract_table_data]. *)
Lemma extract_attempts_run (table : string) (offset limit : nat) (attempts : list nat) :
  forall w,
    let r := Extractor.extract_attempts env table offset limit attempts w in
    last_extracted_json (snd r) = last_extracted_json w /\
    dest_tables (snd r) = dest_tables w /\
    match fst r with
    | Returns _ => True
    | Raises x => x = OtherException
    | OutOfFuel => False
    end.
Proof.
  induction attempts as [|attempt rest IH]; intros w; cbn zeta.
  - cbn. auto.
  - cbn [Extractor.extract_attempts]. unfold try_except.
    rewrite tools_extract_table_data_run. unfold fetch_result.
    destruct (select_batch env (clock w) table offset limit) as [[|r raw]| |];
      cbn -[decide]; auto.
    + destruct (decide (indicator_csv env table = ∅)); cbn; auto.
    + match goal with |- context [if ?b then _ else _] => destruct b end; [|cbn; auto].
      unfold bind, emit. cbn beta iota.
      match goal with
      | |- context [Extractor.extract_attempts env table offset limit rest ?w0] =>
          destruct (IH w0) as (Hj & Hd & Hr)
      end.
      cbn zeta in Hj, Hd, Hr. rewrite Hj, Hd. cbn. auto.
Qed.

(** Loading a batch that is not empty either appends its sanitized rows
    or raises [MySQLdb.Error] and appends nothing; the checkpoint is not
    touched. *)
Lemma load_batch_run (batch : list row) (table : string) (w : World) :
  batch <> [] ->
  let r := Tools.load_batch_into_database env batch table w in
  last_extracted_json (snd r) = last_extracted_json w /\
  ((fst r = Returns tt /\
    dest_rows (snd r) table = dest_rows w table ++ map (map Tools.sanitize) batch) \/
   (fst r = Raises MySQLError /\ dest_rows (snd r) table = dest_rows w table)).
Proof.
  intros Hne. destruct batch as [|r0 batch]; [congruence|]. cbn zeta.
  unfold Tools.load_batch_into_database, bind, get_world, ret, emit, tick,
    set_dest_tables, raise.
  destruct (dest_tables w !! table) as [old|] eqn:Hold;
    cbn -[lookup insert map];
    destruct (insert_accepted env (clock w) table _);
    cbn -[lookup insert map];
    rewrite ?lookup_insert_eq, ?Hold; cbn -[lookup insert map]; auto.
Qed.

Section OneTable.
Variable self : Orchestrator.t.
Variable table : string.

(** The loop of [process_table_completely], whatever the source and the
    destination answer: rows are only appended to the destination, the
    saved offset moves by the number of rows appended, and an exception
    leaves the entry of the table as last saved, without the completed
    mark. *)
Lemma copy_loop_run (R : nat) (fuel : nat) :
  forall (o te : nat) (info : gmap string Entry) (w : World)
         (out : outcome (gmap string Entry)) (w' : World),
    R - te < fuel ->
    info = last_extracted_json w ->
    initial_offset w table = o ->
    Orchestrator.copy_loop env fuel self table R o te info w = (out, w') ->
    exists appended,
      dest_rows w' table = dest_rows w table ++ appended /\
      length appended + o = initial_offset w' table /\
      match out with
      | Returns info' =>
          info' = last_extracted_json w' /\
          ((appended = [] /\ last_extracted_json w' = last_extracted_json w) \/
           exists e', last_extracted_json w' !! table = Some e')
      | Raises x =>
          (x = OtherException \/ x = MySQLError) /\
          (last_extracted_json w' !! table = last_extracted_json w !! table \/
           exists e', last_extracted_json w' !! table = Some e' /\ completed e' = false)
      | OutOfFuel => False
      end.
Proof.
  induction fuel as [|fuel IH]; intros o te info w out w' Hfuel Hinfo Ho Hrun; [lia|].
  cbn [Orchestrator.copy_loop] in Hrun. unfold bind at 1 in Hrun.
  unfold Extractor.extract_table_data in Hrun.
  destruct (extract_attempts_run table o (Orchestrator.batch_size self)
              (seq 0 (Extractor.max_retries + 1)) w) as (Hj1 & Hd1 & Hr1).
  destruct (Extractor.extract_attempts env table o (Orchestrator.batch_size self)
              (seq 0 (Extractor.max_retries + 1)) w) as [[[[|r0 data]|]|x|] w1];
    cbn [fst snd] in *; try contradiction.
  - injection Hrun as <- <-. exists [].
    unfold initial_offset in *. rewrite Hd1, Hj1, app_nil_r. cbn. intuition auto.
  - unfold Loader.load_batch_into_database in Hrun. unfold bind at 1 in Hrun.
    destruct (load_batch_run (r0 :: data) table w1 ltac:(discriminate))
      as (Hj2 & Hload).
    destruct (Tools.load_batch_into_database env (r0 :: data) table w1)
      as [[[]|x|] w2]; cbn [fst snd] in *.
    + destruct Hload as [[_ Hrows]|[? _]]; [|discriminate].
      unfold bind at 1 in Hrun. unfold Tools.save_last_extracted at 1 in Hrun.
      unfold bind at 1, set_last_extracted_json at 1, emit at 1 in Hrun.
      cbn [clock last_extracted_json dest_tables txt_files trace] in Hrun.
      set (n := length (r0 :: data)) in *.
      set (info2 := <[table := Orchestrator.progress_entry (o + n) (te + n) R]> info) in *.
      set (w3 := {| clock := clock w2; last_extracted_json := info2;
                    dest_tables := dest_tables w2; txt_files := txt_files w2;
                    trace := trace w2 ++ [SaveLastExtracted info2] |}) in *.
      assert (Hio3 : initial_offset w3 table = o + n).
      { unfold initial_offset, w3, info2. cbn [last_extracted_json].
        now rewrite lookup_insert_eq. }
      assert (Hrows3 : dest_rows w3 table
                       = dest_rows w table ++ map (map Tools.sanitize) (r0 :: data)).
      { unfold w3. cbn [dest_tables]. now rewrite Hrows, Hd1. }
      assert (Hlen : length (map (map Tools.sanitize) (r0 :: data)) = n)
        by (now rewrite length_map).
      assert (Hsaved : exists e', last_extracted_json w3 !! table = Some e'
                                  /\ completed e' = false).
      { unfold w3, info2. cbn [last_extracted_json]. rewrite lookup_insert_eq.
        eexists. split; reflexivity. }
      destruct (Nat.leb_spec R (te + n)) as [Hdone|Hmore].
      * injection Hrun as <- <-.
        exists (map (map Tools.sanitize) (r0 :: data)).
        rewrite Hrows3, Hio3, Hlen. split; [reflexivity|]. split; [lia|].
        split; [reflexivity|]. right. destruct Hsaved as (e' & He' & _). eauto.
      * destruct (IH (o + n) (te + n) info2 w3 out w'
                    ltac:(subst n; cbn [length] in *; lia) eq_refl Hio3 Hrun)
          as (appended & Happ & Hlen' & Hout).
        exists (map (map Tools.sanitize) (r0 :: data) ++ appended).
        rewrite Happ, Hrows3, <- app_assoc. split; [reflexivity|].
        rewrite length_app, Hlen. split; [lia|].
        destruct Hsaved as (e3 & He3 & Hc3).
        destruct out as [info'|x|]; [| |contradiction].
        -- destruct Hout as [-> Hcase]. split; [reflexivity|]. right.
           destruct Hcase as [[_ Hsame]|Hsome]; [|exact Hsome].
           rewrite Hsame. eauto.
        -- destruct Hout as [Hx Hcase]. split; [exact Hx|]. right.
           destruct Hcase as [Hsame|Hsome]; [|exact Hsome].
           rewrite Hsame. eauto.
    + destruct Hload as [[? _]|[Hx Hrows]]; [discriminate|]. injection Hx as ->.
      injection Hrun as <- <-.
      exists []. unfold initial_offset in *. rewrite Hrows, Hj2, Hj1, Hd1, app_nil_r.
      cbn [length Nat.add]. intuition auto.
    + destruct Hload as [[? _]|[? _]]; discriminate.
  - injection Hrun as <- <-. exists [].
    unfold initial_offset in *. rewrite Hd1, Hj1, app_nil_r. cbn. intuition auto.
  - injection Hrun as <- <-. exists [].
    unfold initial_offset in *. rewrite Hd1, Hj1, app_nil_r. cbn. intuition auto.
Qed.

(** One call of [process_table_completely], whatever the source and the
    destination answer. *)
Lemma process_table_completely_run (w : World) (out : outcome unit) (w' : World) :
  Orchestrator.process_table_completely env self table w = (out, w') ->
  exists appended,
    dest_rows w' table = dest_rows w table ++ appended /\
    length appended + initial_offset w table = initial_offset w' table /\
    match out with
    | Returns _ =>
        exists e, last_extracted_json w' !! table = Some e /\ completed e = true
    | Raises x =>
        (select_count env (clock w) table = Raise x \/
         x = OtherException \/ x = MySQLError \/
         (x = KeyError table /\ last_extracted_json w !! table = None /\
          appended = [] /\ last_extracted_json w' = last_extracted_json w)) /\
        (last_extracted_json w' !! table = last_extracted_json w !! table \/
         exists e', last_extracted_json w' !! table = Some e' /\ completed e' = false)
    | OutOfFuel => False
    end.
Proof.
  intros Hrun.
  destruct (select_count env (clock w) table) as [R|x] eqn:Hcount.
  - rewrite (process_table_completely_counted env self table w R Hcount) in Hrun.
    unfold bind at 1 in Hrun.
    destruct (Orchestrator.copy_loop env (S (R - initial_offset w table)) self table R
                (initial_offset w table) (initial_offset w table) (last_extracted_json w)
                (after_count w table)) as [out1 w1] eqn:Hloop.
    destruct (copy_loop_run R (S (R - initial_offset w table)) (initial_offset w table)
                (initial_offset w table) (last_extracted_json w) (after_count w table)
                out1 w1 ltac:(lia) eq_refl eq_refl Hloop) as (appended & Happ & Hlen & Hout).
    cbn [after_count dest_tables last_extracted_json] in Happ, Hout.
    destruct out1 as [info'|x|]; [| |contradiction].
    + destruct Hout as [-> Hcase].
      destruct (last_extracted_json w1 !! table) as [e|] eqn:He.
      * unfold Tools.save_last_extracted, bind, set_last_extracted_json, emit in Hrun.
        injection Hrun as <- <-. exists appended.
        cbn [dest_tables last_extracted_json].
        split; [exact Happ|]. split.
        -- rewrite Hlen. unfold initial_offset. cbn [last_extracted_json].
           now rewrite He, lookup_insert_eq.
        -- rewrite lookup_insert_eq. eexists. split; reflexivity.
      * injection Hrun as <- <-. exists appended.
        split; [exact Happ|]. split; [exact Hlen|].
        destruct Hcase as [[-> Hsame]|[e' He']]; [|congruence].
        split.
        -- right. right. right. rewrite Hsame in He. auto.
        -- left. now rewrite Hsame.
    + injection Hrun as <- <-. exists appended.
      split; [exact Happ|]. split; [exact Hlen|].
      destruct Hout as [Hx Hcase]. split; [tauto|exact Hcase].
  - unfold Orchestrator.process_table_completely, Orchestrator.get_total_rows,
      Tools.load_last_extracted, bind, get_world, ret, tick, emit in Hrun.
    cbn [clock last_extracted_json dest_tables txt_files trace] in Hrun.
    rewrite Hcount in Hrun. cbn in Hrun. injection Hrun as <- <-.
    exists []. cbn. rewrite app_nil_r. auto.
Qed.

End OneTable.
End CopyRun.

(** ** Retries of a batch read *)

Section Retries.
Import Extract CopierSpec.
Variable env : Env.
Variable table : string.
Variable offset limit : nat.

Local Abbreviation attempt_events a j :=
  (flat_map (fun i => [SelectBatch table offset limit; Sleep (4 * 2 ^ i)]) (seq a j)).

Lemma extract_attempts_answered (attempt : nat) (rest : list nat) (w : World) :
  select_batch env (clock w) table offset limit <> FetchOtherError ->
  Extractor.extract_attempts env table offset limit (attempt :: rest) w
  = (fetch_result env table (select_batch env (clock w) table offset limit),
     after_select w table offset limit).
Proof.
  intros Hans. cbn [Extractor.extract_attempts]. unfold try_except.
  rewrite tools_extract_table_data_run. unfold fetch_result.
  destruct (select_batch env (clock w) table offset limit) as [[|r raw]| |];
    try reflexivity; try congruence.
  destruct (decide (indicator_csv env table = ∅)); reflexivity.
Qed.

Lemma extract_attempts_recover (j : nat) :
  forall (a : nat) (rest : list nat) (w : World),
    a + j <= 3 ->
    (forall k, k < j -> select_batch env (clock w + k) table offset limit = FetchOtherError) ->
    select_batch env (clock w + j) table offset limit <> FetchOtherError ->
    exists w',
      Extractor.extract_attempts env table offset limit (seq a (S j) ++ rest) w
      = (fetch_result env table (select_batch env (clock w + j) table offset limit), w') /\
      clock w' = clock w + S j /\
      last_extracted_json w' = last_extracted_json w /\
      dest_tables w' = dest_tables w /\
      trace w' = trace w ++ attempt_events a j ++ [SelectBatch table offset limit].
Proof.
  induction j as [|j IH]; intros a rest w Ha Hfail Hans.
  - rewrite Nat.add_0_r in *. cbn [seq app].
    rewrite extract_attempts_answered by exact Hans.
    eexists. split; [reflexivity|]. cbn. repeat split. lia.
  - cbn [seq app]. rewrite extract_attempts_failed.
    2:{ rewrite <- (Nat.add_0_r (clock w)). apply Hfail. lia. }
    destruct (Nat.ltb_spec a Extractor.max_retries) as [_|Hge];
      [|unfold Extractor.max_retries in Hge; lia].
    unfold bind at 1, emit at 1.
    match goal with
    | |- context [Extractor.extract_attempts env table offset limit _ ?w0] =>
        destruct (IH (S a) rest w0) as (w' & Hrun & Hc & Hj & Hd & Ht)
    end.
    + lia.
    + intros k Hk. cbn [clock after_select].
      replace (S (clock w) + k) with (clock w + S k) by lia. apply Hfail. lia.
    + cbn [clock after_select].
      replace (S (clock w) + j) with (clock w + S j) by lia. exact Hans.
    + cbn [clock after_select] in Hrun.
      replace (S (clock w) + j) with (clock w + S j) in Hrun by lia.
      exists w'. split; [exact Hrun|].
      cbn [clock last_extracted_json dest_tables trace after_select] in Hc, Hj, Hd, Ht.
      repeat split; [lia|exact Hj|exact Hd|].
      rewrite Ht. cbn [flat_map app]. unfold Extractor.retry_delay.
      rewrite <- !app_assoc. reflexivity.
Qed.

End Retries.

(** X1. [Extractor.extract_table_data] retries a batch read only when an
    exception escapes [tools.extract_table_data]. If the first [j] reads
    (at most three) raise such an exception and the next one does not,
    the call returns what that read gives, after [j + 1] SELECTs separated
    by waits of 4, 8 and 16 seconds (the first [j] of them), and neither
    the checkpoint nor the destination is touched. *)
Theorem batch_read_recovers_after_retries
  (env : Extract.Env) (table : string) (offset limit j : nat) (w : Extract.World) :
  j <= 3 ->
  (forall k, k < j ->
     Extract.select_batch env (Extract.clock w + k) table offset limit
     = Extract.FetchOtherError) ->
  Extract.select_batch env (Extract.clock w + j) table offset limit
    <> Extract.FetchOtherError ->
  exists w',
    Extractor.extract_table_data env table offset limit w
    = (CopierSpec.fetch_result env table
         (Extract.select_batch env (Extract.clock w + j) table offset limit), w') /\
    Extract.last_extracted_json w' = Extract.last_extracted_json w /\
    Extract.dest_tables w' = Extract.dest_tables w /\
    Extract.trace w'
    = Extract.trace w
      ++ flat_map (fun i => [Extract.SelectBatch table offset limit;
                             Extract.Sleep (4 * 2 ^ i)]) (seq 0 j)
      ++ [Extract.SelectBatch table offset limit].
Proof.
  intros Hj Hfail Hans.
  unfold Extractor.extract_table_data.
  replace (seq 0 (Extractor.max_retries + 1)) with (seq 0 (S j) ++ seq (S j) (3 - j)).
  2:{ rewrite <- seq_app. unfold Extractor.max_retries. f_equal. lia. }
  destruct (extract_attempts_recover env table offset limit j 0 (seq (S j) (3 - j)) w
              ltac:(lia) Hfail Hans) as (w' & Hrun & _ & Hjson & Hdest & Htrace).
  exists w'. auto.
Qed.

Lemma batch_read_recovers_after_retries_witness :
  exists w',
    Extractor.extract_table_data (Samples.flaky_env 2) "CALIS_APG43_5_S12_A2024" 0 2
      Samples.empty_world
    = (CopierSpec.fetch_result (Samples.flaky_env 2) "CALIS_APG43_5_S12_A2024"
         (Extract.select_batch (Samples.flaky_env 2) (Extract.clock Samples.empty_world + 2)
            "CALIS_APG43_5_S12_A2024" 0 2), w') /\
    Extract.last_extracted_json w' = Extract.last_extracted_json Samples.empty_world /\
    Extract.dest_tables w' = Extract.dest_tables Samples.empty_world /\
    Extract.trace w'
    = Extract.trace Samples.empty_world
      ++ flat_map (fun i => [Extract.SelectBatch "CALIS_APG43_5_S12_A2024" 0 2;
                             Extract.Sleep (4 * 2 ^ i)]) (seq 0 2)
      ++ [Extract.SelectBatch "CALIS_APG43_5_S12_A2024" 0 2].
Proof.
  apply (batch_read_recovers_after_retries (Samples.flaky_env 2)
           "CALIS_APG43_5_S12_A2024" 0 2 2 Samples.empty_world).
  - lia.
  - intros k Hk. destruct k as [|[|k]]; [reflexivity|reflexivity|lia].
  - discriminate.
Defined.

(** X2. When the exception escapes at all four reads, the call gives up:
    four SELECTs, waits of 4, 8 and 16 seconds between them, then the
    exception is raised again; the clock is the only other state that
    moved. *)
Theorem batch_read_gives_up_after_three_retries
  (env : Extract.Env) (table : string) (offset limit : nat) (w : Extract.World) :
  (forall k, k < 4 ->
     Extract.select_batch env (Extract.clock w + k) table offset limit
     = Extract.FetchOtherError) ->
  exists w',
    Extractor.extract_table_data env table offset limit w
      = (Extract.Raises OtherException, w') /\
    Extract.clock w' = Extract.clock w + 4 /\
    Extract.last_extracted_json w' = Extract.last_extracted_json w /\
    Extract.dest_tables w' = Extract.dest_tables w /\
    Extract.txt_files w' = Extract.txt_files w /\
    Extract.trace w'
    = Extract.trace w
      ++ [Extract.SelectBatch table offset limit; Extract.Sleep 4;
          Extract.SelectBatch table offset limit; Extract.Sleep 8;
          Extract.SelectBatch table offset limit; Extract.Sleep 16;
          Extract.SelectBatch table offset limit].
Proof.
  intros Hfail.
  pose proof (Hfail 0 ltac:(lia)) as H0. pose proof (Hfail 1 ltac:(lia)) as H1.
  pose proof (Hfail 2 ltac:(lia)) as H2. pose proof (Hfail 3 ltac:(lia)) as H3.
  rewrite Nat.add_0_r in H0.
  replace (Extract.clock w + 1) with (S (Extract.clock w)) in H1 by lia.
  replace (Extract.clock w + 2) with (S (S (Extract.clock w))) in H2 by lia.
  replace (Extract.clock w + 3) with (S (S (S (Extract.clock w)))) in H3 by lia.
  unfold Extractor.extract_table_data. cbn [seq Nat.add Extractor.max_retries].
  rewrite extract_attempts_failed by exact H0.
  cbn [Nat.ltb Nat.leb Extractor.max_retries]. unfold Extract.bind at 1, Extract.emit at 1.
  rewrite extract_attempts_failed by exact H1.
  cbn [Nat.ltb Nat.leb Extractor.max_retries]. unfold Extract.bind at 1, Extract.emit at 1.
  rewrite extract_attempts_failed by exact H2.
  cbn [Nat.ltb Nat.leb Extractor.max_retries]. unfold Extract.bind at 1, Extract.emit at 1.
  rewrite extract_attempts_failed by exact H3.
  cbn [Nat.ltb Nat.leb Extractor.max_retries].
  eexists. split; [reflexivity|]. cbn. repeat split; [lia|].
  rewrite <- !app_assoc. reflexivity.
Qed.

Lemma batch_read_gives_up_after_three_retries_witness :
  exists w',
    Extractor.extract_table_data Samples.other_error_env "CALIS_APG43_5_S12_A2024" 2 500
      Samples.interrupted_world
      = (Extract.Raises OtherException, w') /\
    Extract.clock w' = Extract.clock Samples.interrupted_world + 4 /\
    Extract.last_extracted_json w' = Extract.last_extracted_json Samples.interrupted_world /\
    Extract.dest_tables w' = Extract.dest_tables Samples.interrupted_world /\
    Extract.txt_files w' = Extract.txt_files Samples.interrupted_world /\
    Extract.trace w'
    = Extract.trace Samples.interrupted_world
      ++ [Extract.SelectBatch "CALIS_APG43_5_S12_A2024" 2 500; Extract.Sleep 4;
          Extract.SelectBatch "CALIS_APG43_5_S12_A2024" 2 500; Extract.Sleep 8;
          Extract.SelectBatch "CALIS_APG43_5_S12_A2024" 2 500; Extract.Sleep 16;
          Extract.SelectBatch "CALIS_APG43_5_S12_A2024" 2 500].
Proof.
  apply (batch_read_gives_up_after_three_retries Samples.other_error_env
           "CALIS_APG43_5_S12_A2024" 2 500 Samples.interrupted_world).
  intros k _. reflexivity.
Defined.

(** ** The checkpoint against the destination *)

(** X3. Whatever the source and the destination answer, and however the
    call ends, [process_table_completely] only appends rows to the
    destination table, and the offset left in the checkpoint file (the
    offset the next run resumes from, 0 without an entry) has moved by
    exactly the number of rows appended: a later run neither skips rows
    nor copies a row twice. *)
Theorem checkpoint_offset_tracks_destination
  (env : Extract.Env) (self : Orchestrator.t) (table : string) (w : Extract.World) :
  let w' := snd (Orchestrator.process_table_completely env self table w) in
  exists appended,
    default [] (Extract.dest_tables w' !! table)
      = default [] (Extract.dest_tables w !! table) ++ appended /\
    CopierSpec.initial_offset w' table
      = CopierSpec.initial_offset w table + length appended.
Proof.
  cbn zeta.
  destruct (Orchestrator.process_table_completely env self table w) as [out w'] eqn:Hrun.
  destruct (process_table_completely_run env self table w out w' Hrun)
    as (appended & Happ & Hlen & _).
  exists appended. cbn [snd]. split; [exact Happ|lia].
Qed.



(** ** A whole run of the orchestrator *)

Section Orchestration.
Import Extract CopierSpec SelectSpec ExtractorConfig.
Variable env : Env.
Variable self : Orchestrator.t.

(** A copy that returns leaves its table completed and the entries of
    the other tables as they were. *)
Lemma returned_copy_step (table : string) (w w1 : World) :
  Orchestrator.process_table_completely env self table w = (Returns tt, w1) ->
  (exists e, last_extracted_json w1 !! table = Some e /\ completed e = true) /\
  (forall T, T <> table -> last_extracted_json w1 !! T = last_extracted_json w !! T).
Proof.
  intros Hrun. split.
  - destruct (process_table_completely_run env self table w _ w1 Hrun)
      as (appended & _ & _ & Hdone). exact Hdone.
  - intros T Hne.
    destruct (quiet_process_table_completely env T (last_extracted_json w !! T) self table
                ltac:(congruence) w eq_refl) as (evs & Hj & _).
    now rewrite Hrun in Hj.
Qed.

(** The loop over the selected tables: a table that the dict loaded
    before the loop shows completed is skipped, the others are copied. *)
Lemma for_each_table_run (info0 : gmap string Entry) (tables : list string) :
  forall (w w' : World),
    Orchestrator.for_each_table env self info0 tables w = (Returns tt, w') ->
    (forall T e, info0 !! T = Some e -> completed e = true ->
       exists e1, last_extracted_json w !! T = Some e1 /\ completed e1 = true) ->
    (forall T, In T tables ->
       exists e, last_extracted_json w' !! T = Some e /\ completed e = true) /\
    (forall T, ~ In T tables \/ (exists e, info0 !! T = Some e /\ completed e = true) ->
               last_extracted_json w' !! T = last_extracted_json w !! T).
Proof.
  induction tables as [|t rest IH]; intros w w' Hrun Hpre.
  - cbn in Hrun. injection Hrun as <-. split; [intros T []|auto].
  - cbn [Orchestrator.for_each_table] in Hrun. unfold bind at 1 in Hrun.
    assert (Hcopy : forall out w1,
              (forall e, info0 !! t = Some e -> completed e = false) ->
              Orchestrator.process_table_completely env self t w = (out, w1) ->
              match out with
              | Returns _ => Orchestrator.for_each_table env self info0 rest w1
              | Raises e => (Raises e, w1)
              | OutOfFuel => (OutOfFuel, w1)
              end = (Returns tt, w') ->
              (forall T, In T (t :: rest) ->
                 exists e, last_extracted_json w' !! T = Some e /\ completed e = true) /\
              (forall T, ~ In T (t :: rest) \/
                         (exists e, info0 !! T = Some e /\ completed e = true) ->
                         last_extracted_json w' !! T = last_extracted_json w !! T)).
    { intros out w1 Hopen Hstep Hrest. destruct out as [[]|x|]; try discriminate.
      destruct (returned_copy_step t w w1 Hstep) as [Hdone Hothers].
      assert (Hne : forall T e, info0 !! T = Some e -> completed e = true -> T <> t).
      { intros T e HT Hc ->. rewrite (Hopen e HT) in Hc. discriminate. }
      destruct (IH w1 w' Hrest) as [Hall Hframe].
      { intros T e HT Hc. rewrite (Hothers T (Hne T e HT Hc)). now apply (Hpre T e). }
      split.
      - intros T [<-|Hin]; [|now apply Hall].
        destruct (in_dec string_dec t rest) as [Hin|Hout]; [now apply Hall|].
        rewrite (Hframe t (or_introl Hout)). exact Hdone.
      - intros T [Hout|(e & HT & Hc)].
        + rewrite (Hframe T); [|left; intros Hin; apply Hout; now right].
          apply Hothers. intros ->. apply Hout. now left.
        + rewrite (Hframe T); [|right; eauto]. apply Hothers. now apply (Hne T e). }
    destruct (info0 !! t) as [e|] eqn:Ht; [destruct (completed e) eqn:Hc|].
    + unfold ret in Hrun. destruct (IH w w' Hrun Hpre) as [Hall Hframe]. split.
      * intros T [<-|Hin]; [|now apply Hall].
        rewrite (Hframe t); [|right; eauto]. now apply (Hpre t e).
      * intros T [Hout|Hskip]; apply Hframe; [|now right].
        left. intros Hin. apply Hout. now right.
    + destruct (Orchestrator.process_table_completely env self t w) as [out w1] eqn:Hstep.
      apply (Hcopy out w1); [|reflexivity|exact Hrun]. now intros e' [= <-].
    + destruct (Orchestrator.process_table_completely env self t w) as [out w1] eqn:Hstep.
      apply (Hcopy out w1); [|reflexivity|exact Hrun]. intros e' [=].
Qed.

Lemma extract_tables_names_run (names : list string) (w : World) :
  show_tables env = Ok names ->
  exists w1,
    Extractor.extract_tables_names env w = (Returns names, w1) /\
    last_extracted_json w1 = last_extracted_json w.
Proof.
  intros Hshow. unfold Extractor.extract_tables_names, Tools.store_txt, bind, emit,
    get_world, set_txt_files, ret. rewrite Hshow. cbn -[insert].
  eexists. split; reflexivity.
Qed.

(** A run that returns has completed every table it selected, and has
    left every other entry of the checkpoint file as it was. *)
Lemma process_orchestration_run (names : list string) (w w' : World) :
  show_tables env = Ok names ->
  Orchestrator.process_orchestration env self w = (Returns tt, w') ->
  (forall t, In t names -> selected (pattern_5min patterns) START_DATE t = true ->
     exists e, last_extracted_json w' !! t = Some e /\ completed e = true) /\
  (forall T,
     ~ (In T names /\ selected (pattern_5min patterns) START_DATE T = true) \/
     (exists e, last_extracted_json w !! T = Some e /\ completed e = true) ->
     last_extracted_json w' !! T = last_extracted_json w !! T).
Proof.
  intros Hshow Hrun.
  unfold Orchestrator.process_orchestration, try_except in Hrun.
  unfold Extractor.process_tables_names in Hrun.
  unfold bind at 1 in Hrun. unfold bind at 1 in Hrun.
  destruct (extract_tables_names_run names w Hshow) as (w1 & Hnames & Hj1).
  rewrite Hnames in Hrun.
  destruct (process_tables_names_run names patterns START_DATE w1)
    as (w2 & m5 & m15 & mmgw & Hsel & H5 & _ & _ & _ & Hj2 & _).
  rewrite Hsel in Hrun.
  unfold Tools.load_last_extracted, bind, get_world, ret in Hrun.
  destruct (Orchestrator.for_each_table env self (last_extracted_json w2) m5 w2)
    as [[[]|x|] w3] eqn:Hloop; try discriminate.
  injection Hrun as <-.
  destruct (for_each_table_run (last_extracted_json w2) m5 w2 w3 Hloop) as [Hall Hframe].
  { intros T e HT Hc. eauto. }
  rewrite Hj2, Hj1 in Hframe.
  destruct (manifest_is_selection (pattern_5min patterns) START_DATE names m5
              ltac:(cbn; auto) H5) as [Hperm _].
  assert (Hm5 : forall t, In t m5 <->
                          In t names /\ selected (pattern_5min patterns) START_DATE t = true).
  { intros t. rewrite <- filter_In. split; apply Permutation_in;
      [exact Hperm|exact (Permutation_sym Hperm)]. }
  split.
  - intros t Hin Hselected. apply Hall. apply Hm5. auto.
  - intros T [Hout|Hdone]; apply Hframe; [left|now right].
    intros Hin. apply Hout. now apply Hm5.
Qed.

End Orchestration.

Section ExtractionCheck.
Import Extract EtlPipeline.

Lemma check_tables_completed (data : list (string * Entry)) :
  Forall (fun kv => completed (snd kv) = true) data -> check_tables data = inl tt.
Proof.
  induction 1 as [|[table info] data Hc _ IH]; [reflexivity|].
  cbn in *. now rewrite Hc.
Qed.

Lemma check_tables_incomplete (data : list (string * Entry)) :
  Exists (fun kv => completed (snd kv) = false) data ->
  exists table, check_tables data = inr (NotFullyExtracted table) /\
                exists info, In (table, info) data /\ completed info = false.
Proof.
  induction data as [|[table info] data IH]; intros Hex.
  - apply Exists_nil in Hex. contradiction.
  - cbn. destruct (completed info) eqn:Hc; cbn.
    + apply Exists_cons in Hex as [Hex|Hex]; [cbn in Hex; congruence|].
      destruct (IH Hex) as (t & Ht & i & Hin & Hi). eauto 8.
    + eauto 8.
Qed.

End ExtractionCheck.

(** X5. If [process_orchestration] returns normally, every table that
    SHOW TABLES listed and that belongs to the 5-minute selection (name
    pattern and start date) has an entry marked completed in the
    checkpoint file, and every other entry of the file is what it was
    before the run, as is the entry of a selected table that was marked
    completed already; so when no entry was left incomplete before the
    run, the manager's [check_extraction_completion] accepts the file the
    run wrote. *)
Theorem returned_run_completes_every_selected_table
  (env : Extract.Env) (self : Orchestrator.t) (names : list string)
  (w w' : Extract.World) :
  Extract.show_tables env = Ok names ->
  Orchestrator.process_orchestration env self w = (Extract.Returns tt, w') ->
  (forall t, In t names ->
     SelectSpec.selected (ExtractorConfig.pattern_5min ExtractorConfig.patterns)
       ExtractorConfig.START_DATE t = true ->
     exists e, Extract.last_extracted_json w' !! t = Some e /\
               Extract.completed e = true) /\
  (forall T,
     ~ (In T names /\
        SelectSpec.selected (ExtractorConfig.pattern_5min ExtractorConfig.patterns)
          ExtractorConfig.START_DATE T = true) \/
     (exists e, Extract.last_extracted_json w !! T = Some e /\
                Extract.completed e = true) ->
     Extract.last_extracted_json w' !! T = Extract.last_extracted_json w !! T) /\
  ((forall T e, Extract.last_extracted_json w !! T = Some e ->
                Extract.completed e = true) ->
   forall data,
     (forall T e, In (T, e) data -> Extract.last_extracted_json w' !! T = Some e) ->
     EtlPipeline.check_extraction_completion (EtlPipeline.JsonObject data) = Ok tt).
Proof.
  intros Hshow Hrun.
  destruct (process_orchestration_run env self names w w' Hshow Hrun) as [Hall Hframe].
  split; [exact Hall|]. split; [exact Hframe|].
  intros Hbefore data Hdata.
  assert (Hc : Forall (fun kv => Extract.completed (snd kv) = true) data).
  { apply Forall_forall. intros [T e] Hin. apply list_elem_of_In in Hin.
    cbn [snd]. pose proof (Hdata T e Hin) as He.
    destruct (in_dec string_dec T names) as [Hin'|Hout].
    - destruct (SelectSpec.selected
                  (ExtractorConfig.pattern_5min ExtractorConfig.patterns)
                  ExtractorConfig.START_DATE T) eqn:Hsel.
      + destruct (Hall T Hin' Hsel) as (e1 & He1 & Hc1). congruence.
      + rewrite Hframe in He; [now apply (Hbefore T e)|].
        left. intros [_ Hs]. congruence.
    - rewrite Hframe in He; [now apply (Hbefore T e)|]. left. now intros [Hin' _]. }
  unfold EtlPipeline.check_extraction_completion, EtlPipeline.check_body.
  destruct data as [|kv data]; [reflexivity|].
  now rewrite (check_tables_completed _ Hc).
Qed.

Lemma returned_run_completes_every_selected_table_witness :
  let w' := snd (Orchestrator.process_orchestration (Samples.static_env 5)
                   Samples.small_batches Samples.empty_world) in
  (forall t, In t ["CALIS_APG43_5_S12_A2024"] ->
     SelectSpec.selected (ExtractorConfig.pattern_5min ExtractorConfig.patterns)
       ExtractorConfig.START_DATE t = true ->
     exists e, Extract.last_extracted_json w' !! t = Some e /\
               Extract.completed e = true) /\
  (forall T,
     ~ (In T ["CALIS_APG43_5_S12_A2024"] /\
        SelectSpec.selected (ExtractorConfig.pattern_5min ExtractorConfig.patterns)
          ExtractorConfig.START_DATE T = true) \/
     (exists e, Extract.last_extracted_json Samples.empty_world !! T = Some e /\
                Extract.completed e = true) ->
     Extract.last_extracted_json w' !! T
     = Extract.last_extracted_json Samples.empty_world !! T) /\
  ((forall T e, Extract.last_extracted_json Samples.empty_world !! T = Some e ->
                Extract.completed e = true) ->
   forall data,
     (forall T e, In (T, e) data -> Extract.last_extracted_json w' !! T = Some e) ->
     EtlPipeline.check_extraction_completion (EtlPipeline.JsonObject data) = Ok tt).
Proof.
  apply (returned_run_completes_every_selected_table (Samples.static_env 5)
           Samples.small_batches ["CALIS_APG43_5_S12_A2024"] Samples.empty_world).
  - reflexivity.
  - vm_compute. reflexivity.
Defined.

(** X6. [check_extraction_completion] returns normally when the
    checkpoint file is missing, empty, blank, or a JSON object all of
    whose tables are marked completed (the empty object among them). A
    file that is not JSON raises [ValueError]. A table without the
    completed mark raises a plain [Exception]: the [ValueError] raised in
    the loop is caught by the handler for [Exception] and replaced. *)
Theorem extraction_check_outcomes (file : EtlPipeline.checkpoint_file) :
  match file with
  | EtlPipeline.NoFile | EtlPipeline.EmptyFile | EtlPipeline.BlankFile =>
      EtlPipeline.check_extraction_completion file = Ok tt
  | EtlPipeline.InvalidJson =>
      EtlPipeline.check_extraction_completion file = Raise ValueError
  | EtlPipeline.JsonObject data =>
      (Forall (fun kv => Extract.completed (snd kv) = true) data ->
       EtlPipeline.check_extraction_completion file = Ok tt) /\
      (Exists (fun kv => Extract.completed (snd kv) = false) data ->
       EtlPipeline.check_extraction_completion file = Raise OtherException /\
       exists table info,
         EtlPipeline.check_body file = inr (EtlPipeline.NotFullyExtracted table) /\
         In (table, info) data /\ Extract.completed info = false)
  end.
Proof.
  destruct file as [| | | |data]; try reflexivity.
  unfold EtlPipeline.check_extraction_completion, EtlPipeline.check_body. split.
  - intros Hc. destruct data as [|kv data]; [reflexivity|].
    now rewrite (check_tables_completed _ Hc).
  - intros Hex. destruct (check_tables_incomplete _ Hex) as (t & Ht & i & Hin & Hi).
    destruct data as [|kv data]; [destruct Hin|].
    rewrite Ht. eauto 8.
Qed.


(** * Further properties of the table selection *)

(** ** The three categories share no name *)

(** Takes apart a hypothesis [matches p t = true] for a pattern of the
    configuration. *)
Ltac invert_category H :=
  unfold SelectSpec.matches, Re.re_match in H;
  let Hm := fresh "Hm" in
  let m := fresh "m" in
  destruct (Re.match_at _ _ _ _) as [m|] eqn:Hm in H; [clear H|discriminate H];
  let s' := fresh "s'" in
  apply match_at_Some in Hm as (s' & H);
  cbn [Re.source Re.IGNORECASE ExtractorConfig.pattern_5min ExtractorConfig.pattern_15min
       ExtractorConfig.pattern_mgw ExtractorConfig.patterns ExtractorConfig.digit4
       Re.seqs Re.lits map chars list_ascii_of_string fold_right app] in H;
  unfold ExtractorConfig.node_names in H;
  cbn [Re.seqs Re.lits map chars list_ascii_of_string fold_right app] in H;
  inv_run H; subst.

Section Disjoint.
Import Re SelectSpec ExtractorConfig.

Lemma not_5min_and_15min (t : string) :
  matches (pattern_5min patterns) t = true ->
  matches (pattern_15min patterns) t = true -> False.
Proof.
  intros H5 H15. invert_category H5; invert_category H15.
  all: match goal with
       | H : chars ?t0 = _, H' : chars ?t0 = _ |- _ => rewrite H in H'; injection H' as ?
       end.
  all: subst;
    match goal with
    | H1 : lit_match true "5" ?x = true, H2 : lit_match true "1" ?x = true |- _ =>
        rewrite (lit_match_other "5" "1" x H1) in H2; vm_compute in H2; discriminate H2
    end.
Qed.

(** A name of the 5-minute or of the 15-minute category has a separator
    as its sixth character, so no run of letters and digits followed by
    [MGW] can start it. *)
Lemma node_prefix_is_not_mgw (c1 c2 c3 c4 c5 sep : ascii) (tail als rest : list ascii)
  (m g w : ascii) :
  c1 :: c2 :: c3 :: c4 :: c5 :: sep :: tail = als ++ m :: g :: w :: rest ->
  als <> [] -> forallb (class_match true alnum) als = true ->
  lit_match true "M" m = true ->
  (lit_match true "-" sep = true \/ lit_match true "_" sep = true) ->
  (forall x, In x [c2; c3; c4; c5] -> lit_match true "M" x = false) ->
  False.
Proof.
  intros Heq Hne Hals Hm Hsep Hnot.
  assert (Hsep' : class_match true alnum sep = false /\ lit_match true "M" sep = false).
  { destruct Hsep as [H|H];
      rewrite (class_match_of_lit _ alnum sep H), (lit_match_other _ "M" sep H);
      vm_compute; auto. }
  destruct Hsep' as [Hsa HsM].
  destruct als as [|a1 als]; [congruence|]. cbn [app forallb] in *.
  apply andb_true_iff in Hals as [_ Hals]. injection Heq as _ Heq.
  do 4 (destruct als as [|? als]; cbn [app forallb] in *;
        [injection Heq as -> _; rewrite Hnot in Hm by (cbn; auto); discriminate|];
        apply andb_true_iff in Hals as [_ Hals]; injection Heq as _ Heq).
  destruct als as [|a6 als]; cbn [app forallb] in *.
  - injection Heq as -> _. congruence.
  - apply andb_true_iff in Hals as [Ha6 _]. injection Heq as -> _. congruence.
Qed.

Lemma not_5min_and_mgw (t : string) :
  matches (pattern_5min patterns) t = true ->
  matches (pattern_mgw patterns) t = true -> False.
Proof.
  intros H5 Hmgw. invert_category H5; invert_category Hmgw.
  all: match goal with
       | H : chars ?t0 = _, H' : chars ?t0 = _ |- _ => rewrite H in H'
       end.
  all: split_separators.
  all: match goal with
       | H : _ :: _ = _ ++ _ |- _ =>
           eapply node_prefix_is_not_mgw in H;
             [exact H|assumption|assumption|assumption
             |first [left; assumption|right; assumption]|]
       end.
  all: intros x [<-|[<-|[<-|[<-|[]]]]];
    match goal with
    | H : lit_match true ?a ?x = true |- lit_match true "M" ?x = false =>
        rewrite (lit_match_other a "M" x H); reflexivity
    end.
Qed.

Lemma not_15min_and_mgw (t : string) :
  matches (pattern_15min patterns) t = true ->
  matches (pattern_mgw patterns) t = true -> False.
Proof.
  intros H15 Hmgw. invert_category H15; invert_category Hmgw.
  all: match goal with
       | H : chars ?t0 = _, H' : chars ?t0 = _ |- _ => rewrite H in H'
       end.
  all: split_separators.
  all: match goal with
       | H : _ :: _ = _ ++ _ |- _ =>
           eapply node_prefix_is_not_mgw in H;
             [exact H|assumption|assumption|assumption
             |first [left; assumption|right; assumption]|]
       end.
  all: intros x [<-|[<-|[<-|[<-|[]]]]];
    match goal with
    | H : lit_match true ?a ?x = true |- lit_match true "M" ?x = false =>
        rewrite (lit_match_other a "M" x H); reflexivity
    end.
Qed.

End Disjoint.

(** X7. No table name belongs to two of the three categories of the
    configuration, so the three manifests that [process_tables_names]
    stores have no name in common. *)
Theorem categories_share_no_table (names : list string) (cutoff : Calendar.datetime)
  (w : Extract.World) :
  (forall t,
     ~ (SelectSpec.matches (ExtractorConfig.pattern_5min ExtractorConfig.patterns) t = true /\
        SelectSpec.matches (ExtractorConfig.pattern_15min ExtractorConfig.patterns) t = true) /\
     ~ (SelectSpec.matches (ExtractorConfig.pattern_5min ExtractorConfig.patterns) t = true /\
        SelectSpec.matches (ExtractorConfig.pattern_mgw ExtractorConfig.patterns) t = true) /\
     ~ (SelectSpec.matches (ExtractorConfig.pattern_15min ExtractorConfig.patterns) t = true /\
        SelectSpec.matches (ExtractorConfig.pattern_mgw ExtractorConfig.patterns) t = true)) /\
  exists w' m5 m15 mmgw,
    Tools.process_tables_names names ExtractorConfig.patterns cutoff w
      = (Extract.Returns m5, w') /\
    Extract.txt_files w' !! ExtractorConfig.path_5min = Some m5 /\
    Extract.txt_files w' !! ExtractorConfig.path_15min = Some m15 /\
    Extract.txt_files w' !! ExtractorConfig.path_mgw = Some mmgw /\
    forall t, ~ (In t m5 /\ In t m15) /\ ~ (In t m5 /\ In t mmgw) /\
              ~ (In t m15 /\ In t mmgw).
Proof.
  assert (Hdisjoint : forall t,
     ~ (SelectSpec.matches (ExtractorConfig.pattern_5min ExtractorConfig.patterns) t = true /\
        SelectSpec.matches (ExtractorConfig.pattern_15min ExtractorConfig.patterns) t = true) /\
     ~ (SelectSpec.matches (ExtractorConfig.pattern_5min ExtractorConfig.patterns) t = true /\
        SelectSpec.matches (ExtractorConfig.pattern_mgw ExtractorConfig.patterns) t = true) /\
     ~ (SelectSpec.matches (ExtractorConfig.pattern_15min ExtractorConfig.patterns) t = true /\
        SelectSpec.matches (ExtractorConfig.pattern_mgw ExtractorConfig.patterns) t = true)).
  { intros t. repeat split; intros [Ha Hb].
    - exact (not_5min_and_15min t Ha Hb).
    - exact (not_5min_and_mgw t Ha Hb).
    - exact (not_15min_and_mgw t Ha Hb). }
  split; [exact Hdisjoint|].
  destruct (process_tables_names_run names ExtractorConfig.patterns cutoff w)
    as (w' & m5 & m15 & mmgw & Hrun & H5 & H15 & Hmgw & Hfiles & _).
  assert (Hin : forall p manifest t,
            In p [ExtractorConfig.pattern_5min ExtractorConfig.patterns;
                  ExtractorConfig.pattern_15min ExtractorConfig.patterns;
                  ExtractorConfig.pattern_mgw ExtractorConfig.patterns] ->
            Tools.sort_by_year_and_week
              (List.filter (SelectSpec.selected p cutoff) names) = Ok manifest ->
            In t manifest -> SelectSpec.matches p t = true).
  { intros p manifest t Hp Hsort Ht.
    destruct (manifest_is_selection p cutoff names manifest Hp Hsort) as [Hperm _].
    apply (Permutation_in _ Hperm) in Ht. apply filter_In in Ht as [_ Hsel].
    unfold SelectSpec.selected in Hsel. now apply andb_true_iff in Hsel as [Hm _]. }
  exists w', m5, m15, mmgw. split; [exact Hrun|]. rewrite Hfiles.
  split; [|split; [|split]].
  - rewrite lookup_insert_ne by discriminate. rewrite lookup_insert_ne by discriminate.
    apply lookup_insert_eq.
  - rewrite lookup_insert_ne by discriminate. apply lookup_insert_eq.
  - apply lookup_insert_eq.
  - intros t. destruct (Hdisjoint t) as (Ha & Hb & Hc).
    repeat split; intros [H1 H2].
    + apply Ha. split; [apply (Hin _ m5)|apply (Hin _ m15)]; cbn; auto.
    + apply Hb. split; [apply (Hin _ m5)|apply (Hin _ mmgw)]; cbn; auto.
    + apply Hc. split; [apply (Hin _ m15)|apply (Hin _ mmgw)]; cbn; auto.
Qed.

(** ** What the sort needs of a name *)

Section SortOutcome.
Import Re SelectSpec.

Lemma search_int_outcome (p : pattern) (t : string) :
  defines 1 (source p) = true ->
  match re_search p t with
  | Some _ => exists k, Tools.search_int p t = Ok k
  | None => Tools.search_int p t = Raise AttributeError
  end.
Proof.
  intros Hdef. destruct (re_search p t) as [m|] eqn:Hs.
  - apply search_int_defined; [exact Hdef|congruence].
  - unfold Tools.search_int. now rewrite Hs.
Qed.

Lemma sort_key_outcome (t : string) :
  (re_search Tools.year_suffix t <> None /\ re_search Tools.week_infix t <> None /\
   exists k, Tools.sort_key t = Ok k) \/
  ((re_search Tools.year_suffix t = None \/ re_search Tools.week_infix t = None) /\
   Tools.sort_key t = Raise AttributeError).
Proof.
  pose proof (search_int_outcome Tools.year_suffix t eq_refl) as Hy.
  pose proof (search_int_outcome Tools.week_infix t eq_refl) as Hw.
  unfold Tools.sort_key.
  destruct (re_search Tools.year_suffix t) as [my|].
  - destruct Hy as [y ->]. destruct (re_search Tools.week_infix t) as [mw|].
    + destruct Hw as [k ->]. left. repeat split; try discriminate. eauto.
    + rewrite Hw. right. auto.
  - rewrite Hy. right. auto.
Qed.

Lemma keyed_raises (l : list string) :
  Exists (fun t => re_search Tools.year_suffix t = None \/
                   re_search Tools.week_infix t = None) l ->
  Tools.keyed l = Raise AttributeError.
Proof.
  induction l as [|t l IH]; intros Hex.
  - apply Exists_nil in Hex. contradiction.
  - cbn [Tools.keyed].
    destruct (sort_key_outcome t) as [(Hy & Hw & k & ->)|[_ ->]]; [|reflexivity].
    apply Exists_cons in Hex as [[H|H]|Hex]; try contradiction.
    now rewrite (IH Hex).
Qed.

End SortOutcome.

(** X8. [sort_by_year_and_week] needs both [_A\d{4}$] and [_S\d+_] in
    every name. If every name has them, the result is a permutation of its
    input in ascending order of the key (year, week), and sorting it again
    changes nothing (as [process_tables_names] does with the 5-minute
    list). If one name lacks one of them, the call raises
    [AttributeError], whatever the other names are. *)
Theorem sort_by_year_and_week_outcome (tables : list string) :
  (Forall (fun t => Re.re_search Tools.year_suffix t <> None /\
                    Re.re_search Tools.week_infix t <> None) tables ->
   exists sorted,
     Tools.sort_by_year_and_week tables = Ok sorted /\
     Permutation sorted tables /\
     SelectSpec.sorted_by_year_week sorted /\
     Tools.sort_by_year_and_week sorted = Ok sorted) /\
  (Exists (fun t => Re.re_search Tools.year_suffix t = None \/
                    Re.re_search Tools.week_infix t = None) tables ->
   Tools.sort_by_year_and_week tables = Raise AttributeError).
Proof.
  split.
  - intros Hall. apply sort_by_year_and_week_run.
    apply Forall_forall. intros t Hin. rewrite Forall_forall in Hall.
    destruct (Hall t Hin) as [Hy Hw].
    destruct (sort_key_outcome t) as [(_ & _ & Hk)|[[H|H] _]]; [exact Hk| |]; contradiction.
  - intros Hex. unfold Tools.sort_by_year_and_week. now rewrite (keyed_raises _ Hex).
Qed.

(** ** The start date *)

Section StartDate.
Import SelectSpec.
Local Open Scope Z_scope.

Lemma first_of_january (year : Z) :
  Calendar.ymd2ord year 1 1 = Calendar.days_before_year year + 1.
Proof.
  unfold Calendar.ymd2ord. change (Calendar.days_before_month year 1) with 0. lia.
Qed.

Lemma start_date_ordinal : Calendar.ordinal ExtractorConfig.START_DATE = 738886.
Proof. reflexivity. Qed.

(** Which resolved dates are on or after 2024-01-01. *)
Lemma resolved_date_cutoff (year week : Z) (d : Calendar.datetime) :
  Calendar.strptime_year_week_monday year week = Ok d ->
  Calendar.ordinal ExtractorConfig.START_DATE <= Calendar.ordinal d <->
  2024 <= year \/ (year = 2023 /\ week = 53).
Proof.
  unfold Calendar.strptime_year_week_monday.
  destruct ((1000 <=? year) && (year <=? 9999) && (0 <=? week) && (week <=? 53))
    eqn:Hrange; [|discriminate].
  cbn zeta.
  match goal with |- (if ?b then _ else _) = _ -> _ => destruct b eqn:Hvalid end;
    [|discriminate].
  intros [= <-]. cbn [Calendar.ordinal]. rewrite start_date_ordinal.
  rewrite !andb_true_iff, !Z.leb_le in Hrange.
  unfold Calendar.calc_julian_from_W, Calendar.weekday.
  rewrite first_of_january. unfold Calendar.days_before_year.
  destruct (Z.eqb_spec week 0) as [->|Hw]; Z.div_mod_to_equations; lia.
Qed.

(** Which weeks and years resolve to a date. *)
Lemma resolvable_week_year (year week : Z) :
  (1000 <= year <= 9998 -> 0 <= week <= 53 ->
   exists d, Calendar.strptime_year_week_monday year week = Ok d) /\
  (year < 1000 \/ 9999 < year \/ week < 0 \/ 53 < week ->
   Calendar.strptime_year_week_monday year week = Raise ValueError).
Proof.
  unfold Calendar.strptime_year_week_monday. split.
  - intros Hy Hw.
    destruct ((1000 <=? year) && (year <=? 9999) && (0 <=? week) && (week <=? 53))
      eqn:Hrange.
    2:{ rewrite !andb_false_iff, !Z.leb_gt in Hrange. lia. }
    cbn zeta.
    match goal with |- exists _, (if ?b then _ else _) = _ => destruct b eqn:Hvalid end;
      [eauto|].
    exfalso. rewrite andb_false_iff, !Z.leb_gt in Hvalid.
    unfold Calendar.calc_julian_from_W, Calendar.weekday, Calendar.MAXORDINAL in Hvalid.
    rewrite first_of_january in Hvalid. unfold Calendar.days_before_year in Hvalid.
    destruct (Z.eqb_spec week 0) as [->|Hw0]; Z.div_mod_to_equations; lia.
  - intros Hout.
    destruct ((1000 <=? year) && (year <=? 9999) && (0 <=? week) && (week <=? 53))
      eqn:Hrange; [|reflexivity].
    rewrite !andb_true_iff, !Z.leb_le in Hrange. lia.
Qed.

Lemma datetime_ge_midnight (d : Calendar.datetime) :
  Calendar.microsecond d = 0 ->
  Calendar.datetime_ge d ExtractorConfig.START_DATE = true <->
  Calendar.ordinal ExtractorConfig.START_DATE <= Calendar.ordinal d.
Proof.
  intros Hus. unfold Calendar.datetime_ge.
  change (Calendar.microsecond ExtractorConfig.START_DATE) with 0. rewrite Hus.
  rewrite orb_true_iff, andb_true_iff, Z.ltb_lt, Z.eqb_eq, Z.leb_le. lia.
Qed.

Lemma strptime_midnight (year week : Z) (d : Calendar.datetime) :
  Calendar.strptime_year_week_monday year week = Ok d -> Calendar.microsecond d = 0.
Proof.
  unfold Calendar.strptime_year_week_monday.
  destruct ((1000 <=? year) && (year <=? 9999) && (0 <=? week) && (week <=? 53));
    [|discriminate].
  cbn zeta.
  match goal with |- (if ?b then _ else _) = _ -> _ => destruct b end; [|discriminate].
  now intros [= <-].
Qed.

End StartDate.

(** X9. For a name with the suffix [_S{week}_A{year}], the date compared
    with the start date is a Monday; every week from 0 to 53 of a year
    from 1000 to 9998 resolves to a date, a week above 53 or a year below
    1000 (a leading zero) does not; and with the configured start date
    2024-01-01 the name is kept exactly when its date resolves and the
    year is 2024 or later, or the suffix is week 53 of 2023, which resolves
    to 2024-01-01 itself. *)
Theorem start_date_keeps_2024_and_later (t : string) (week year : Z) :
  SelectSpec.week_year_of t = Some (week, year) ->
  (SelectSpec.on_or_after ExtractorConfig.START_DATE t = true <->
   SelectSpec.table_date t <> None /\
   (2024 <= year \/ (year = 2023 /\ week = 53))%Z) /\
  (forall d, SelectSpec.table_date t = Some d ->
             Calendar.weekday (Calendar.ordinal d) = 0%Z) /\
  ((1000 <= year <= 9998)%Z -> (0 <= week <= 53)%Z -> SelectSpec.table_date t <> None) /\
  ((year < 1000 \/ 53 < week)%Z -> SelectSpec.table_date t = None).
Proof.
  intros Hwy. unfold SelectSpec.on_or_after, SelectSpec.table_date. rewrite Hwy.
  destruct (Calendar.strptime_year_week_monday year week) as [d|x] eqn:Hd.
  - split; [|split; [|split]].
    + rewrite (datetime_ge_midnight d (strptime_midnight year week d Hd)).
      rewrite (resolved_date_cutoff year week d Hd). intuition congruence.
    + intros d' [= <-]. exact (strptime_gives_monday year week d Hd).
    + discriminate.
    + intros Hout. destruct (resolvable_week_year year week) as [_ Hno].
      rewrite Hno in Hd by tauto. discriminate.
  - split; [|split; [|split]].
    + split; [discriminate|]. intros [Hno _]. congruence.
    + discriminate.
    + intros Hy Hw. destruct (resolvable_week_year year week) as [Hyes _].
      destruct (Hyes Hy Hw) as [d Hd']. congruence.
    + reflexivity.
Qed.

Lemma start_date_keeps_2024_and_later_witness :
  (SelectSpec.on_or_after ExtractorConfig.START_DATE "CALIS_APG43_5_S53_A2023" = true <->
   SelectSpec.table_date "CALIS_APG43_5_S53_A2023" <> None /\
   (2024 <= 2023 \/ (2023 = 2023 /\ 53 = 53))%Z) /\
  (forall d, SelectSpec.table_date "CALIS_APG43_5_S53_A2023" = Some d ->
             Calendar.weekday (Calendar.ordinal d) = 0%Z) /\
  ((1000 <= 2023 <= 9998)%Z -> (0 <= 53 <= 53)%Z ->
   SelectSpec.table_date "CALIS_APG43_5_S53_A2023" <> None) /\
  ((2023 < 1000 \/ 53 < 53)%Z -> SelectSpec.table_date "CALIS_APG43_5_S53_A2023" = None).
Proof.
  apply (start_date_keeps_2024_and_later "CALIS_APG43_5_S53_A2023" 53 2023).
  vm_compute. reflexivity.
Defined.


(** * Further properties of the transformer *)

(** ** Splitting an indicator name *)

Section SplitDot.
Import TransformerTools.

Lemma split_dot_prefix (s : list ascii) : ~ In "."%char (fst (split_dot s)).
Proof.
  induction s as [|c s IH]; cbn; [auto|].
  destruct (Ascii.eqb_spec c "."%char) as [->|Hne]; cbn; [auto|]. intuition.
Qed.

Lemma split_dot_join (s : list ascii) :
  match snd (split_dot s) with
  | Some suffix => s = fst (split_dot s) ++ "."%char :: suffix
  | None => s = fst (split_dot s)
  end.
Proof.
  induction s as [|c s IH]; cbn; [reflexivity|].
  destruct (Ascii.eqb_spec c "."%char) as [->|Hne]; cbn; [reflexivity|].
  destruct (snd (split_dot s)); cbn; now f_equal.
Qed.

Lemma string_of_list_ascii_app (a b : list ascii) :
  string_of_list_ascii (a ++ b) = (string_of_list_ascii a ++ string_of_list_ascii b)%string.
Proof. induction a as [|c a IH]; cbn; [reflexivity|]. now rewrite IH. Qed.

End SplitDot.

(** X10. [extract_indicateur_suffixe] cuts the name at its first dot: the
    prefix holds no dot, prefix, dot and suffix put together give the name
    back, and the suffix is [None] exactly when the name holds no dot, in
    which case the prefix is the whole name. *)
Theorem indicateur_splits_at_first_dot (indicateur : string) :
  let prefix := fst (TransformerTools.extract_indicateur_suffixe indicateur) in
  let suffix := snd (TransformerTools.extract_indicateur_suffixe indicateur) in
  ~ In "."%char (chars prefix) /\
  match suffix with
  | Some s => indicateur = (prefix ++ "." ++ s)%string
  | None => indicateur = prefix /\ ~ In "."%char (chars indicateur)
  end.
Proof.
  cbn zeta. unfold TransformerTools.extract_indicateur_suffixe. cbn [fst snd].
  unfold chars at 1. rewrite list_ascii_of_string_of_list_ascii.
  split; [apply split_dot_prefix|].
  pose proof (split_dot_join (chars indicateur)) as Hj.
  destruct (snd (TransformerTools.split_dot (chars indicateur))) as [sfx|];
    cbn [option_map].
  - rewrite <- (string_of_list_ascii_of_string indicateur) at 1.
    fold (chars indicateur). rewrite Hj at 1.
    now rewrite string_of_list_ascii_app.
  - split.
    + rewrite <- (string_of_list_ascii_of_string indicateur) at 1.
      fold (chars indicateur). now rewrite Hj at 1.
    + rewrite Hj. apply split_dot_prefix.
Qed.

(** ** Batches of dates *)

Section Chunks.
Context {A : Type}.

Lemma firstn_step (a b : nat) (l : list A) :
  firstn (a + b) l = firstn a l ++ firstn b (skipn a l).
Proof.
  revert l. induction a as [|a IH]; intros l; [reflexivity|].
  destruct l as [|x l]; cbn [Nat.add firstn skipn app].
  - now rewrite firstn_nil.
  - now rewrite IH.
Qed.

Lemma chunks_concat (bs : nat) (l : list A) (n : nat) :
  concat (map (fun k => firstn bs (skipn (k * bs) l)) (seq 0 n)) = firstn (n * bs) l.
Proof.
  induction n as [|n IH]; [reflexivity|].
  rewrite seq_S, map_app, concat_app, IH. cbn [map concat Nat.add].
  rewrite app_nil_r. replace (S n * bs) with (n * bs + bs) by lia.
  now rewrite firstn_step.
Qed.

Lemma chunk_length (bs : nat) (l : list A) (k : nat) :
  length (firstn bs (skipn (k * bs) l)) = Nat.min bs (length l - k * bs).
Proof. now rewrite length_firstn, length_skipn. Qed.

End Chunks.

Section DateBatches.
Import Transformer.

Lemma range_step_count (stop step : nat) :
  0 < step ->
  let n := (stop + step - 1) / step in
  stop <= n * step /\ (forall k, k < n -> k * step < stop).
Proof.
  intros Hstep n.
  pose proof (Nat.div_mod_eq (stop + step - 1) step) as Hdiv.
  pose proof (Nat.mod_upper_bound (stop + step - 1) step ltac:(lia)) as Hmod.
  fold n in Hdiv. split; [nia|]. intros k Hk. nia.
Qed.

Lemma date_batches_chunks (dates : list string) :
  date_batches dates
  = map (fun k => firstn date_batch_size (skipn (k * date_batch_size) dates))
        (seq 0 ((length dates + date_batch_size - 1) / date_batch_size)).
Proof. unfold date_batches, range_step. now rewrite map_map. Qed.

End DateBatches.

(** X11. The date batches of [process] cut the list of dates into
    consecutive slices: put end to end they give the list back, every
    slice holds between 1 and 500 dates, every slice but the last holds
    500, and there are ceil(n / 500) of them, none for an empty list. *)
Theorem date_batches_partition (dates : list string) :
  Transformer.date_batch_size = 500 /\
  concat (Transformer.date_batches dates) = dates /\
  Forall (fun b => 1 <= length b <= Transformer.date_batch_size)
         (Transformer.date_batches dates) /\
  length (Transformer.date_batches dates)
    = (length dates + Transformer.date_batch_size - 1) / Transformer.date_batch_size /\
  (forall i b, nth_error (Transformer.date_batches dates) i = Some b ->
               S i < length (Transformer.date_batches dates) ->
               length b = Transformer.date_batch_size) /\
  Transformer.date_batches [] = [].
Proof.
  split; [reflexivity|].
  assert (Hpos : 0 < Transformer.date_batch_size) by (unfold Transformer.date_batch_size; lia).
  destruct (range_step_count (length dates) Transformer.date_batch_size Hpos)
    as [Hcover Hinside].
  rewrite date_batches_chunks.
  set (bs := Transformer.date_batch_size) in *.
  set (n := (length dates + bs - 1) / bs) in *.
  split; [|split; [|split; [|split]]].
  - rewrite chunks_concat. apply firstn_all2. exact Hcover.
  - apply Forall_forall. intros b Hin. apply list_elem_of_In in Hin.
    apply in_map_iff in Hin as (k & <- & Hk). apply in_seq in Hk.
    rewrite chunk_length. specialize (Hinside k ltac:(lia)). lia.
  - now rewrite length_map, length_seq.
  - intros i b Hnth Hlast. rewrite length_map, length_seq in Hlast.
    rewrite nth_error_map in Hnth.
    destruct (nth_error (seq 0 n) i) as [k|] eqn:Hk; [|discriminate].
    injection Hnth as <-.
    assert (k = i).
    { apply nth_error_nth with (d := 0) in Hk. rewrite seq_nth in Hk by lia. lia. }
    subst k. rewrite chunk_length. specialize (Hinside (S i) Hlast). lia.
  - reflexivity.
Qed.

(** ** Reading the manifest back *)

Section Manifest.
Import Transformer.

Local Abbreviation nl := ("010"%char).
Local Abbreviation cr := ("013"%char).

Lemma universal_newlines_id (s : list ascii) :
  ~ In cr s -> universal_newlines s = s.
Proof.
  induction s as [|c s IH]; intros Hno; [reflexivity|]. cbn [universal_newlines].
  destruct (Ascii.eqb_spec c cr) as [->|Hne]; [exfalso; apply Hno; now left|].
  rewrite IH; [reflexivity|]. intros Hin. apply Hno. now right.
Qed.

Lemma file_lines_single (l : list ascii) :
  l <> [] -> ~ In nl l -> file_lines l = [l].
Proof.
  induction l as [|c l IH]; intros Hne Hno; [congruence|]. cbn [file_lines].
  destruct (Ascii.eqb_spec c nl) as [->|_]; [exfalso; apply Hno; now left|].
  destruct l as [|c' l]; [reflexivity|].
  rewrite IH; [reflexivity|discriminate|]. intros Hin. apply Hno. now right.
Qed.

Lemma file_lines_first (l s : list ascii) :
  ~ In nl l -> file_lines (l ++ nl :: s) = (l ++ [nl]) :: file_lines s.
Proof.
  induction l as [|c l IH]; intros Hno; [reflexivity|]. cbn [app file_lines].
  destruct (Ascii.eqb_spec c nl) as [->|_]; [exfalso; apply Hno; now left|].
  rewrite IH; [reflexivity|]. intros Hin. apply Hno. now right.
Qed.

Lemma lstrip_id (l : list ascii) :
  match l with [] => True | c :: _ => is_space c = false end -> lstrip l = l.
Proof. destruct l as [|c l]; [reflexivity|]. cbn. now intros ->. Qed.

(** A name without white space, and the same name followed by a line
    end, are both stripped to the name. *)
Lemma strip_line (l tail : list ascii) :
  l <> [] -> forallb (fun c => negb (is_space c)) l = true ->
  tail = [] \/ tail = [nl] ->
  strip (l ++ tail) = l.
Proof.
  intros Hne Hclean Htail.
  assert (Hhead : match l with [] => True | c :: _ => is_space c = false end).
  { destruct l as [|c l]; [exact I|]. cbn in Hclean.
    apply andb_true_iff in Hclean as [Hc _]. now apply negb_true_iff. }
  assert (Hlast : match rev l with [] => True | c :: _ => is_space c = false end).
  { destruct (rev l) as [|c r] eqn:Hr; [exact I|].
    rewrite forallb_forall in Hclean. apply negb_true_iff. apply Hclean.
    apply in_rev. rewrite Hr. now left. }
  unfold strip. rewrite (lstrip_id (l ++ tail)).
  2:{ destruct l as [|c l]; [congruence|exact Hhead]. }
  rewrite rev_app_distr.
  destruct Htail as [->| ->]; cbn [rev app lstrip].
  - rewrite (lstrip_id (rev l) Hlast). apply rev_involutive.
  - change (is_space nl) with true. cbn iota.
    rewrite (lstrip_id (rev l) Hlast). apply rev_involutive.
Qed.

Lemma clean_name (name : string) :
  name <> "" -> forallb (fun c => negb (is_space c)) (chars name) = true ->
  chars name <> [] /\ ~ In nl (chars name) /\ ~ In cr (chars name).
Proof.
  intros Hne Hclean. split; [|split].
  - intros Hnil. apply Hne. rewrite <- (string_of_list_ascii_of_string name).
    unfold chars in Hnil. now rewrite Hnil.
  - intros Hin. rewrite forallb_forall in Hclean. now apply Hclean in Hin.
  - intros Hin. rewrite forallb_forall in Hclean. now apply Hclean in Hin.
Qed.

Lemma join_lines_cons (name : string) (more : string) (rest : list string) :
  Tools.join_lines (name :: more :: rest)
  = chars name ++ nl :: Tools.join_lines (more :: rest).
Proof. reflexivity. Qed.

Lemma join_lines_no_cr (data : list string) :
  Forall (fun name => ~ In cr (chars name)) data -> ~ In cr (Tools.join_lines data).
Proof.
  induction data as [|name [|more rest] IH]; intros Hall.
  - intros [].
  - apply Forall_cons in Hall as [Hname _]. exact Hname.
  - apply Forall_cons in Hall as [Hname Hrest]. rewrite join_lines_cons.
    rewrite in_app_iff. intros [Hin|[Hin|Hin]]; [auto|discriminate|].
    now apply IH.
Qed.

Lemma stripped_lines (data : list string) :
  Forall (fun name => name <> "" /\
                      forallb (fun c => negb (is_space c)) (chars name) = true) data ->
  map strip (file_lines (Tools.join_lines data)) = map chars data.
Proof.
  induction data as [|name [|more rest] IH]; intros Hall.
  - reflexivity.
  - apply Forall_cons in Hall as [[Hne Hclean] _].
    destruct (clean_name name Hne Hclean) as (Hnil & Hnl & _).
    cbn [Tools.join_lines map]. rewrite (file_lines_single _ Hnil Hnl). cbn [map].
    rewrite <- (app_nil_r (chars name)) at 1. rewrite strip_line; auto.
  - apply Forall_cons in Hall as [[Hne Hclean] Hrest].
    destruct (clean_name name Hne Hclean) as (Hnil & Hnl & _).
    rewrite join_lines_cons, (file_lines_first _ _ Hnl). cbn [map].
    rewrite strip_line by auto. now rewrite IH.
Qed.

Lemma joined_lines_read_back (data : list string) :
  Forall (fun name => name <> "" /\
            forallb (fun c => negb (Transformer.is_space c)) (chars name) = true) data ->
  Transformer.load_tables (Some (Tools.join_lines data)) = Ok data.
Proof.
  intros Hall. unfold Transformer.load_tables.
  rewrite universal_newlines_id.
  2:{ apply join_lines_no_cr. eapply Forall_impl; [exact Hall|].
      intros name [Hne Hclean]. now destruct (clean_name name Hne Hclean) as (_ & _ & H). }
  rewrite (stripped_lines data Hall). f_equal.
  rewrite Forall_forall in Hall.
  assert (Hkeep : List.filter (fun line => negb (length line =? 0)%nat) (map chars data)
                  = map chars data).
  { apply forallb_filter_id. apply forallb_forall. intros l Hin.
    apply in_map_iff in Hin as (name & <- & Hin).
    destruct (Hall name ltac:(now apply list_elem_of_In)) as [Hne Hclean].
    destruct (clean_name name Hne Hclean) as (Hnil & _).
    destruct (chars name); [congruence|reflexivity]. }
  rewrite Hkeep, map_map. erewrite map_ext; [apply map_id|].
  intros name. apply string_of_list_ascii_of_string.
Qed.

End Manifest.

(** X12. What [store_txt] writes, [load_tables] reads back: when every
    name is non-empty and holds no white space (no blank, tab, line end or
    other character that [str.isspace] accepts), the lines joined by
    [store_txt] are returned by [load_tables] as the same list, in the same
    order. A file that does not exist makes [load_tables] raise, an empty
    file gives the empty list. *)
Theorem load_tables_reads_back_store_txt (data : list string) :
  Forall (fun name => name <> "" /\
            forallb (fun c => negb (Transformer.is_space c)) (chars name) = true) data ->
  Transformer.load_tables (Some (Tools.join_lines data)) = Ok data /\
  Transformer.load_tables (Some []) = Ok [] /\
  Transformer.load_tables None = Raise OtherException.
Proof.
  intros Hall. split; [|split; reflexivity]. now apply joined_lines_read_back.
Qed.

Lemma load_tables_reads_back_store_txt_witness :
  Transformer.load_tables
    (Some (Tools.join_lines ["CALIS-APG43-5_S02_A2024"; "MEIND_APG43_5_S10_A2024"]))
    = Ok ["CALIS-APG43-5_S02_A2024"; "MEIND_APG43_5_S10_A2024"] /\
  Transformer.load_tables (Some []) = Ok [] /\
  Transformer.load_tables None = Raise OtherException.
Proof.
  apply (load_tables_reads_back_store_txt
           ["CALIS-APG43-5_S02_A2024"; "MEIND_APG43_5_S10_A2024"]).
  repeat constructor; try discriminate.
Defined.

(** ** The KPI definitions of the configuration *)

Section Formulas.
Import TransformerConfig Transformer.

Lemma buffer_rows_keeps_all (table_name : string) (kpi_configs : list (string * kpi_config))
  (kid : Z) (suffix_data : list (string * suffix_group)) :
  (forall counters,
     existsb (fun kv => match snd kv with Some _ => true | None => false end)
             (calculate_kpis counters kpi_configs) = true) ->
  snd (buffer_rows table_name kpi_configs kid suffix_data) = [] /\
  map suffix (fst (buffer_rows table_name kpi_configs kid suffix_data))
    = map fst suffix_data.
Proof.
  intros Hvalue. induction suffix_data as [|[sfx data] rest [IHw IHr]]; [now split|].
  cbn [buffer_rows]. rewrite Hvalue. cbn [fst snd map suffix]. now rewrite IHw, IHr.
Qed.

End Formulas.

(** X13. Every KPI of the 5-minute tables is the value of one counter, 0
    when the counter is missing, and is never null; so [process] buffers
    one detail row for every suffix group of a date and never drops one
    with the warning for rows without valid KPIs. *)
Theorem five_minute_kpis_are_never_null (counters : gmap string Q) :
  Forall (fun table =>
    Forall2 (fun kc kv =>
               fst kv = fst kc /\
               exists counter q,
                 snd kc = TransformerConfig.sum_kpi counter /\
                 snd kv = Some q /\ (q == default 0 (counters !! counter))%Q)
            (TransformerConfig.kpis (snd table))
            (Transformer.calculate_kpis counters (TransformerConfig.kpis (snd table))) /\
    forall kid suffix_data,
      snd (Transformer.buffer_rows (fst table) (TransformerConfig.kpis (snd table))
             kid suffix_data) = [] /\
      map Transformer.suffix
          (fst (Transformer.buffer_rows (fst table) (TransformerConfig.kpis (snd table))
                  kid suffix_data))
        = map fst suffix_data)
    TransformerConfig.tables_5min.
Proof.
  unfold TransformerConfig.tables_5min.
  repeat (apply Forall_cons; split); [| |constructor].
  all: cbn [fst snd TransformerConfig.kpis]; split.
  all: try (intros kid suffix_data; apply buffer_rows_keeps_all; intros c; reflexivity).
  all: unfold Transformer.calculate_kpis; cbn [map fst snd].
  all: repeat (apply List.Forall2_cons; [split; [reflexivity|]|]);
    try apply List.Forall2_nil.
  all: eexists _, _; (split; [reflexivity|]); (split; [reflexivity|]);
    unfold py_sum; cbn; apply Qplus_0_l.
Qed.

(** X14. A formula is called with the denominator values whenever its
    definition has the key ['denominator'], even an empty one. A formula
    of one argument whose definition has that key, or a formula of two
    arguments whose definition lacks it, raises [TypeError] at every call,
    which [calculate_kpis] turns into a null value: the KPI
    [TotalBwForSig] of the MGW table is null for every counter map. *)
Theorem total_bw_for_sig_is_always_null (counters : gmap string Q) :
  (forall kpi config f den,
     TransformerConfig.kpi_formula config = TransformerConfig.Lambda1 f ->
     TransformerConfig.denominator config = Some den ->
     Transformer.evaluate counters config = Raise TypeError /\
     Transformer.calculate_kpis counters [(kpi, config)] = [(kpi, None)]) /\
  (forall kpi config f,
     TransformerConfig.kpi_formula config = TransformerConfig.Lambda2 f ->
     TransformerConfig.denominator config = None ->
     Transformer.evaluate counters config = Raise TypeError /\
     Transformer.calculate_kpis counters [(kpi, config)] = [(kpi, None)]) /\
  Transformer.assoc "TotalBwForSig"
    (Transformer.calculate_kpis counters TransformerConfig.mgw_kpis) = Some None.
Proof.
  split; [|split].
  - intros kpi config f den Hf Hden.
    unfold Transformer.calculate_kpis, Transformer.evaluate. cbn [map fst snd].
    rewrite Hf, Hden. cbn. auto.
  - intros kpi config f Hf Hden.
    unfold Transformer.calculate_kpis, Transformer.evaluate. cbn [map fst snd].
    rewrite Hf, Hden. cbn. auto.
  - unfold Transformer.calculate_kpis, TransformerConfig.mgw_kpis.
    cbn [map fst snd Transformer.assoc String.eqb Ascii.eqb Bool.eqb].
    reflexivity.
Qed.

(** ** The node of a table *)

Section Node.
Import Re TransformerConfig.

Lemma to_upper_of_lower (x : ascii) : to_upper (to_lower x) = to_upper x.
Proof. destruct x as [[] [] [] [] [] [] [] []]; reflexivity. Qed.

Lemma lit_match_upper (a x : ascii) :
  lit_match true a x = true -> to_upper x = to_upper a.
Proof.
  intros H. apply lit_match_lower in H.
  now rewrite <- (to_upper_of_lower x), H, to_upper_of_lower.
Qed.

Lemma consumed_five (a b c d e : ascii) (r : list ascii) :
  consumed (a :: b :: c :: d :: e :: r) r = [a; b; c; d; e].
Proof. exact (consumed_app [a; b; c; d; e] r). Qed.

Lemma noeud_match_inv (t : string) (m : captures) :
  re_match NOEUD_PATTERN t = Some m ->
  exists node,
    group 1 m = Some node /\
    In (string_of_list_ascii (TransformerTools.upper node)) ["CALIS"; "MEIND"; "RAIND"].
Proof.
  unfold re_match. intros Hm. apply match_at_Some in Hm as (s' & Hin).
  cbn [source IGNORECASE NOEUD_PATTERN seqs lits map chars list_ascii_of_string
       fold_right app] in Hin.
  inv_run Hin; subst.
  all: match goal with H : chars _ = _ |- _ => rewrite H end.
  all: eexists; split; [cbn [group Nat.eqb]; rewrite consumed_five; reflexivity|].
  all: unfold TransformerTools.upper; cbn [map];
    repeat match goal with
           | H : lit_match true ?a ?x = true |- context [to_upper ?x] =>
               rewrite (lit_match_upper a x H)
           end;
    vm_compute; auto.
Qed.

Lemma noeud_matches_category (t : string) :
  SelectSpec.matches (ExtractorConfig.pattern_5min ExtractorConfig.patterns) t = true \/
  SelectSpec.matches (ExtractorConfig.pattern_15min ExtractorConfig.patterns) t = true ->
  re_match NOEUD_PATTERN t <> None.
Proof.
  intros [H|H]; invert_category H.
  all: unfold re_match; apply match_at_nonempty.
  all: cbn [source IGNORECASE NOEUD_PATTERN seqs lits map chars list_ascii_of_string
            fold_right app Re.run].
  all: rewrite Nat.eqb_refl; cbn [flat_map app fst snd].
  all: match goal with H : chars _ = _ |- _ => rewrite H end.
  all: cbn -[lit_match class_match consumed plus_runs]; rw_chars; discriminate.
Qed.
End Node.

(** X15. [extract_node] with the node pattern of the configuration never
    raises and gives [None] or one of CALIS, MEIND and RAIND in upper
    case, whatever the case of the table name; for every name of the
    5-minute or of the 15-minute category it gives a node, so [process]
    skips no table that the extractor selected for these categories. *)
Theorem extract_node_of_selected_table (t : string) :
  ((Re.re_match TransformerConfig.NOEUD_PATTERN t = None /\
    Transformer.extract_node TransformerConfig.NOEUD_PATTERN t = Ok None) \/
   exists node,
     Transformer.extract_node TransformerConfig.NOEUD_PATTERN t = Ok (Some node) /\
     In node ["CALIS"; "MEIND"; "RAIND"]) /\
  (SelectSpec.matches (ExtractorConfig.pattern_5min ExtractorConfig.patterns) t = true \/
   SelectSpec.matches (ExtractorConfig.pattern_15min ExtractorConfig.patterns) t = true ->
   exists node,
     Transformer.extract_node TransformerConfig.NOEUD_PATTERN t = Ok (Some node) /\
     In node ["CALIS"; "MEIND"; "RAIND"]).
Proof.
  assert (Hsome : forall m, Re.re_match TransformerConfig.NOEUD_PATTERN t = Some m ->
            exists node,
              Transformer.extract_node TransformerConfig.NOEUD_PATTERN t = Ok (Some node) /\
              In node ["CALIS"; "MEIND"; "RAIND"]).
  { intros m Hm. destruct (noeud_match_inv t m Hm) as (g & Hg & Hin).
    unfold Transformer.extract_node, TransformerTools.extract_noeud.
    rewrite Hm, Hg. cbn [rbind]. eauto. }
  split.
  - destruct (Re.re_match TransformerConfig.NOEUD_PATTERN t) as [m|] eqn:Hm.
    + right. now apply (Hsome m).
    + left. split; [reflexivity|].
      unfold Transformer.extract_node, TransformerTools.extract_noeud. now rewrite Hm.
  - intros Hcat. pose proof (noeud_matches_category t Hcat) as Hne.
    destruct (Re.re_match TransformerConfig.NOEUD_PATTERN t) as [m|] eqn:Hm;
      [|congruence].
    now apply (Hsome m).
Qed.

(** ** Buffering and flushing the detail rows *)

Section Batching.
Import TransformerConfig Transformer KpiSpec BufferSpec.
Variable accepts : insert_stmt -> bool.
Variable self : Transformer.t.
Hypothesis distinct_tables : NoDup (map fst (tables self)).
Hypothesis distinct_kpis :
  forall table, In table (tables self) -> NoDup (map fst (kpis (snd table))).

(** A buffered row has a value and names each KPI once. *)
Local Abbreviation good :=
  (fun row : detail_row => has_value row = true /\ NoDup (map fst (kpi_values row))).
Local Abbreviation good_buffers bd :=
  (forall (T : string) (buf : list detail_row), bd !! T = Some buf -> Forall good buf).
Local Abbreviation pending bd T := (default [] (bd !! T)).

Lemma assoc_In {A} (key : string) (d : list (string * A)) (v : A) :
  assoc key d = Some v -> In (key, v) d.
Proof.
  induction d as [|[k x] d IH]; cbn; [discriminate|].
  destruct (String.eqb_spec k key) as [->|Hne]; [intros [= ->]; now left|].
  intros H. right. now apply IH.
Qed.

Lemma In_assoc {A} (key : string) (d : list (string * A)) (v : A) :
  NoDup (map fst d) -> In (key, v) d -> assoc key d = Some v.
Proof.
  induction d as [|[k x] d IH]; cbn; [intros _ []|].
  intros Hnd. apply NoDup_cons in Hnd as [Hk Hnd].
  intros [[= -> ->]|Hin]; [now rewrite String.eqb_refl|].
  destruct (String.eqb_spec k key) as [->|Hne]; [|now apply IH].
  exfalso. apply Hk. apply list_elem_of_In. apply in_map_iff. now exists (key, v).
Qed.

Lemma rows_into_app (T : string) (a b : list insert_stmt) :
  rows_into T (a ++ b) = rows_into T a ++ rows_into T b.
Proof. apply flat_map_app. Qed.

Lemma filter_good (buf : list detail_row) :
  Forall good buf -> List.filter has_value buf = buf.
Proof.
  induction 1 as [|row buf [Hv _] _ IH]; [reflexivity|]. cbn. now rewrite Hv, IH.
Qed.

Lemma buffer_rows_good (T : string) (kpi_configs : list (string * kpi_config)) (kid : Z)
  (sd : list (string * suffix_group)) :
  NoDup (map fst kpi_configs) -> Forall good (fst (buffer_rows T kpi_configs kid sd)).
Proof.
  intros Hnd. induction sd as [|[sfx data] sd IH]; [constructor|].
  cbn [buffer_rows].
  destruct (existsb _ (calculate_kpis (counters data) kpi_configs)) eqn:Hv;
    cbn [fst]; [|exact IH].
  constructor; [|exact IH]. split; [exact Hv|].
  cbn [kpi_values]. now rewrite calculate_kpis_keys.
Qed.

(** Inserting a buffer of good rows commits one statement that holds the
    tuple of every row, in order (none for an empty buffer). *)
Lemma insert_good_buffer (T : string) (buf : list detail_row) (w w1 : World) :
  Forall good buf ->
  insert_kpi_details accepts self T buf w = (Ok tt, w1) ->
  exists tc,
    assoc T (tables self) = Some tc /\
    forall T', rows_into T' (committed w1)
               = rows_into T' (committed w)
                 ++ (if String.eqb T T' then map (detail_tuple (kpis tc)) buf else []).
Proof.
  intros Hgood. unfold insert_kpi_details.
  destruct (assoc T (tables self)) as [tc|]; [|discriminate].
  assert (Hnd : Forall (fun row => NoDup (map fst (kpi_values row))) buf).
  { apply Forall_forall. intros row Hin. rewrite Forall_forall in Hgood.
    now destruct (Hgood row Hin). }
  rewrite (detail_values_rows T (kpis tc) buf Hnd), (filter_good buf Hgood).
  destruct buf as [|row buf]; cbn [map].
  - intros [= <-]. exists tc. split; [reflexivity|]. intros T'. cbn [add_log committed].
    destruct (String.eqb T T'); now rewrite app_nil_r.
  - match goal with |- context [accepts ?stmt] => destruct (accepts stmt) end;
      [|discriminate].
    intros [= <-]. exists tc. split; [reflexivity|]. intros T'.
    cbn [commit add_log committed]. rewrite rows_into_app. f_equal.
    unfold rows_into. cbn [flat_map into rows]. now rewrite app_nil_r.
Qed.

Lemma process_date_rows (kid : Z) (sd : list (string * suffix_group))
  (ts : list (string * table_config)) :
  forall (bd : gmap string (list detail_row)) (w : World)
         (bd' : gmap string (list detail_row)) (w' : World),
    (forall table, In table ts -> In table (tables self)) ->
    good_buffers bd ->
    process_date accepts self kid sd ts bd w = (Ok bd', w') ->
    good_buffers bd' /\
    forall T tc, assoc T (tables self) = Some tc ->
      rows_into T (committed w') ++ map (detail_tuple (kpis tc)) (pending bd' T)
      = rows_into T (committed w) ++ map (detail_tuple (kpis tc)) (pending bd T)
        ++ map (detail_tuple (kpis tc))
             (flat_map (fun table =>
                          if String.eqb (fst table) T
                          then fst (buffer_rows (fst table) (kpis (snd table)) kid sd)
                          else []) ts).
Proof.
  induction ts as [|[T0 tc0] ts IH]; intros bd w bd' w' Hsub Hgood Hrun.
  - cbn in Hrun. injection Hrun as <- <-. split; [exact Hgood|].
    intros T tc _. cbn [flat_map map]. now rewrite app_nil_r.
  - cbn [process_date] in Hrun.
    assert (Hin0 : In (T0, tc0) (tables self)) by (apply Hsub; now left).
    pose proof (In_assoc T0 (tables self) tc0 distinct_tables Hin0) as Hassoc0.
    pose proof (buffer_rows_good T0 (kpis tc0) kid sd (distinct_kpis _ Hin0)) as Hnew.
    destruct (bd !! T0) as [buffer|] eqn:Hbuf; [|discriminate].
    assert (Hgood2 : Forall good (buffer ++ fst (buffer_rows T0 (kpis tc0) kid sd))).
    { apply Forall_app. split; [now apply (Hgood T0)|exact Hnew]. }
    set (buffer2 := buffer ++ fst (buffer_rows T0 (kpis tc0) kid sd)) in *.
    assert (Hstep : forall bd1 w1 flushed,
              process_date accepts self kid sd ts bd1 w1 = (Ok bd', w') ->
              good_buffers bd1 ->
              (forall T, T <> T0 -> bd1 !! T = bd !! T) ->
              (forall T, rows_into T (committed w1)
                         = rows_into T (committed w)
                           ++ (if String.eqb T0 T then flushed else [])) ->
              flushed ++ map (detail_tuple (kpis tc0)) (pending bd1 T0)
                = map (detail_tuple (kpis tc0)) buffer2 ->
              good_buffers bd' /\
              forall T tc, assoc T (tables self) = Some tc ->
                rows_into T (committed w') ++ map (detail_tuple (kpis tc)) (pending bd' T)
                = rows_into T (committed w) ++ map (detail_tuple (kpis tc)) (pending bd T)
                  ++ map (detail_tuple (kpis tc))
                       (flat_map (fun table =>
                                    if String.eqb (fst table) T
                                    then fst (buffer_rows (fst table) (kpis (snd table))
                                                kid sd)
                                    else []) ((T0, tc0) :: ts))).
    { intros bd1 w1 flushed Hrest Hgood1 Hothers Hrows Hsplit.
      destruct (IH bd1 w1 bd' w' ltac:(intros; apply Hsub; now right) Hgood1 Hrest)
        as [Hgood' Hinv].
      split; [exact Hgood'|]. intros T tc HT. rewrite (Hinv T tc HT), Hrows.
      cbn [flat_map fst snd]. rewrite map_app.
      destruct (String.eqb_spec T0 T) as [<-|Hne].
      - assert (tc = tc0) by congruence. subst tc. rewrite Hbuf. cbn [default].
        rewrite <- !app_assoc. f_equal. rewrite !app_assoc. f_equal.
        rewrite Hsplit. unfold buffer2. now rewrite map_app.
      - rewrite (Hothers T ltac:(congruence)), app_nil_r. cbn [map app]. reflexivity. }
    destruct (batch_size self <=? length buffer2)%nat.
    + destruct (insert_kpi_details accepts self T0 buffer2
                  (add_log (snd (buffer_rows T0 (kpis tc0) kid sd)) w))
        as [[[]|x] w1] eqn:Hins; [|discriminate].
      destruct (insert_good_buffer T0 buffer2 _ w1 Hgood2 Hins) as (tc & Htc & Hrows).
      assert (tc = tc0) by congruence. subst tc.
      apply (Hstep _ w1 (map (detail_tuple (kpis tc0)) buffer2) Hrun).
      * intros T buf. destruct (decide (T = T0)) as [->|Hne].
        -- rewrite lookup_insert_eq. intros [= <-]. constructor.
        -- rewrite !lookup_insert_ne by congruence. apply Hgood.
      * intros T Hne. now rewrite !lookup_insert_ne by congruence.
      * exact Hrows.
      * rewrite lookup_insert_eq. cbn. now rewrite app_nil_r.
    + apply (Hstep _ _ [] Hrun).
      * intros T buf. destruct (decide (T = T0)) as [->|Hne].
        -- rewrite lookup_insert_eq. now intros [= <-].
        -- rewrite lookup_insert_ne by congruence. apply Hgood.
      * intros T Hne. now rewrite lookup_insert_ne by congruence.
      * intros T. cbn [add_log committed]. destruct (String.eqb T0 T); now rewrite app_nil_r.
      * rewrite lookup_insert_eq. reflexivity.
Qed.

Lemma flat_map_other_tables {B} (T : string) (f : string * table_config -> list B)
  (ts : list (string * table_config)) :
  ~ In T (map fst ts) ->
  flat_map (fun table => if String.eqb (fst table) T then f table else []) ts = [].
Proof.
  induction ts as [|[k v] ts IH]; [reflexivity|]. cbn [map fst In flat_map].
  intros Hno. destruct (String.eqb_spec k T) as [->|_]; [tauto|]. apply IH. tauto.
Qed.

Lemma flat_map_one_table {B} (T : string) (tc : table_config)
  (f : string * table_config -> list B) (ts : list (string * table_config)) :
  NoDup (map fst ts) -> In (T, tc) ts ->
  flat_map (fun table => if String.eqb (fst table) T then f table else []) ts = f (T, tc).
Proof.
  induction ts as [|[k v] ts IH]; [intros _ []|]. cbn [map fst flat_map].
  intros Hnd. apply NoDup_cons in Hnd as [Hk Hnd]. rewrite list_elem_of_In in Hk.
  intros [[= -> ->]|Hin].
  - rewrite String.eqb_refl, flat_map_other_tables by exact Hk. apply app_nil_r.
  - destruct (String.eqb_spec k T) as [->|_].
    + exfalso. apply Hk. apply in_map_iff. now exists (T, tc).
    + now apply IH.
Qed.

Lemma process_dates_rows (work : list (Z * list (string * suffix_group))) :
  forall (bd : gmap string (list detail_row)) (w : World)
         (bd' : gmap string (list detail_row)) (w' : World),
    good_buffers bd ->
    process_dates accepts self work bd w = (Ok bd', w') ->
    good_buffers bd' /\
    forall T tc, In (T, tc) (tables self) ->
      rows_into T (committed w') ++ map (detail_tuple (kpis tc)) (pending bd' T)
      = rows_into T (committed w) ++ map (detail_tuple (kpis tc)) (pending bd T)
        ++ map (detail_tuple (kpis tc)) (computed_rows T (kpis tc) work).
Proof.
  induction work as [|[kid sd] work IH]; intros bd w bd' w' Hgood Hrun.
  - cbn in Hrun. injection Hrun as <- <-. split; [exact Hgood|].
    intros T tc _. cbn. now rewrite app_nil_r.
  - cbn [process_dates] in Hrun.
    destruct (process_date accepts self kid sd (tables self) bd w) as [[bd1|x] w1] eqn:Hdate;
      [|discriminate].
    destruct (process_date_rows kid sd (tables self) bd w bd1 w1 ltac:(auto) Hgood Hdate)
      as [Hgood1 Hinv1].
    destruct (IH bd1 w1 bd' w' Hgood1 Hrun) as [Hgood' Hinv].
    split; [exact Hgood'|]. intros T tc Hin.
    rewrite (Hinv T tc Hin).
    rewrite app_assoc, (Hinv1 T tc (In_assoc T _ tc distinct_tables Hin)).
    rewrite (flat_map_one_table T tc
               (fun table => fst (buffer_rows (fst table) (kpis (snd table)) kid sd))
               (tables self) distinct_tables Hin).
    unfold computed_rows. cbn [flat_map fst snd]. rewrite map_app, <- !app_assoc.
    reflexivity.
Qed.

Lemma flush_remaining_rows (names : list string) :
  forall (bd : gmap string (list detail_row)) (w : World)
         (bd' : gmap string (list detail_row)) (w' : World),
    good_buffers bd ->
    flush_remaining accepts self names bd w = (Ok bd', w') ->
    (forall T tc, assoc T (tables self) = Some tc ->
       rows_into T (committed w') ++ map (detail_tuple (kpis tc)) (pending bd' T)
       = rows_into T (committed w) ++ map (detail_tuple (kpis tc)) (pending bd T)) /\
    (forall T, pending bd T = [] -> pending bd' T = []) /\
    (forall T, In T names -> pending bd' T = []).
Proof.
  induction names as [|T0 names IH]; intros bd w bd' w' Hgood Hrun.
  - cbn in Hrun. injection Hrun as <- <-. repeat split; auto. intros T [].
  - cbn [flush_remaining] in Hrun.
    destruct (bd !! T0) as [[|row buffer]|] eqn:Hbuf.
    + destruct (IH bd w bd' w' Hgood Hrun) as (Hinv & Hkeep & Hdone).
      split; [exact Hinv|]. split; [exact Hkeep|].
      intros T [<-|Hin]; [|now apply Hdone]. apply Hkeep. now rewrite Hbuf.
    + cbv iota beta in Hrun.
      destruct (insert_kpi_details accepts self T0 (row :: buffer) w)
        as [[[]|x] w1] eqn:Hins; [|discriminate].
      destruct (insert_good_buffer T0 (row :: buffer) w w1 (Hgood T0 _ Hbuf) Hins)
        as (tc0 & Htc0 & Hrows).
      destruct (IH (<[T0 := []]> bd) w1 bd' w') as (Hinv & Hkeep & Hdone); [|exact Hrun|].
      { intros T buf. destruct (decide (T = T0)) as [->|Hne].
        - rewrite lookup_insert_eq. intros [= <-]. constructor.
        - rewrite lookup_insert_ne by congruence. apply Hgood. }
      split; [|split].
      * intros T tc HT. rewrite (Hinv T tc HT), Hrows.
        destruct (String.eqb_spec T0 T) as [<-|Hne].
        -- assert (tc = tc0) by congruence. subst tc.
           rewrite lookup_insert_eq, Hbuf. cbn [default map]. now rewrite app_nil_r.
        -- rewrite lookup_insert_ne by congruence. now rewrite app_nil_r.
      * intros T Hempty. apply Hkeep. destruct (decide (T = T0)) as [->|Hne].
        -- now rewrite lookup_insert_eq.
        -- now rewrite lookup_insert_ne by congruence.
      * intros T [<-|Hin]; [|now apply Hdone]. apply Hkeep. now rewrite lookup_insert_eq.
    + destruct (IH bd w bd' w' Hgood Hrun) as (Hinv & Hkeep & Hdone).
      split; [exact Hinv|]. split; [exact Hkeep|].
      intros T [<-|Hin]; [|now apply Hdone]. apply Hkeep. now rewrite Hbuf.
Qed.

Lemma empty_buffers_pending (T : string) (buf : list detail_row) :
  empty_buffers self !! T = Some buf -> buf = [].
Proof.
  unfold empty_buffers. intros Hl. apply elem_of_list_to_map_2 in Hl.
  apply list_elem_of_In in Hl. apply in_map_iff in Hl as (table & [= _ <-] & _).
  reflexivity.
Qed.

(** A run of the buffers that returns has inserted, into every table of
    the configuration, the tuple of every row computed for it, once and in
    the order of computation. *)
Lemma process_buffers_rows (work : list (Z * list (string * suffix_group)))
  (w w' : World) :
  process_buffers accepts self work w = (Ok tt, w') ->
  forall T tc, In (T, tc) (tables self) ->
    rows_into T (committed w')
    = rows_into T (committed w)
      ++ map (detail_tuple (kpis tc)) (computed_rows T (kpis tc) work).
Proof.
  unfold process_buffers. intros Hrun T tc Hin.
  destruct (process_dates accepts self work (empty_buffers self) w)
    as [[bd1|x] w1] eqn:Hdates; [|discriminate].
  destruct (flush_remaining accepts self (map fst (tables self)) bd1 w1)
    as [[bd2|x] w2] eqn:Hflush; [|discriminate].
  injection Hrun as <-.
  destruct (process_dates_rows work (empty_buffers self) w bd1 w1) as [Hgood1 Hinv1];
    [|exact Hdates|].
  { intros T' buf Hl. apply empty_buffers_pending in Hl as ->. constructor. }
  destruct (flush_remaining_rows _ bd1 w1 bd2 w2 Hgood1 Hflush) as (Hinv2 & _ & Hdone).
  pose proof (Hinv2 T tc (In_assoc T _ tc distinct_tables Hin)) as H2.
  rewrite (Hdone T) in H2.
  2:{ apply in_map_iff. now exists (T, tc). }
  cbn [map] in H2. rewrite app_nil_r in H2. rewrite H2, (Hinv1 T tc Hin).
  f_equal.
  destruct (empty_buffers self !! T) as [buf|] eqn:Hl; [|reflexivity].
  now apply empty_buffers_pending in Hl as ->.
Qed.

End Batching.

(** X16. The buffers of [process] lose no row and insert none twice: when
    the filling and flushing of the buffers returns normally (every
    insert accepted), the tuples inserted into each destination table
    during the run are exactly the tuples of the detail rows computed for
    that table, date after date and suffix after suffix, in that order,
    whatever the batch size and wherever the intermediate flushes fell. *)
Theorem every_computed_row_is_inserted_once
  (accepts : Transformer.insert_stmt -> bool) (self : Transformer.t)
  (work : list (Z * list (string * Transformer.suffix_group)))
  (w w' : Transformer.World) :
  NoDup (map fst (Transformer.tables self)) ->
  (forall table, In table (Transformer.tables self) ->
                 NoDup (map fst (TransformerConfig.kpis (snd table)))) ->
  Transformer.process_buffers accepts self work w = (Ok tt, w') ->
  forall T tc, In (T, tc) (Transformer.tables self) ->
    BufferSpec.rows_into T (Transformer.committed w')
    = BufferSpec.rows_into T (Transformer.committed w)
      ++ map (KpiSpec.detail_tuple (TransformerConfig.kpis tc))
             (BufferSpec.computed_rows T (TransformerConfig.kpis tc) work).
Proof.
  intros Htables Hkpis Hrun T tc Hin.
  exact (process_buffers_rows accepts self Htables Hkpis work w w' Hrun T tc Hin).
Qed.

Lemma every_computed_row_is_inserted_once_witness :
  BufferSpec.rows_into "t"
    (Transformer.committed
       (snd (Transformer.process_buffers (fun _ => true) KpiSamples.two_columns
               KpiSamples.sample_work KpiSamples.empty_world)))
  = BufferSpec.rows_into "t" (Transformer.committed KpiSamples.empty_world)
    ++ map (KpiSpec.detail_tuple KpiSamples.two_kpis)
           (BufferSpec.computed_rows "t" KpiSamples.two_kpis KpiSamples.sample_work).
Proof.
  apply (every_computed_row_is_inserted_once (fun _ => true) KpiSamples.two_columns
           KpiSamples.sample_work KpiSamples.empty_world
           (snd (Transformer.process_buffers (fun _ => true) KpiSamples.two_columns
                   KpiSamples.sample_work KpiSamples.empty_world)))
    with (T := "t") (tc := {| TransformerConfig.kpis := KpiSamples.two_kpis |}).
  - cbn. apply NoDup_singleton.
  - intros table [<-|[]]. cbn.
    apply NoDup_cons_2; [|apply NoDup_singleton].
    rewrite list_elem_of_In. cbn. intuition discriminate.
  - vm_compute. reflexivity.
  - left. reflexivity.
Defined.

(** ** What a suffix group holds *)

Section Groups.
Import TransformerConfig Transformer KpiSpec.

(** The rows of a DataFrame named [prefix.suffix]. *)
Local Abbreviation named prefix sfx :=
  (fun r : df_row =>
     match TransformerTools.extract_indicateur_suffixe (indicateur r) with
     | (p, Some s) => String.eqb s sfx && String.eqb p prefix
     | (_, None) => false
     end).

Lemma tagged_cell (self : Transformer.t) (df : list df_row) (sfx prefix : string) :
  sfx <> "M" ->
  map row_valeur
      (List.filter (fun r => String.eqb (row_suffix r) sfx && String.eqb (row_prefix r) prefix)
                   (tag_rows self df))
  = map valeur (List.filter (named prefix sfx) df).
Proof.
  intros HM. induction df as [|r df IH]; [reflexivity|].
  unfold tag_rows in *. cbn [flat_map List.filter].
  rewrite List.filter_app, map_app, IH.
  destruct (TransformerTools.extract_indicateur_suffixe (indicateur r)) as [p [s|]];
    [|reflexivity].
  destruct (String.eqb_spec s "M") as [->|Hs].
  - destruct (String.eqb_spec "M" sfx) as [<-|_]; [congruence|reflexivity].
  - cbn [List.filter row_suffix row_prefix].
    destruct (String.eqb s sfx && String.eqb p prefix); reflexivity.
Qed.

Lemma tagged_suffix_not_M (self : Transformer.t) (df : list df_row) (tr : tagged_row) :
  In tr (tag_rows self df) -> row_suffix tr <> "M".
Proof.
  unfold tag_rows. rewrite in_flat_map. intros (r & _ & Hin).
  destruct (TransformerTools.extract_indicateur_suffixe (indicateur r)) as [p [s|]];
    [|destruct Hin].
  destruct (String.eqb s "M") eqn:Hs; [destruct Hin|].
  destruct Hin as [<-|[]]. cbn. now apply String.eqb_neq.
Qed.

Lemma tagged_row_origin (self : Transformer.t) (df : list df_row) (tr : tagged_row) :
  In tr (tag_rows self df) ->
  exists r prefix,
    In r df /\
    TransformerTools.extract_indicateur_suffixe (indicateur r)
      = (prefix, Some (row_suffix tr)).
Proof.
  unfold tag_rows. rewrite in_flat_map. intros (r & Hr & Hin).
  destruct (TransformerTools.extract_indicateur_suffixe (indicateur r)) as [p [s|]]
    eqn:Hsplit; [|destruct Hin].
  destruct (String.eqb s "M"); [destruct Hin|].
  destruct Hin as [<-|[]]. cbn. eauto.
Qed.

Lemma cell_lookup (rows : list tagged_row) (sfx : string) (prefixes : list string)
  (prefix : string) :
  (~ In prefix prefixes -> cell_sum rows sfx prefix = 0%Q) ->
  default 0%Q
    ((list_to_map (map (fun p => (p, cell_sum rows sfx p)) prefixes) : gmap string Q)
       !! prefix)
  = cell_sum rows sfx prefix.
Proof.
  intros Hout. induction prefixes as [|p prefixes IH]; cbn [map]; [|rewrite list_to_map_cons].
  - rewrite list_to_map_nil, lookup_empty. cbn. symmetry. apply Hout. intros [].
  - destruct (decide (p = prefix)) as [->|Hne].
    + now rewrite lookup_insert_eq.
    + rewrite lookup_insert_ne by exact Hne. apply IH.
      intros Hno. apply Hout. intros [H|H]; [congruence|contradiction].
Qed.

Lemma empty_cell (rows : list tagged_row) (sfx prefix : string) :
  ~ In prefix (map row_prefix rows) -> cell_sum rows sfx prefix = 0%Q.
Proof.
  intros Hno. unfold cell_sum.
  replace (List.filter _ rows) with (@nil tagged_row); [reflexivity|].
  symmetry. induction rows as [|r rows IH]; [reflexivity|]. cbn [List.filter].
  destruct (String.eqb_spec (row_prefix r) prefix) as [He|_].
  - exfalso. apply Hno. cbn. now left.
  - rewrite andb_false_r. apply IH. intros Hin. apply Hno. cbn. now right.
Qed.

End Groups.

(** X17. In the dict that [aggregate_by_suffix] returns, the keys are
    the suffixes of the rows of the DataFrame, the rows without a dot and
    those of suffix ["M"] left aside; and under a key, the value that
    [calculate_kpis] reads for a counter ([counters.get(counter, 0)]) is
    the sum of [valeur] over the rows named [counter.suffix], 0 when there
    is none. *)
Theorem suffix_group_sums_its_rows (self : Transformer.t) (df : list Transformer.df_row)
  (grouped : list (string * Transformer.suffix_group))
  (warnings : list Transformer.log_record) :
  Transformer.aggregate_by_suffix self df = Ok (grouped, warnings) ->
  (forall sfx,
     In sfx (map fst grouped) <->
     sfx <> "M" /\
     exists r prefix,
       In r df /\
       TransformerTools.extract_indicateur_suffixe (Transformer.indicateur r)
         = (prefix, Some sfx)) /\
  (forall sfx group counter,
     In (sfx, group) grouped ->
     default 0%Q (Transformer.counters group !! counter)
     = py_sum (map Transformer.valeur
                 (List.filter
                    (fun r =>
                       match TransformerTools.extract_indicateur_suffixe
                               (Transformer.indicateur r) with
                       | (p, Some s) => String.eqb s sfx && String.eqb p counter
                       | (_, None) => false
                       end) df))).
Proof.
  unfold Transformer.aggregate_by_suffix. destruct df as [|r0 df0]; [discriminate|].
  cbv beta iota zeta. remember (r0 :: df0) as df eqn:Hdf. clear Hdf.
  intros [= <- _]. split.
  - intros sfx. rewrite map_map. cbn [fst]. rewrite map_id, sorted_unique_In.
    rewrite in_map_iff. split.
    + intros (tr & <- & Hin). split; [exact (tagged_suffix_not_M self df tr Hin)|].
      exact (tagged_row_origin self df tr Hin).
    + intros (HM & r & prefix & Hr & Hsplit).
      eexists. split; [|exact (tag_rows_keeps self df r prefix sfx Hr Hsplit HM)].
      reflexivity.
  - intros sfx group counter Hin.
    apply in_map_iff in Hin as (s & [= <- <-] & Hs).
    apply (proj1 (sorted_unique_In _ _)) in Hs. apply in_map_iff in Hs as (tr & <- & Htr).
    cbn [Transformer.counters].
    rewrite cell_lookup.
    + unfold Transformer.cell_sum. f_equal.
      apply tagged_cell. exact (tagged_suffix_not_M self df tr Htr).
    + intros Hno. apply empty_cell. intros Hin. apply Hno. now apply sorted_unique_In.
Qed.

Lemma suffix_group_sums_its_rows_witness :
  (forall sfx,
     In sfx (map fst (fst KpiSamples.two_operators_grouped)) <->
     sfx <> "M" /\
     exists r prefix,
       In r KpiSamples.two_operators /\
       TransformerTools.extract_indicateur_suffixe (Transformer.indicateur r)
         = (prefix, Some sfx)) /\
  (forall sfx group counter,
     In (sfx, group) (fst KpiSamples.two_operators_grouped) ->
     default 0%Q (Transformer.counters group !! counter)
     = py_sum (map Transformer.valeur
                 (List.filter
                    (fun r =>
                       match TransformerTools.extract_indicateur_suffixe
                               (Transformer.indicateur r) with
                       | (p, Some s) => String.eqb s sfx && String.eqb p counter
                       | (_, None) => false
                       end) KpiSamples.two_operators))).
Proof.
  apply (suffix_group_sums_its_rows KpiSamples.mgw KpiSamples.two_operators
           (fst KpiSamples.two_operators_grouped) (snd KpiSamples.two_operators_grouped)).
  reflexivity.
Defined.


(** * From the extractor's manifest to the transformer *)

Section ManifestNames.
Import Re SelectSpec ExtractorConfig.

Lemma space_lower (x : ascii) : Transformer.is_space (to_lower x) = Transformer.is_space x.
Proof. destruct x as [[] [] [] [] [] [] [] []]; reflexivity. Qed.

Lemma lit_space (a x : ascii) :
  lit_match true a x = true -> Transformer.is_space x = Transformer.is_space (to_lower a).
Proof. intros H. apply lit_match_lower in H. now rewrite <- space_lower, H. Qed.

Lemma digit_not_space (x : ascii) :
  class_match true is_digit x = true -> Transformer.is_space x = false.
Proof. destruct x as [[] [] [] [] [] [] [] []]; try discriminate; reflexivity. Qed.

Lemma dash_not_space (x : ascii) :
  class_match true (one_of "-_") x = true -> Transformer.is_space x = false.
Proof. destruct x as [[] [] [] [] [] [] [] []]; try discriminate; reflexivity. Qed.

Lemma underscore_not_space (x : ascii) :
  class_match true (one_of "_-") x = true -> Transformer.is_space x = false.
Proof. destruct x as [[] [] [] [] [] [] [] []]; try discriminate; reflexivity. Qed.

Lemma digits_not_space (ds : list ascii) :
  forallb (class_match true is_digit) ds = true ->
  forallb (fun c => negb (Transformer.is_space c)) ds = true.
Proof.
  induction ds as [|d ds IH]; [reflexivity|]. cbn [forallb].
  intros [Hd Hds]%andb_true_iff. now rewrite (digit_not_space d Hd), IH.
Qed.

(** A name of the 5-minute category that holds no line feed is not empty
    and holds no white space. *)
Lemma name_5min_clean (t : string) :
  matches (pattern_5min patterns) t = true ->
  ~ In "010"%char (chars t) ->
  t <> "" /\ forallb (fun c => negb (Transformer.is_space c)) (chars t) = true.
Proof.
  intros H5 Hnl. invert_category H5.
  all: split; [intros ->; match goal with H : chars "" = _ |- _ => discriminate H end|].
  all: match goal with
       | H : _ = [] \/ _ = ["010"%char] |- _ =>
           destruct H as [->| ->];
             [|exfalso; apply Hnl;
               match goal with H : chars _ = _ |- _ => rewrite H end;
               repeat (first [apply in_eq | apply in_cons | apply in_or_app; right])]
       end.
  all: match goal with H : chars _ = _ |- _ => rewrite H end.
  all: cbn [forallb]; rewrite forallb_app; cbn [forallb].
  all: repeat match goal with
         | H : lit_match true ?a ?x = true |- _ =>
             rewrite (lit_space a x H); clear H
         | H : class_match true is_digit ?x = true |- _ =>
             rewrite (digit_not_space x H); clear H
         | H : class_match true (one_of "-_") ?x = true |- _ =>
             rewrite (dash_not_space x H); clear H
         | H : class_match true (one_of "_-") ?x = true |- _ =>
             rewrite (underscore_not_space x H); clear H
         | H : forallb (class_match true is_digit) ?ds = true |- _ =>
             rewrite (digits_not_space ds H); clear H
         end.
  all: reflexivity.
Qed.

End ManifestNames.

(** X18. The manifest that the extractor stores for the 5-minute
    category is the transformer's input, and it comes through unchanged:
    when no table name of the source holds a line feed,
    [process_tables_names] stores under the path that the transformer's
    configuration names a file from which [load_tables] reads the same
    names in the same order, and [extract_node] finds a node for each of
    them, so that [process] skips none. *)
Theorem stored_manifest_feeds_transformer (names : list string)
  (cutoff : Calendar.datetime) (w : Extract.World) :
  (forall t, In t names -> ~ In "010"%char (chars t)) ->
  exists w' tables_5min,
    Tools.process_tables_names names ExtractorConfig.patterns cutoff w
      = (Extract.Returns tables_5min, w') /\
    Extract.txt_files w' !! TransformerConfig.FILES_PATHS_5min = Some tables_5min /\
    Transformer.load_tables
      (option_map Tools.join_lines
         (Extract.txt_files w' !! TransformerConfig.FILES_PATHS_5min))
      = Ok tables_5min /\
    forall t, In t tables_5min ->
      exists node,
        Transformer.extract_node TransformerConfig.NOEUD_PATTERN t = Ok (Some node).
Proof.
  intros Hnames.
  destruct (process_tables_names_run names ExtractorConfig.patterns cutoff w)
    as (w' & m5 & m15 & mmgw & Hrun & H5 & _ & _ & Hfiles & _).
  assert (Hsel : forall t, In t m5 ->
            In t names /\
            SelectSpec.matches (ExtractorConfig.pattern_5min ExtractorConfig.patterns) t = true).
  { intros t Ht.
    destruct (manifest_is_selection
                (ExtractorConfig.pattern_5min ExtractorConfig.patterns) cutoff names m5
                (or_introl eq_refl) H5) as [Hperm _].
    apply (Permutation_in _ Hperm) in Ht. apply filter_In in Ht as [Hin Hsel].
    unfold SelectSpec.selected in Hsel. now apply andb_true_iff in Hsel as [Hm _]. }
  assert (Hfile : Extract.txt_files w' !! TransformerConfig.FILES_PATHS_5min = Some m5).
  { rewrite Hfiles. rewrite lookup_insert_ne by discriminate.
    rewrite lookup_insert_ne by discriminate. apply lookup_insert_eq. }
  exists w', m5. split; [exact Hrun|]. split; [exact Hfile|]. split.
  - rewrite Hfile. cbn [option_map]. apply joined_lines_read_back.
    apply Forall_forall. intros t Ht%list_elem_of_In.
    destruct (Hsel t Ht) as [Hin Hm]. exact (name_5min_clean t Hm (Hnames t Hin)).
  - intros t Ht. destruct (Hsel t Ht) as [_ Hm].
    pose proof (noeud_matches_category t (or_introl Hm)) as Hne.
    destruct (Re.re_match TransformerConfig.NOEUD_PATTERN t) as [m|] eqn:Hmatch;
      [|congruence].
    destruct (noeud_match_inv t m Hmatch) as (g & Hg & _).
    unfold Transformer.extract_node, TransformerTools.extract_noeud.
    rewrite Hmatch, Hg. cbn [rbind]. eauto.
Qed.

Lemma stored_manifest_feeds_transformer_witness :
  exists w' tables_5min,
    Tools.process_tables_names Samples.table_names ExtractorConfig.patterns
      ExtractorConfig.START_DATE Samples.empty_world
      = (Extract.Returns tables_5min, w') /\
    Extract.txt_files w' !! TransformerConfig.FILES_PATHS_5min = Some tables_5min /\
    Transformer.load_tables
      (option_map Tools.join_lines
         (Extract.txt_files w' !! TransformerConfig.FILES_PATHS_5min))
      = Ok tables_5min /\
    forall t, In t tables_5min ->
      exists node,
        Transformer.extract_node TransformerConfig.NOEUD_PATTERN t = Ok (Some node).
Proof.
  apply (stored_manifest_feeds_transformer Samples.table_names
           ExtractorConfig.START_DATE Samples.empty_world).
  intros t Hin. cbn in Hin.
  repeat (destruct Hin as [<-|Hin]; [vm_compute; intuition discriminate|]).
  destruct Hin.
Defined.
